(** * VPS e-mail automation: deployment pipeline, DNS analysis and health monitor

    A shallow embedding of the four Python programs of the repository
    ([vps_orchestrator.py], [monitor.py], [email_configurator.py],
    [email_configurator_enhanced.py]) and the properties of their control
    flow: polling loops, error propagation, alert classification, report
    retention, configuration loading and DNS analysis.

    Python objects become records, [self] becomes the state threaded through
    a state-and-exception monad, and everything outside the process (the
    network, the remote host, subprocesses, the clock, the random source) is
    an oracle indexed by the number of interactions performed so far. *)

From Stdlib Require Import ZArith QArith String Ascii List Lia Bool.
From stdpp Require Import base option list strings gmap sorting.

Set Warnings "-register-all".
Open Scope string_scope.
Open Scope Z_scope.

(** ** Python values, f-strings and exceptions *)

Module Py.

(** A value as [json.load] produces it. Object keys are strings. *)
Inductive Value :=
| VNone
| VBool (b : bool)
| VInt (z : Z)
| VFloat (q : Q)
| VStr (s : string)
| VList (l : list Value)
| VDict (d : list (string * Value)).

Definition Dict := list (string * Value).

(** An f-string is kept as its pieces: the literal text and the interpolated
    values, in order. [f"{username}@{domain}"] is
    [[Fmt username; Lit "@"; Fmt domain]]. An interpolated exception keeps
    its class and message. The pictograph that opens many of the printed
    messages is not part of the literal text kept here. *)
Inductive Piece :=
| Lit (s : string)
| Fmt (v : Value)
| FmtExc (cls : string) (msg : list Piece).

Definition FString := list Piece.

(** Exceptions. [Exception_ cls msg] is any subclass of [Exception];
    [KeyboardInterrupt] and [SystemExit] derive from [BaseException] only, so
    [except Exception] lets them through. *)
Inductive PyExc :=
| Exception_ (cls : string) (msg : FString)
| KeyboardInterrupt
| SystemExit (code : Z).

Definition is_Exception (e : PyExc) : bool :=
  match e with Exception_ _ _ => true | _ => false end.

Definition fmt_exc (e : PyExc) : Piece :=
  match e with
  | Exception_ cls msg => FmtExc cls msg
  | KeyboardInterrupt => FmtExc "KeyboardInterrupt" []
  | SystemExit c => FmtExc "SystemExit" [Fmt (VInt c)]
  end.

Definition KeyError (k : string) : PyExc := Exception_ "KeyError" [Lit k].
Definition TypeError (what : string) : PyExc := Exception_ "TypeError" [Lit what].

(** The result of a call that returns or raises. *)
Inductive Result (A : Type) :=
| Ok (a : A)
| Raise (e : PyExc).
Arguments Ok {A} a.
Arguments Raise {A} e.

(** *** Dictionaries (insertion ordered, first binding wins) *)

Fixpoint dict_get {A} (k : string) (d : list (string * A)) : option A :=
  match d with
  | [] => None
  | (k', v) :: d' => if String.eqb k k' then Some v else dict_get k d'
  end.

(** [d[k] = v]: replace in place, or append. *)
Fixpoint dict_set {A} (k : string) (v : A) (d : list (string * A)) : list (string * A) :=
  match d with
  | [] => [(k, v)]
  | (k', v') :: d' =>
      if String.eqb k k' then (k, v) :: d' else (k', v') :: dict_set k v d'
  end.

(** [k in d] *)
Definition dict_mem {A} (k : string) (d : list (string * A)) : bool :=
  match dict_get k d with Some _ => true | None => false end.

(** [v[k]] with a string key [k]. *)
Definition getitem (v : Value) (k : string) : Result Value :=
  match v with
  | VDict d =>
      match dict_get k d with
      | Some x => Ok x
      | None => Raise (KeyError k)
      end
  | VList _ => Raise (TypeError "list indices must be integers or slices, not str")
  | VStr _ => Raise (TypeError "string indices must be integers, not str")
  | _ => Raise (TypeError "object is not subscriptable")
  end.

Definition IndexError : PyExc := Exception_ "IndexError" [Lit "list index out of range"].

(** [v[0]] *)
Definition getitem0 (v : Value) : Result Value :=
  match v with
  | VList (x :: _) => Ok x
  | VList [] => Raise IndexError
  | VStr (String c _) => Ok (VStr (String c EmptyString))
  | VStr EmptyString => Raise (Exception_ "IndexError" [Lit "string index out of range"])
  | VDict _ => Raise (Exception_ "KeyError" [Fmt (VInt 0)])
  | _ => Raise (TypeError "object is not subscriptable")
  end.

Fixpoint chars (s : string) : list Value :=
  match s with
  | EmptyString => []
  | String c s' => VStr (String c EmptyString) :: chars s'
  end.

(** [for x in v]: the elements a [for] loop visits. *)
Definition iter (v : Value) : Result (list Value) :=
  match v with
  | VList l => Ok l
  | VDict d => Ok (map (fun kv => VStr (fst kv)) d)
  | VStr s => Ok (chars s)
  | _ => Raise (TypeError "object is not iterable")
  end.

(** Numbers: [bool] is a subclass of [int]; floats are read as rationals. *)
Definition num_of (v : Value) : option Q :=
  match v with
  | VBool b => Some (inject_Z (if b then 1 else 0))
  | VInt z => Some (inject_Z z)
  | VFloat q => Some q
  | _ => None
  end.

Definition Qlt_bool (x y : Q) : bool := negb (Qle_bool y x).

(** [x > v] for a number [x]. *)
Definition gt_num (x : Q) (v : Value) : Result bool :=
  match num_of v with
  | Some y => Ok (Qlt_bool y x)
  | None => Raise (TypeError "'>' not supported between these instances")
  end.

(** Equality of hashable values, as dictionary keys compare. *)
Definition key_eqb (a b : Value) : bool :=
  match num_of a, num_of b with
  | Some x, Some y => Qeq_bool x y
  | None, None =>
      match a, b with
      | VNone, VNone => true
      | VStr s, VStr t => String.eqb s t
      | _, _ => false
      end
  | _, _ => false
  end.

Definition hashable (v : Value) : bool :=
  match v with VList _ | VDict _ => false | _ => true end.

(** [v == "literal"] *)
Definition eq_str (v : Value) (s : string) : bool :=
  match v with VStr t => String.eqb t s | _ => false end.

(** A dictionary built by the program, keyed by arbitrary hashable values. *)
Fixpoint vdict_get {A} (k : Value) (d : list (Value * A)) : option A :=
  match d with
  | [] => None
  | (k', v) :: d' => if key_eqb k k' then Some v else vdict_get k d'
  end.

Fixpoint vdict_set {A} (k : Value) (v : A) (d : list (Value * A)) : list (Value * A) :=
  match d with
  | [] => [(k, v)]
  | (k', v') :: d' =>
      if key_eqb k k' then (k', v) :: d' else (k', v') :: vdict_set k v d'
  end.

(** [needle in haystack] on strings. *)
Definition contains (needle haystack : string) : bool :=
  match String.index 0 needle haystack with Some _ => true | None => false end.

(** [needle in v] where [v] is expected to be a string. *)
Definition str_in (needle : string) (v : Value) : Result bool :=
  match v with
  | VStr s => Ok (contains needle s)
  | VList l => Ok (existsb (fun x => eq_str x needle) l)
  | VDict d => Ok (dict_mem needle d)
  | _ => Raise (TypeError "argument is not iterable")
  end.

End Py.
Export Py.

(** ** The state-and-exception monad

    A computation takes the state and either runs out of loop budget
    ([None]: the modelled loop has not finished within the given number of
    iterations) or finishes with a result or a raised exception and the new
    state. The state survives a raised exception, as the attributes of
    [self] do. *)

Module Monad.

Definition M (S A : Type) := S -> option (Result A * S).

Definition ret {S A} (a : A) : M S A := fun s => Some (Ok a, s).

Definition raise {S A} (e : PyExc) : M S A := fun s => Some (Raise e, s).

Definition bind {S A B} (m : M S A) (k : A -> M S B) : M S B :=
  fun s =>
    match m s with
    | None => None
    | Some (Ok a, s') => k a s'
    | Some (Raise e, s') => Some (Raise e, s')
    end.

Definition get {S} : M S S := fun s => Some (Ok s, s).
Definition gets {S A} (f : S -> A) : M S A := fun s => Some (Ok (f s), s).
Definition modify {S} (f : S -> S) : M S unit := fun s => Some (Ok tt, f s).

(** Lift a pure result. *)
Definition lift {S A} (r : Result A) : M S A := fun s => Some (r, s).

(** [try: body / except Exception as e: handler e] *)
Definition try_except {S A} (body : M S A) (handler : PyExc -> M S A) : M S A :=
  fun s =>
    match body s with
    | Some (Raise e, s') => if is_Exception e then handler e s' else Some (Raise e, s')
    | r => r
    end.

(** [try: body / except: handler] (a bare [except] catches everything) *)
Definition try_except_bare {S A} (body : M S A) (handler : M S A) : M S A :=
  fun s =>
    match body s with
    | Some (Raise e, s') => handler s'
    | r => r
    end.

(** [try: body / finally: cleanup]. The cleanup runs on return and on raise;
    an exception of the cleanup replaces the pending outcome. *)
Definition try_finally {S A} (body : M S A) (cleanup : M S unit) : M S A :=
  fun s =>
    match body s with
    | None => None
    | Some (r, s') =>
        match cleanup s' with
        | None => None
        | Some (Ok _, s'') => Some (r, s'')
        | Some (Raise e, s'') => Some (Raise e, s'')
        end
    end.

(** [for x in l: body x] *)
Fixpoint for_each {S A} (l : list A) (body : A -> M S unit) : M S unit :=
  match l with
  | [] => ret tt
  | x :: l' => bind (body x) (fun _ => for_each l' body)
  end.

(** A [for] loop whose body may [return r] from the enclosing function:
    the body yields [Some r] to return, [None] to go on. *)
Fixpoint for_each_return {S A R} (l : list A) (body : A -> M S (option R)) : M S (option R) :=
  match l with
  | [] => ret None
  | x :: l' =>
      bind (body x) (fun r =>
        match r with
        | Some v => ret (Some v)
        | None => for_each_return l' body
        end)
  end.

(** [while True: body], where the body yields [Some r] to leave the loop
    with [r] and [None] to go round again. [fuel] bounds the number of
    iterations the model follows. *)
Fixpoint while_true {S R} (fuel : nat) (body : M S (option R)) : M S R :=
  match fuel with
  | O => fun _ => None
  | S fuel' =>
      bind body (fun r =>
        match r with
        | Some v => ret v
        | None => while_true fuel' body
        end)
  end.

(** [while cond: body] followed by [orelse] once the condition is false;
    the body may return from the function with [Some r]. *)
Fixpoint while_cond {S R} (fuel : nat) (cond : M S bool) (body : M S (option R))
    (after : M S R) : M S R :=
  match fuel with
  | O => fun _ => None
  | S fuel' =>
      bind cond (fun c =>
        if c then
          bind body (fun r =>
            match r with
            | Some v => ret v
            | None => while_cond fuel' cond body after
            end)
        else after)
  end.

(** [I] is kept by [m], however [m] ends. *)
Definition inv {S A} (I : S -> Prop) (m : M S A) : Prop :=
  forall s r s', I s -> m s = Some (r, s') -> I s'.

(** From a state in [P], [m] ends, however it ends, in a state in [Q]. *)
Definition post {S A} (P Q : S -> Prop) (m : M S A) : Prop :=
  forall s r s', P s -> m s = Some (r, s') -> Q s'.

(** [m] returns or raises from every state: it never runs out of fuel. *)
Definition total {S A} (m : M S A) : Prop :=
  forall s, exists r s', m s = Some (r, s').

(** [m], when it returns from a state in [P], returns in a state in [Q]. *)
Definition returns {S A} (P : S -> Prop) (m : M S A) (Q : A -> S -> Prop) : Prop :=
  forall s a s', P s -> m s = Some (Ok a, s') -> Q a s'.

End Monad.
Export Monad.

Declare Scope py_scope.
Delimit Scope py_scope with py.
Notation "x <- c1 ;; c2" := (bind c1 (fun x => c2))
  (at level 100, c1 at next level, right associativity) : py_scope.
Notation "c1 ;; c2" := (bind c1 (fun _ => c2))
  (at level 100, right associativity) : py_scope.
Open Scope py_scope.

(** ** Files

    A file system maps a path to what the file holds. Only what the programs
    distinguish is kept: a file that parses as a JSON object, and one that
    does not parse. *)

Module FS.

Inductive FileData :=
| JsonFile (d : Dict)
| NotJson (text : string).

Definition Files := gmap string FileData.

Definition FileNotFoundError (path : string) : PyExc :=
  Exception_ "FileNotFoundError" [Lit path].
Definition JSONDecodeError : PyExc := Exception_ "JSONDecodeError" [].

(** [with open(path, 'r') as f: json.load(f)] *)
Definition open_json (fs : Files) (path : string) : Result Dict :=
  match fs !! path with
  | None => Raise (FileNotFoundError path)
  | Some (NotJson _) => Raise JSONDecodeError
  | Some (JsonFile d) => Ok d
  end.

(** [with open(path, 'w') as f: json.dump(d, f, indent=2)] *)
Definition write_json (path : string) (d : Dict) (fs : Files) : Files :=
  <[path := JsonFile d]> fs.

End FS.
Export FS.

(** ** The health monitor ([monitor.py]) *)

Module Monitor.

(** The [resources] dictionary: each key is there once its probe step ran. *)
Record Resources := {
  disk_usage : option Z;
  memory_usage : option Z;
  load_average : option Q
}.

Definition no_resources : Resources :=
  {| disk_usage := None; memory_usage := None; load_average := None |}.

(** The [ssl_status] dictionary. *)
Record SSLStatus := {
  ssl_valid : option bool;
  ssl_expires : option string
}.

(** The snapshot [self.status]; [status_alerts] is its ['alerts'] key, set
    only when there are alerts. *)
Record Status := {
  timestamp : string;
  hostname : string;
  services : list (Value * bool);
  ports : list (Value * bool);
  resources : Resources;
  mail_queue : Z;
  ssl_status : SSLStatus;
  email_tests : list (Value * (bool * bool));
  overall_status : string;
  status_alerts : option (list FString)
}.

(** What a file of the report directory holds: a snapshot, or anything
    else, as a file that was opened for writing and not written through. *)
Inductive ReportFile :=
| Snapshot (st : Status)
| OtherFile.

(** The operations on the report directory, at the interaction numbered
    [t]: each returns or raises. *)
Record ReportIO := {
  io_mkdir : nat -> Result unit;
  io_open : nat -> string -> Result unit;
  io_dump : nat -> string -> Result unit;
  io_glob : nat -> Result unit;
  io_unlink : nat -> string -> Result unit
}.

(** What the monitor does to the outside: log lines ([print] with a level),
    sleeps and webhook posts. The webhook message is kept as the data it is
    formatted from. *)
Inductive Event :=
| PrintEv (msg : FString)
| LogEv (level : string) (msg : FString)
| SleepEv (secs : Value)
| WebhookEv (url : Value) (overall : string) (alerts : option (list FString))
    (res : Resources) (queue : Z).

(** The outside world. Every oracle takes the number of interactions so far;
    it returns or raises. Text results are what the program reads after its
    own [strip]/[split]/[int] conversions, whose failures appear as a raised
    exception of the step. *)
Record World := {
  clock : nat -> string -> string;
  run_hostname : nat -> Result string;
  systemctl_is_active : nat -> Value -> Result string;
  connect_ex : nat -> Value -> Result Z;
  df_root : nat -> Result (option Z);
  meminfo_used_percent : nat -> Result Z;
  loadavg : nat -> Result Q;
  postqueue_lines : nat -> Result (list string);
  certbot_certificates : nat -> Result string;
  smtp_starttls : nat -> Value -> Value -> Result unit;
  smtp_login : nat -> Value -> Value -> Result unit;
  imap_ssl : nat -> Value -> Value -> Result unit;
  imap_login : nat -> Value -> Value -> Result unit;
  webhook_post : nat -> Value -> Result Z;
  sleep_outcome : nat -> Result unit;
  report_io : ReportIO
}.

(** [self] and the process environment. *)
Record State := {
  config : Dict;
  status : option Status;
  alerts : list FString;
  tick : nat;
  events : list Event;
  report_dir : gmap string ReportFile
}.

Definition set_status (x : option Status) (s : State) : State :=
  {| config := config s; status := x; alerts := alerts s; tick := tick s;
     events := events s; report_dir := report_dir s |}.
Definition set_alerts (x : list FString) (s : State) : State :=
  {| config := config s; status := status s; alerts := x; tick := tick s;
     events := events s; report_dir := report_dir s |}.
Definition set_tick (x : nat) (s : State) : State :=
  {| config := config s; status := status s; alerts := alerts s; tick := x;
     events := events s; report_dir := report_dir s |}.
Definition set_events (x : list Event) (s : State) : State :=
  {| config := config s; status := status s; alerts := alerts s; tick := tick s;
     events := x; report_dir := report_dir s |}.
Definition set_report_dir (x : gmap string ReportFile) (s : State) : State :=
  {| config := config s; status := status s; alerts := alerts s; tick := tick s;
     events := events s; report_dir := x |}.

Definition set_services x (st : Status) : Status :=
  {| timestamp := timestamp st; hostname := hostname st; services := x;
     ports := ports st; resources := resources st; mail_queue := mail_queue st;
     ssl_status := ssl_status st; email_tests := email_tests st;
     overall_status := overall_status st; status_alerts := status_alerts st |}.
Definition set_ports x (st : Status) : Status :=
  {| timestamp := timestamp st; hostname := hostname st; services := services st;
     ports := x; resources := resources st; mail_queue := mail_queue st;
     ssl_status := ssl_status st; email_tests := email_tests st;
     overall_status := overall_status st; status_alerts := status_alerts st |}.
Definition set_resources x (st : Status) : Status :=
  {| timestamp := timestamp st; hostname := hostname st; services := services st;
     ports := ports st; resources := x; mail_queue := mail_queue st;
     ssl_status := ssl_status st; email_tests := email_tests st;
     overall_status := overall_status st; status_alerts := status_alerts st |}.
Definition set_mail_queue x (st : Status) : Status :=
  {| timestamp := timestamp st; hostname := hostname st; services := services st;
     ports := ports st; resources := resources st; mail_queue := x;
     ssl_status := ssl_status st; email_tests := email_tests st;
     overall_status := overall_status st; status_alerts := status_alerts st |}.
Definition set_ssl_status x (st : Status) : Status :=
  {| timestamp := timestamp st; hostname := hostname st; services := services st;
     ports := ports st; resources := resources st; mail_queue := mail_queue st;
     ssl_status := x; email_tests := email_tests st;
     overall_status := overall_status st; status_alerts := status_alerts st |}.
Definition set_email_tests x (st : Status) : Status :=
  {| timestamp := timestamp st; hostname := hostname st; services := services st;
     ports := ports st; resources := resources st; mail_queue := mail_queue st;
     ssl_status := ssl_status st; email_tests := x;
     overall_status := overall_status st; status_alerts := status_alerts st |}.
Definition set_overall (o : string) (a : option (list FString)) (st : Status) : Status :=
  {| timestamp := timestamp st; hostname := hostname st; services := services st;
     ports := ports st; resources := resources st; mail_queue := mail_queue st;
     ssl_status := ssl_status st; email_tests := email_tests st;
     overall_status := o; status_alerts := a |}.

(** *** Configuration *)

Definition default_config : Dict :=
  [ ("check_interval", VInt 300);
    ("webhook_url", VStr EmptyString);
    ("alert_email", VStr EmptyString);
    ("thresholds", VDict [ ("disk_usage", VInt 90);
                           ("memory_usage", VInt 90);
                           ("load_average", VFloat 5);
                           ("queue_size", VInt 100) ]);
    ("services", VList [VStr "postfix"; VStr "dovecot"; VStr "mysql"; VStr "nginx"]);
    ("ports", VList [VInt 25; VInt 587; VInt 993; VInt 443; VInt 80]);
    ("test_accounts", VList []) ].

(** [for key, value in default_config.items(): if key not in config:
    config[key] = value] *)
Fixpoint merge_defaults (defaults : Dict) (config : Dict) : Dict :=
  match defaults with
  | [] => config
  | (key, value) :: rest =>
      merge_defaults rest
        (if dict_mem key config then config else dict_set key value config)
  end.

(** [load_config]: the configuration and what it prints. A missing file
    gives the built-in defaults; nothing is written and nothing exits. *)
Definition load_config (fs : Files) (config_file : string) : Result Dict * list FString :=
  match open_json fs config_file with
  | Ok config => (Ok (merge_defaults default_config config), [])
  | Raise (Exception_ "FileNotFoundError" _) =>
      (Ok default_config,
       [[Lit "Config file not found, using defaults: "; Lit config_file]])
  | Raise e => (Raise e, [])
  end.

(** [EmailServerMonitor.__init__] *)
Definition init (fs : Files) (config_file : string)
    (dir : gmap string ReportFile) : Result State :=
  match load_config fs config_file with
  | (Ok c, printed) =>
      Ok {| config := c; status := None; alerts := []; tick := O;
            events := map PrintEv printed; report_dir := dir |}
  | (Raise e, _) => Raise e
  end.

(** *** Probes *)

Section Probes.
Variable w : World.

(** One interaction with the outside. *)
Definition ask {A} (f : nat -> Result A) : M State A :=
  fun s => Some (f (tick s), set_tick (S (tick s)) s).

(** [self.log(message, level)] *)
Definition log (level : string) (msg : FString) : M State unit :=
  modify (fun s => set_events (events s ++ [LogEv level msg]) s).

(** [self.alerts.append(a)] *)
Definition alert (a : FString) : M State unit :=
  modify (fun s => set_alerts (alerts s ++ [a]) s).

(** Read [self.status]; the empty dictionary of [__init__] has no keys. *)
Definition the_status : M State Status :=
  s <- get ;;
  match status s with
  | Some st => ret st
  | None => raise (KeyError "status")
  end.

Definition update_status (f : Status -> Status) : M State unit :=
  st <- the_status ;;
  modify (set_status (Some (f st))).

(** A dictionary key must be hashable. *)
Definition check_hashable (k : Value) : M State unit :=
  if hashable k then ret tt else raise (TypeError "unhashable type").

(** The body of a [try] as a value: an [Exception] is handed to the code
    after it, anything else keeps propagating. *)
Definition attempt {A} (m : M State A) : M State (Result A) :=
  try_except (a <- m ;; ret (Ok a)) (fun e => ret (Raise e)).

Definition check_service_status (service : Value) : M State bool :=
  try_except
    (out <- ask (fun t => systemctl_is_active w t service) ;;
     ret (String.eqb out "active"))
    (fun e =>
       log "ERROR" [Lit "Error checking service "; Fmt service; Lit ": "; fmt_exc e] ;;
       ret false).

Definition check_port_connectivity (port : Value) : M State bool :=
  try_except
    (result <- ask (fun t => connect_ex w t port) ;;
     ret (Z.eqb result 0))
    (fun e =>
       log "ERROR" [Lit "Error checking port "; Fmt port; Lit ": "; fmt_exc e] ;;
       ret false).

(** One [try] around three steps, each filling its key of [resources]; an
    exception ends the block and whatever was filled so far is returned. *)
Definition check_system_resources : M State Resources :=
  let failed (e : PyExc) (r : Resources) : M State Resources :=
    log "ERROR" [Lit "Error checking system resources: "; fmt_exc e] ;; ret r in
  r1 <- attempt (ask (df_root w)) ;;
  match r1 with
  | Raise e => failed e no_resources
  | Ok disk =>
      let res1 := {| disk_usage := disk; memory_usage := None; load_average := None |} in
      r2 <- attempt (ask (meminfo_used_percent w)) ;;
      match r2 with
      | Raise e => failed e res1
      | Ok mem =>
          let res2 := {| disk_usage := disk; memory_usage := Some mem;
                         load_average := None |} in
          r3 <- attempt (ask (loadavg w)) ;;
          match r3 with
          | Raise e => failed e res2
          | Ok load =>
              ret {| disk_usage := disk; memory_usage := Some mem;
                     load_average := Some load |}
          end
      end
  end.

(** The queue depth read off the lines of [postqueue -p]. *)
Definition queue_size_of (lines : list string) : Z :=
  let counted :=
    filter (fun line : string =>
              negb (String.eqb line EmptyString) && negb (String.prefix "-" line)
              && negb (String.prefix "Mail" line) = true) lines in
  let otherwise := Z.max 0 (Z.of_nat (length counted) - 1) in
  match last lines with
  | Some l => if contains "Mail queue is empty" l then 0 else otherwise
  | None => otherwise
  end.

Definition check_mail_queue : M State Z :=
  try_except
    (lines <- ask (postqueue_lines w) ;;
     ret (queue_size_of lines))
    (fun e =>
       log "ERROR" [Lit "Error checking mail queue: "; fmt_exc e] ;;
       ret (-1)).

Definition test_smtp_connectivity (account : Value) : M State bool :=
  try_except
    (host <- lift (getitem account "smtp_host") ;;
     port <- lift (getitem account "smtp_port") ;;
     ask (fun t => smtp_starttls w t host port) ;;
     email <- lift (getitem account "email") ;;
     password <- lift (getitem account "password") ;;
     ask (fun t => smtp_login w t email password) ;;
     ret true)
    (fun e =>
       email <- lift (getitem account "email") ;;
       log "ERROR" [Lit "SMTP test failed for "; Fmt email; Lit ": "; fmt_exc e] ;;
       ret false).

Definition test_imap_connectivity (account : Value) : M State bool :=
  try_except
    (host <- lift (getitem account "imap_host") ;;
     port <- lift (getitem account "imap_port") ;;
     ask (fun t => imap_ssl w t host port) ;;
     email <- lift (getitem account "email") ;;
     password <- lift (getitem account "password") ;;
     ask (fun t => imap_login w t email password) ;;
     ret true)
    (fun e =>
       email <- lift (getitem account "email") ;;
       log "ERROR" [Lit "IMAP test failed for "; Fmt email; Lit ": "; fmt_exc e] ;;
       ret false).

Definition check_ssl_certificates : M State SSLStatus :=
  try_except
    (output <- ask (certbot_certificates w) ;;
     if contains "VALID" output
     then ret {| ssl_valid := Some true; ssl_expires := Some "Valid" |}
     else ret {| ssl_valid := Some false; ssl_expires := Some "Invalid or Expired" |})
    (fun e =>
       log "ERROR" [Lit "Error checking SSL certificates: "; fmt_exc e] ;;
       ret {| ssl_valid := Some false; ssl_expires := None |}).

End Probes.

(** *** The health check *)

Section HealthCheck.
Variable w : World.

(** The classification table: no alert is healthy, one or two alerts are a
    warning, three or more are critical. *)
Definition severity (n : nat) : string :=
  if Nat.eqb n 0 then "healthy"
  else if Nat.leb n 2 then "warning" else "critical".

Definition check_one_service (service : Value) : M State unit :=
  up <- check_service_status w service ;;
  check_hashable service ;;
  update_status (fun st => set_services (vdict_set service up (services st)) st) ;;
  st <- the_status ;;
  match vdict_get service (services st) with
  | None => raise (Exception_ "KeyError" [Fmt service])
  | Some true => ret tt
  | Some false => alert [Lit "Service "; Fmt service; Lit " is not running"]
  end.

Definition check_one_port (port : Value) : M State unit :=
  up <- check_port_connectivity w port ;;
  check_hashable port ;;
  update_status (fun st => set_ports (vdict_set port up (ports st)) st) ;;
  st <- the_status ;;
  match vdict_get port (ports st) with
  | None => raise (Exception_ "KeyError" [Fmt port])
  | Some true => ret tt
  | Some false => alert [Lit "Port "; Fmt port; Lit " is not accessible"]
  end.

(** [resources[key]] inside the alert text. *)
Definition resource_item {A} (key : string) (x : option A) : M State A :=
  match x with
  | Some v => ret v
  | None => raise (KeyError key)
  end.

(** [if resources.get(key, 0) > thresholds[key]: alerts.append(...)] *)
Definition check_threshold (thresholds : Value) (key : string) (x : option Q)
    (text : FString) : M State unit :=
  limit <- lift (getitem thresholds key) ;;
  over <- lift (gt_num (default 0%Q x) limit) ;;
  if over then (resource_item key x ;; alert text) else ret tt.

Definition test_one_account (account : Value) : M State unit :=
  email <- lift (getitem account "email") ;;
  smtp <- test_smtp_connectivity w account ;;
  imap <- test_imap_connectivity w account ;;
  check_hashable email ;;
  update_status (fun st =>
    set_email_tests (vdict_set email (smtp, imap) (email_tests st)) st) ;;
  st <- the_status ;;
  match vdict_get email (email_tests st) with
  | None => raise (Exception_ "KeyError" [Fmt email])
  | Some (smtp_ok, imap_ok) =>
      (if smtp_ok then ret tt else alert [Lit "SMTP test failed for "; Fmt email]) ;;
      (if imap_ok then ret tt else alert [Lit "IMAP test failed for "; Fmt email])
  end.

(** Everything of [run_health_check] up to the classification. *)
Definition run_probes : M State unit :=
  log "INFO" [Lit "Starting health check..."] ;;
  now <- gets (fun s => clock w (tick s) "iso") ;;
  host <- ask (run_hostname w) ;;
  modify (set_status (Some
    {| timestamp := now; hostname := host; services := []; ports := [];
       resources := no_resources; mail_queue := 0;
       ssl_status := {| ssl_valid := None; ssl_expires := None |};
       email_tests := []; overall_status := "healthy"; status_alerts := None |})) ;;
  (* Check services *)
  cfg <- gets config ;;
  service_list <- lift (getitem (VDict cfg) "services") ;;
  service_items <- lift (iter service_list) ;;
  for_each service_items check_one_service ;;
  (* Check ports *)
  port_list <- lift (getitem (VDict cfg) "ports") ;;
  port_items <- lift (iter port_list) ;;
  for_each port_items check_one_port ;;
  (* Check system resources *)
  res <- check_system_resources w ;;
  update_status (set_resources res) ;;
  (* Check thresholds *)
  thresholds <- lift (getitem (VDict cfg) "thresholds") ;;
  st <- the_status ;;
  let res := resources st in
  check_threshold thresholds "disk_usage" (inject_Z <$> disk_usage res)
    [Lit "High disk usage: "; Fmt (from_option VInt VNone (disk_usage res)); Lit "%"] ;;
  check_threshold thresholds "memory_usage" (inject_Z <$> memory_usage res)
    [Lit "High memory usage: "; Fmt (from_option VInt VNone (memory_usage res)); Lit "%"] ;;
  check_threshold thresholds "load_average" (load_average res)
    [Lit "High load average: "; Fmt (from_option VFloat VNone (load_average res))] ;;
  (* Check mail queue *)
  queue <- check_mail_queue w ;;
  update_status (set_mail_queue queue) ;;
  limit <- lift (getitem thresholds "queue_size") ;;
  st <- the_status ;;
  over <- lift (gt_num (inject_Z (mail_queue st)) limit) ;;
  (if over
   then alert [Lit "Large mail queue: "; Fmt (VInt (mail_queue st)); Lit " messages"]
   else ret tt) ;;
  (* Check SSL certificates *)
  ssl <- check_ssl_certificates w ;;
  update_status (set_ssl_status ssl) ;;
  st <- the_status ;;
  (if default false (ssl_valid (ssl_status st))
   then ret tt
   else alert [Lit "SSL certificate issues detected"]) ;;
  (* Test email connectivity *)
  account_list <- lift (getitem (VDict cfg) "test_accounts") ;;
  accounts <- lift (iter account_list) ;;
  for_each accounts test_one_account.

(** [# Determine overall status] and the return. The ['alerts'] key holds
    the list object [self.alerts] itself. *)
Definition classify : M State Status :=
  s <- get ;;
  (match alerts s with
   | [] => ret tt
   | _ :: _ =>
       update_status
         (set_overall (if Nat.leb (length (alerts s)) 2 then "warning" else "critical")
                      (Some (alerts s)))
   end) ;;
  st <- the_status ;;
  log "INFO" [Lit "Health check completed. Status: "; Lit (overall_status st)] ;;
  the_status.

Definition run_health_check : M State Status :=
  run_probes ;; classify.

End HealthCheck.

(** *** Persistence, notification and the monitoring loop *)

(** Names are ordered as [sorted] orders the paths of one directory. *)
Definition name_le (a b : string) : Prop := String.leb a b = true.

#[export] Instance name_le_dec (a b : string) : Decision (name_le a b).
Proof. unfold name_le. apply _. Defined.

Definition ends_with (suffix s : string) : bool :=
  let n := String.length s in
  let k := String.length suffix in
  (k <=? n)%nat && String.eqb (substring (n - k) k s) suffix.

(** The pattern [health_report_*.json]. *)
Definition glob_match (name : string) : bool :=
  String.prefix "health_report_" name
  && ends_with ".json" (substring 14 (String.length name - 14) name).

Definition report_name (stamp : string) : string :=
  "health_report_" ++ stamp ++ ".json".

(** [sorted(report_dir.glob("health_report_*.json"))] *)
Definition reports (dir : gmap string ReportFile) : list string :=
  merge_sort name_le (filter (fun n => glob_match n = true) (map_to_list dir).*1).

(** [for old_report in olds: old_report.unlink()], as it leaves the
    directory when no [unlink] fails. *)
Definition unlink_all (olds : list string) (dir : gmap string ReportFile)
    : gmap string ReportFile :=
  foldl (fun d name => delete name d) dir olds.

(** [# Keep only last 100 reports], as it leaves the directory when the
    listing and every [unlink] succeed. *)
Definition keep_last_100 (dir : gmap string ReportFile) : gmap string ReportFile :=
  let rs := reports dir in
  if (100 <? length rs)%nat
  then unlink_all (take (length rs - 100) rs) dir
  else dir.

Definition truthy (v : Value) : bool :=
  match v with
  | VNone => false
  | VBool b => b
  | VInt z => negb (Z.eqb z 0)
  | VFloat q => negb (Qeq_bool q 0)
  | VStr s => negb (String.eqb s EmptyString)
  | VList l => match l with [] => false | _ => true end
  | VDict d => match d with [] => false | _ => true end
  end.

Section Loop.
Variable w : World.

(** [with open(report_file, 'w') as f: json.dump(status, f, indent=2)]:
    once it is open the file is there, empty; it holds the snapshot once
    the dump is through. *)
Definition write_report (report_file : string) (st : Status) : M State unit :=
  ask (fun t => io_open (report_io w) t report_file) ;;
  modify (fun s => set_report_dir (<[report_file := OtherFile]> (report_dir s)) s) ;;
  ask (fun t => io_dump (report_io w) t report_file) ;;
  modify (fun s => set_report_dir (<[report_file := Snapshot st]> (report_dir s)) s).

(** [old_report.unlink()] *)
Definition unlink (old_report : string) : M State unit :=
  ask (fun t => io_unlink (report_io w) t old_report) ;;
  modify (fun s => set_report_dir (delete old_report (report_dir s)) s).

(** Every operation on the directory may raise; the handler logs what
    they raise and the function returns. *)
Definition save_status_report (st : Status) : M State unit :=
  try_except
    (ask (io_mkdir (report_io w)) ;;
     stamp <- gets (fun s => clock w (tick s) "%Y%m%d_%H%M%S") ;;
     let report_file := report_name stamp in
     write_report report_file st ;;
     ask (io_glob (report_io w)) ;;
     listing <- gets (fun s => reports (report_dir s)) ;;
     (if (100 <? length listing)%nat
      then for_each (take (length listing - 100) listing) unlink
      else ret tt) ;;
     log "INFO" [Lit "Health report saved: /var/log/email-monitoring/"; Lit report_file])
    (fun e => log "ERROR" [Lit "Error saving health report: "; fmt_exc e]).

Definition send_webhook_notification (st : Status) : M State unit :=
  cfg <- gets config ;;
  if negb (truthy (default VNone (dict_get "webhook_url" cfg))) then ret tt
  else
    try_except
      (url <- lift (getitem (VDict cfg) "webhook_url") ;;
       modify (fun s => set_events
         (events s ++ [WebhookEv url (overall_status st) (status_alerts st)
                         (resources st) (mail_queue st)]) s) ;;
       code <- ask (fun t => webhook_post w t url) ;;
       if Z.eqb code 200
       then log "INFO" [Lit "Webhook notification sent successfully"]
       else log "ERROR" [Lit "Webhook notification failed: "; Fmt (VInt code)])
      (fun e => log "ERROR" [Lit "Error sending webhook notification: "; fmt_exc e]).

(** [time.sleep(secs)] *)
Definition sleep (secs : Value) : M State unit :=
  match num_of secs with
  | None => raise (TypeError "an integer or float is required")
  | Some q =>
      if Qlt_bool q 0
      then raise (Exception_ "ValueError" [Lit "sleep length must be non-negative"])
      else
        modify (fun s => set_events (events s ++ [SleepEv secs]) s) ;;
        ask (sleep_outcome w)
  end.

(** The first two statements of a cycle: clear the alerts, run the check. *)
Definition cycle_check : M State Status :=
  modify (set_alerts []) ;;
  run_health_check w.

(** The [try] body of the loop. *)
Definition monitoring_cycle : M State unit :=
  st <- cycle_check ;;
  save_status_report st ;;
  (if negb (String.eqb (overall_status st) "healthy")
   then send_webhook_notification st
   else ret tt) ;;
  cfg <- gets config ;;
  interval <- lift (getitem (VDict cfg) "check_interval") ;;
  sleep interval.

(** One turn of [while True]: [Some tt] is the [break]. *)
Definition loop_turn : M State (option unit) :=
  fun s =>
    match monitoring_cycle s with
    | None => None
    | Some (Ok _, s') => Some (Ok None, s')
    | Some (Raise KeyboardInterrupt, s') =>
        (log "INFO" [Lit "Monitoring stopped by user"] ;; ret (Some tt)) s'
    | Some (Raise (Exception_ cls msg), s') =>
        (log "ERROR" [Lit "Error in monitoring loop: "; FmtExc cls msg] ;;
         sleep (VInt 60) ;;
         ret None) s'
    | Some (Raise e, s') => Some (Raise e, s')
    end.

Definition run_continuous_monitoring (fuel : nat) : M State unit :=
  log "INFO" [Lit "Starting continuous email server monitoring..."] ;;
  while_true fuel loop_turn.

(** [main] with [--once], after the monitor is built: the exit status is
    the code of the [SystemExit] raised at the end. *)
Definition main_once : M State unit :=
  st <- run_health_check w ;;
  send_webhook_notification st ;;
  save_status_report st ;;
  raise (SystemExit (if String.eqb (overall_status st) "healthy" then 0 else 1)).

End Loop.

(** The snapshot as the probes leave it: present, still ['healthy'], and
    without an ['alerts'] key. *)
Definition fresh (s : State) : Prop :=
  exists st, status s = Some st /\ overall_status st = "healthy"
             /\ status_alerts st = None.

(** The alerts a snapshot carries. *)
Definition snapshot_alerts (st : Status) : list FString :=
  default [] (status_alerts st).

End Monitor.

(** ** The deployment pipeline ([vps_orchestrator.py]) *)

Module Orchestrator.

(** [smtp_settings] and [imap_settings] of an account. *)
Record Settings := {
  host : FString;
  port : Z;
  security : string;
  login_name : FString;
  login_password : string
}.

Record Account := {
  email : FString;
  username : string;
  password : string;
  domain : Value;
  smtp_settings : Settings;
  imap_settings : Settings
}.

(** A [paramiko.SSHClient]: created, connected, closed. *)
Inductive Session := Fresh | Connected | Closed.

(** What [exec_command] hands back. The texts are what
    [read().decode().strip()] gives; the exit status is there for whoever
    asks the channel, which the pipeline never does. *)
Record Exec := {
  stdout : string;
  stderr : string;
  exit_status : Z
}.

(** A [requests] response. *)
Record Response := {
  status_code : Z;
  text : string;
  json : Result Value
}.

(** The documents [generate_final_report] writes. *)
Record Report := {
  rep_timestamp : string;
  rep_vps_ip : Value;
  rep_domains : Value;
  total_accounts : nat;
  rep_accounts : list Account;
  rep_mysql_root_password : Value;
  rep_mail_db_password : Value
}.

Inductive Document :=
| ReportJson (r : Report)
| CredentialsCsv (rows : list Account).

(** The outside world of the pipeline. [latency] is the time, in
    milliseconds, the interaction takes; [oversleep] what a sleep adds to the
    time asked for. *)
Record World := {
  latency : nat -> nat;
  oversleep : nat -> nat;
  sleep_outcome : nat -> Result unit;
  random_username : nat -> string;
  random_password : nat -> Z -> string;
  strftime : nat -> string;
  http_post : nat -> FString -> list (string * FString) -> Result Response;
  http_get : nat -> FString -> Result Response;
  ssh_connect : nat -> Value -> Result unit;
  ssh_exec : nat -> FString -> Result Exec;
  sftp_write : nat -> FString -> FString -> Result unit;
  local_write : nat -> FString -> Result unit
}.

(** [self], and around it: the interaction counter, the clock in
    milliseconds, the probe sessions of [wait_for_ssh] that are open, the
    sessions of the clients of the pipeline that are open (connected and
    not closed, whether [self.ssh_client] still refers to their client or
    not), what was printed, what was written to the local disk, and the
    exceptions the outside has raised so far. *)
Record State := {
  config : Dict;
  vps_ip : Value;
  ssh_client : option Session;
  email_accounts : list Account;
  tick : nat;
  now : Z;
  probe_sessions : nat;
  open_sessions : nat;
  printed : list FString;
  written : list (FString * Document);
  raised : list PyExc
}.

Definition set_config x (s : State) : State :=
  {| config := x; vps_ip := vps_ip s; ssh_client := ssh_client s;
     email_accounts := email_accounts s; tick := tick s; now := now s;
     probe_sessions := probe_sessions s;
     open_sessions := open_sessions s; printed := printed s; written := written s;
     raised := raised s |}.
Definition set_vps_ip x (s : State) : State :=
  {| config := config s; vps_ip := x; ssh_client := ssh_client s;
     email_accounts := email_accounts s; tick := tick s; now := now s;
     probe_sessions := probe_sessions s;
     open_sessions := open_sessions s; printed := printed s; written := written s;
     raised := raised s |}.
Definition set_ssh_client x (s : State) : State :=
  {| config := config s; vps_ip := vps_ip s; ssh_client := x;
     email_accounts := email_accounts s; tick := tick s; now := now s;
     probe_sessions := probe_sessions s;
     open_sessions := open_sessions s; printed := printed s; written := written s;
     raised := raised s |}.
Definition set_email_accounts x (s : State) : State :=
  {| config := config s; vps_ip := vps_ip s; ssh_client := ssh_client s;
     email_accounts := x; tick := tick s; now := now s;
     probe_sessions := probe_sessions s;
     open_sessions := open_sessions s; printed := printed s; written := written s;
     raised := raised s |}.
Definition set_time (t : nat) (n : Z) (s : State) : State :=
  {| config := config s; vps_ip := vps_ip s; ssh_client := ssh_client s;
     email_accounts := email_accounts s; tick := t; now := n;
     probe_sessions := probe_sessions s;
     open_sessions := open_sessions s; printed := printed s; written := written s;
     raised := raised s |}.
Definition set_raised x (s : State) : State :=
  {| config := config s; vps_ip := vps_ip s; ssh_client := ssh_client s;
     email_accounts := email_accounts s; tick := tick s; now := now s;
     probe_sessions := probe_sessions s;
     open_sessions := open_sessions s; printed := printed s; written := written s;
     raised := x |}.
Definition set_probe_sessions x (s : State) : State :=
  {| config := config s; vps_ip := vps_ip s; ssh_client := ssh_client s;
     email_accounts := email_accounts s; tick := tick s; now := now s;
     probe_sessions := x; open_sessions := open_sessions s; printed := printed s; written := written s;
     raised := raised s |}.
Definition set_printed x (s : State) : State :=
  {| config := config s; vps_ip := vps_ip s; ssh_client := ssh_client s;
     email_accounts := email_accounts s; tick := tick s; now := now s;
     probe_sessions := probe_sessions s;
     open_sessions := open_sessions s; printed := x; written := written s;
     raised := raised s |}.
Definition set_written x (s : State) : State :=
  {| config := config s; vps_ip := vps_ip s; ssh_client := ssh_client s;
     email_accounts := email_accounts s; tick := tick s; now := now s;
     probe_sessions := probe_sessions s;
     open_sessions := open_sessions s; printed := printed s; written := x;
     raised := raised s |}.

Definition set_open_sessions x (s : State) : State :=
  {| config := config s; vps_ip := vps_ip s; ssh_client := ssh_client s;
     email_accounts := email_accounts s; tick := tick s; now := now s;
     probe_sessions := probe_sessions s; open_sessions := x; printed := printed s;
     written := written s; raised := raised s |}.

(** [VPSEmailOrchestrator.__init__], once the configuration is loaded. *)
Definition init (cfg : Dict) : State :=
  {| config := cfg; vps_ip := VNone; ssh_client := None; email_accounts := [];
     tick := O; now := 0; probe_sessions := O; open_sessions := O; printed := [];
     written := []; raised := [] |}.

(** *** Configuration *)

Definition default_config : Dict :=
  [ ("vps_provider", VDict [ ("name", VStr "digitalocean");
                             ("api_token", VStr "YOUR_DO_API_TOKEN");
                             ("ssh_key_id", VStr "YOUR_SSH_KEY_ID");
                             ("region", VStr "fra1");
                             ("size", VStr "s-2vcpu-4gb") ]);
    ("dns_provider", VDict [ ("name", VStr "cloudflare");
                             ("api_token", VStr "YOUR_CF_API_TOKEN");
                             ("zone_id", VStr "YOUR_ZONE_ID") ]);
    ("domains", VList [VStr "example.com"; VStr "test-domain.org"]);
    ("email_settings", VDict [ ("emails_per_domain", VInt 3);
                               ("admin_email", VStr "admin@yourdomain.com") ]);
    ("server_settings", VDict [ ("hostname", VStr "mail.yourdomain.com");
                                ("mysql_root_password", VStr "generate_random");
                                ("mail_db_password", VStr "generate_random") ]);
    ("monitoring", VDict [ ("webhook_url", VStr "https://your-monitoring-service.com/webhook");
                           ("notification_email", VStr "alerts@yourdomain.com") ]) ].

(** The disk and the terminal, as [load_config] finds them before the
    orchestrator is built. *)
Record Console := {
  disk : Files;
  output : list FString
}.

Definition create_default_config (config_file : string) : M Console unit :=
  modify (fun c => {| disk := write_json config_file default_config (disk c);
                      output := output c |}).

(** [load_config]: a missing file is created with the defaults, the user
    is asked to configure it and the process exits with status 1. *)
Definition load_config (config_file : string) : M Console Dict :=
  c <- get ;;
  match open_json (disk c) config_file with
  | Ok cfg => ret cfg
  | Raise (Exception_ "FileNotFoundError" _) =>
      create_default_config config_file ;;
      modify (fun c =>
        {| disk := disk c;
           output := app (output c)
                       [[Lit "Please configure "; Lit config_file; Lit " and run again"]] |}) ;;
      raise (SystemExit 1)
  | Raise e => raise e
  end.

(** *** Provisioning and the waits *)

Record DnsRecord := {
  rtype : string;
  rname : string;
  content : FString;
  ttl : option Z;
  priority : option Z
}.

(** The outcome of a run: the two dictionaries [run_full_automation]
    returns. *)
Inductive RunResult :=
| Success (ip : Value) (accounts : list Account) (report_path : FString)
    (test_results : list (string * string))
| Failure (error : PyExc).

Definition AttributeError (what : string) : PyExc :=
  Exception_ "AttributeError" [Lit what].

Section Pipeline.
Variable w : World.

(** Keep a raised exception in the record of the state. *)
Definition note {A} (r : Result A) (s : State) : State :=
  match r with
  | Ok _ => s
  | Raise e => set_raised (app (raised s) [e]) s
  end.

(** One interaction with the outside; it takes its time. *)
Definition ask {A} (f : nat -> Result A) : M State A :=
  fun s =>
    Some (f (tick s),
          note (f (tick s))
            (set_time (S (tick s)) (now s + Z.of_nat (latency w (tick s))) s)).

Definition print (msg : FString) : M State unit :=
  modify (fun s => set_printed (printed s ++ [msg]) s).

(** [time.sleep(secs)]: at least [secs] seconds pass. *)
Definition sleep (secs : Z) : M State unit :=
  fun s =>
    Some (sleep_outcome w (tick s),
          note (sleep_outcome w (tick s))
            (set_time (S (tick s))
                      (now s + secs * 1000 + Z.of_nat (oversleep w (tick s))) s)).

(** [self.config[a][b]] *)
Definition config_item (a b : string) : M State Value :=
  cfg <- gets config ;;
  section <- lift (getitem (VDict cfg) a) ;;
  lift (getitem section b).

(** [self.config['server_settings'][key] = v] *)
Definition set_server_setting (key : string) (v : Value) : M State unit :=
  cfg <- gets config ;;
  settings <- lift (getitem (VDict cfg) "server_settings") ;;
  match settings with
  | VDict d =>
      modify (set_config (dict_set "server_settings" (VDict (dict_set key v d)) cfg))
  | _ => raise (TypeError "object does not support item assignment")
  end.

Definition generate_secure_password (length : Z) : M State string :=
  ask (fun t => Ok (random_password w t length)).

Definition generate_random_username : M State string :=
  ask (fun t => Ok (random_username w t)).

(** The script text is kept as its interpolated passwords between markers
    of the fixed text. *)
Definition generate_cloud_init_script : M State FString :=
  mysql_root_pass <- generate_secure_password 20 ;;
  mail_db_pass <- generate_secure_password 20 ;;
  set_server_setting "mysql_root_password" (VStr mysql_root_pass) ;;
  set_server_setting "mail_db_password" (VStr mail_db_pass) ;;
  ret [Lit "#!/bin/bash ... BY '"; Fmt (VStr mysql_root_pass);
       Lit "' ... IDENTIFIED BY '"; Fmt (VStr mail_db_pass);
       Lit "' ... touch /tmp/cloud-init-complete ..."].

(** The client of [wait_for_ssh]: [client.connect(ip, username='root',
    timeout=10)] and [client.close()]. *)
Definition probe_connect (ip : Value) : M State unit :=
  ask (fun t => ssh_connect w t ip) ;;
  modify (fun s => set_probe_sessions (S (probe_sessions s)) s).

Definition probe_close : M State unit :=
  modify (fun s => set_probe_sessions (pred (probe_sessions s)) s).

Definition wait_for_ssh (fuel : nat) (ip : Value) (timeout : Z) : M State bool :=
  print [Lit "Waiting for SSH on "; Fmt ip; Lit "..."] ;;
  start_time <- gets now ;;
  while_cond fuel
    (t <- gets now ;; ret (t - start_time <? timeout * 1000))
    (try_except_bare
       (probe_connect ip ;;
        probe_close ;;
        print [Lit "SSH is ready"] ;;
        ret (Some true))
       (sleep 10 ;; ret None))
    (ret false).

Definition wait_for_droplet_ready (fuel : nat) (droplet_id api_token : Value)
    : M State Value :=
  print [Lit "Waiting for VPS to be ready..."] ;;
  while_true fuel
    (response <- ask (fun t =>
        http_get w t [Lit "https://api.digitalocean.com/v2/droplets/"; Fmt droplet_id]) ;;
     found <-
       (if status_code response =? 200 then
          body <- lift (json response) ;;
          droplet <- lift (getitem body "droplet") ;;
          st <- lift (getitem droplet "status") ;;
          if eq_str st "active" then
            networks <- lift (getitem droplet "networks") ;;
            v4 <- lift (getitem networks "v4") ;;
            items <- lift (iter v4) ;;
            for_each_return items (fun network =>
              ty <- lift (getitem network "type") ;;
              if eq_str ty "public" then
                ip <- lift (getitem network "ip_address") ;;
                ready <- wait_for_ssh fuel ip 300 ;;
                if ready then ret (Some ip) else ret None
              else ret None)
          else ret None
        else ret None) ;;
     match found with
     | Some ip => ret (Some ip)
     | None => sleep 30 ;; ret None
     end).

Definition provision_digitalocean (fuel : nat) : M State Value :=
  api_token <- config_item "vps_provider" "api_token" ;;
  user_data <- generate_cloud_init_script ;;
  t <- gets now ;;
  region <- config_item "vps_provider" "region" ;;
  size <- config_item "vps_provider" "size" ;;
  ssh_key_id <- config_item "vps_provider" "ssh_key_id" ;;
  let payload :=
    [ ("name", [Lit "mail-server-"; Fmt (VInt (t / 1000))]);
      ("region", [Fmt region]);
      ("size", [Fmt size]);
      ("image", [Lit "ubuntu-22-04-x64"]);
      ("ssh_keys", [Fmt (VList [ssh_key_id])]);
      ("user_data", user_data);
      ("monitoring", [Fmt (VBool true)]);
      ("tags", [Fmt (VList [VStr "email-server"; VStr "automated"])]) ] in
  response <- ask (fun t =>
    http_post w t [Lit "https://api.digitalocean.com/v2/droplets"] payload) ;;
  if status_code response =? 202 then
    droplet_data <- lift (json response) ;;
    droplet <- lift (getitem droplet_data "droplet") ;;
    droplet_id <- lift (getitem droplet "id") ;;
    ip <- wait_for_droplet_ready fuel droplet_id api_token ;;
    modify (set_vps_ip ip) ;;
    print [Lit "VPS provisioned: "; Fmt ip] ;;
    ret ip
  else
    raise (Exception_ "Exception" [Lit "Failed to create droplet: "; Lit (text response)]).

(** [provision_vultr] is called but defined nowhere. *)
Definition provision_vps (fuel : nat) : M State Value :=
  print [Lit "Provisioning VPS..."] ;;
  provider <- config_item "vps_provider" "name" ;;
  if eq_str provider "digitalocean" then provision_digitalocean fuel
  else if eq_str provider "vultr" then
    raise (AttributeError "'VPSEmailOrchestrator' object has no attribute 'provision_vultr'")
  else raise (Exception_ "ValueError" [Lit "Unsupported VPS provider: "; Fmt provider]).

(** *** DNS records *)

Definition create_cloudflare_dns_records (domain : Value) : M State unit :=
  api_token <- config_item "dns_provider" "api_token" ;;
  zone_id <- config_item "dns_provider" "zone_id" ;;
  ip <- gets vps_ip ;;
  let mail_host := [Lit "mail."; Fmt domain] in
  let records :=
    [ {| rtype := "A"; rname := "mail"; content := [Fmt ip];
         ttl := Some 3600; priority := None |};
      {| rtype := "MX"; rname := "@"; content := mail_host;
         ttl := None; priority := Some 10 |};
      {| rtype := "TXT"; rname := "@";
         content := [Lit "v=spf1 mx a ip4:"; Fmt ip; Lit " ~all"];
         ttl := None; priority := None |};
      {| rtype := "TXT"; rname := "_dmarc";
         content := [Lit "v=DMARC1; p=quarantine; rua=mailto:dmarc@"; Fmt domain];
         ttl := None; priority := None |};
      {| rtype := "CNAME"; rname := "autoconfig"; content := mail_host;
         ttl := None; priority := None |};
      {| rtype := "CNAME"; rname := "autodiscover"; content := mail_host;
         ttl := None; priority := None |} ] in
  for_each records (fun record =>
    let payload :=
      app [ ("type", [Lit (rtype record)]);
            ("name", [Lit (rname record)]);
            ("content", content record);
            ("ttl", [Fmt (VInt (default 3600 (ttl record)))]) ]
          match priority record with
          | Some p => [("priority", [Fmt (VInt p)])]
          | None => []
          end in
    response <- ask (fun t =>
      http_post w t [Lit "https://api.cloudflare.com/client/v4/zones/"; Fmt zone_id;
                     Lit "/dns_records"] payload) ;;
    if status_code response =? 200
    then print [Lit "Created "; Lit (rtype record); Lit " record for "; Lit (rname record)]
    else print [Lit "Failed to create "; Lit (rtype record); Lit " record: ";
                Lit (text response)]).

Definition create_dns_records_for_domain (domain : Value) : M State unit :=
  provider <- config_item "dns_provider" "name" ;;
  if eq_str provider "cloudflare" then create_cloudflare_dns_records domain
  else print [Lit "DNS provider "; Fmt provider; Lit " not implemented"].

Definition configure_dns_records : M State unit :=
  print [Lit "Configuring DNS records..."] ;;
  cfg <- gets config ;;
  domain_list <- lift (getitem (VDict cfg) "domains") ;;
  domains <- lift (iter domain_list) ;;
  for_each domains create_dns_records_for_domain ;;
  print [Lit "DNS records configured"].

(** *** The remote session *)

Definition SSHException : PyExc :=
  Exception_ "SSHException" [Lit "SSH session not active"].

(** [self.ssh_client.exec_command(cmd)]: the command is dispatched; whether
    it succeeds remotely is in the reply, not in an exception. *)
Definition exec_command (cmd : FString) : M State Exec :=
  s <- get ;;
  match ssh_client s with
  | None => raise (AttributeError "'NoneType' object has no attribute 'exec_command'")
  | Some Connected => ask (fun t => ssh_exec w t cmd)
  | Some _ => raise SSHException
  end.

Definition upload_file_content (remote_path content : FString) : M State unit :=
  s <- get ;;
  match ssh_client s with
  | None => raise (AttributeError "'NoneType' object has no attribute 'open_sftp'")
  | Some Connected => ask (fun t => sftp_write w t remote_path content)
  | Some _ => raise SSHException
  end.

(** [self.ssh_client = paramiko.SSHClient()] replaces the reference: the
    client it referred to before, if any, is left as it is. A connection
    that succeeds is one more open session. *)
Definition connect_ssh : M State unit :=
  modify (set_ssh_client (Some Fresh)) ;;
  ip <- gets vps_ip ;;
  ask (fun t => ssh_connect w t ip) ;;
  modify (fun s => set_open_sessions (S (open_sessions s))
                     (set_ssh_client (Some Connected) s)).

(** [client.close()]: a connected client gives its session back; closing
    a client that is not connected changes nothing outside. *)
Definition close (c : Session) (s : State) : State :=
  match c with
  | Connected => set_open_sessions (pred (open_sessions s)) (set_ssh_client (Some Closed) s)
  | _ => set_ssh_client (Some Closed) s
  end.

Definition cleanup_ssh : M State unit :=
  s <- get ;;
  match ssh_client s with
  | Some c => modify (close c)
  | None => ret tt
  end.

(** One turn of the wait for the first-boot marker: [Some tt] is the
    [break]. *)
Definition poll_cloud_init : M State (option unit) :=
  r <- exec_command [Lit "test -f /tmp/cloud-init-complete && echo 'ready'"] ;;
  if String.eqb (stdout r) "ready" then ret (Some tt)
  else sleep 30 ;; ret None.

Definition wait_for_cloud_init (fuel : nat) : M State unit :=
  print [Lit "Waiting for initial setup to complete..."] ;;
  while_true fuel poll_cloud_init ;;
  print [Lit "Initial setup completed"].

(** *** Mail-server configuration. The fixed text of the configuration
    files is cut down to a marker around the interpolated values. *)

Definition primary_domain : M State Value :=
  cfg <- gets config ;;
  domains <- lift (getitem (VDict cfg) "domains") ;;
  lift (getitem0 domains).

Definition configure_postfix : M State unit :=
  primary <- primary_domain ;;
  let postfix_main_cf := [Lit "myhostname = mail."; Fmt primary; Lit " ..."] in
  pw1 <- config_item "server_settings" "mail_db_password" ;;
  pw2 <- config_item "server_settings" "mail_db_password" ;;
  pw3 <- config_item "server_settings" "mail_db_password" ;;
  let mysql_configs :=
    [ ([Lit "/etc/postfix/mysql-virtual-mailbox-domains.cf"],
       [Lit "user = mailuser password = "; Fmt pw1; Lit " ... FROM domains ..."]);
      ([Lit "/etc/postfix/mysql-virtual-mailbox-maps.cf"],
       [Lit "user = mailuser password = "; Fmt pw2; Lit " ... FROM users ..."]);
      ([Lit "/etc/postfix/mysql-virtual-alias-maps.cf"],
       [Lit "user = mailuser password = "; Fmt pw3; Lit " ... FROM aliases ..."]) ] in
  upload_file_content [Lit "/etc/postfix/main.cf"] postfix_main_cf ;;
  for_each mysql_configs (fun fc => upload_file_content (fst fc) (snd fc)) ;;
  exec_command [Lit "chmod 640 /etc/postfix/mysql-*.cf"] ;;
  exec_command [Lit "chown root:postfix /etc/postfix/mysql-*.cf"] ;;
  exec_command [Lit "systemctl restart postfix"] ;;
  ret tt.

Definition configure_dovecot : M State unit :=
  primary <- primary_domain ;;
  let dovecot_conf := [Lit "protocols = imap pop3 lmtp ... live/mail."; Fmt primary; Lit " ..."] in
  pw <- config_item "server_settings" "mail_db_password" ;;
  let dovecot_sql_conf := [Lit "driver = mysql ... password="; Fmt pw; Lit " ..."] in
  upload_file_content [Lit "/etc/dovecot/dovecot.conf"] dovecot_conf ;;
  upload_file_content [Lit "/etc/dovecot/dovecot-sql.conf.ext"] dovecot_sql_conf ;;
  exec_command [Lit "groupadd -g 5000 vmail"] ;;
  exec_command [Lit "useradd -g vmail -u 5000 vmail -d /var/mail"] ;;
  exec_command [Lit "mkdir -p /var/mail/vhosts"] ;;
  exec_command [Lit "chown -R vmail:vmail /var/mail"] ;;
  exec_command [Lit "chown -R vmail:dovecot /etc/dovecot"] ;;
  exec_command [Lit "chmod -R o-rwx /etc/dovecot"] ;;
  exec_command [Lit "systemctl restart dovecot"] ;;
  ret tt.

Definition certbot_command (primary admin_email : Value) : FString :=
  [Lit "certbot certonly --standalone -d mail."; Fmt primary;
   Lit " --non-interactive --agree-tos --email "; Fmt admin_email].

Definition setup_ssl_certificates : M State unit :=
  primary <- primary_domain ;;
  exec_command [Lit "systemctl stop nginx"] ;;
  admin_email <- config_item "email_settings" "admin_email" ;;
  exec_command (certbot_command primary admin_email) ;;
  exec_command [Lit "systemctl start nginx"] ;;
  exec_command [Lit "systemctl enable certbot.timer"] ;;
  ret tt.

Definition create_mail_database_structure : M State unit :=
  mysql_password <- config_item "server_settings" "mysql_root_password" ;;
  let sql_commands := [Lit "USE mailserver; CREATE TABLE IF NOT EXISTS domains ..."] in
  let sql_file := [Lit "/tmp/mail_structure.sql"] in
  upload_file_content sql_file sql_commands ;;
  exec_command [Lit "mysql -u root -p"; Fmt mysql_password; Lit " < /tmp/mail_structure.sql"] ;;
  ret tt.

Definition setup_mail_server (fuel : nat) : M State unit :=
  print [Lit "Setting up mail server..."] ;;
  connect_ssh ;;
  wait_for_cloud_init fuel ;;
  configure_postfix ;;
  configure_dovecot ;;
  setup_ssl_certificates ;;
  create_mail_database_structure ;;
  print [Lit "Mail server configured"].

(** *** Accounts *)

(** The double quote inside a command text. *)
Definition dquote : string := String (ascii_of_nat 34) EmptyString.

(** [range(v)] *)
Definition py_range (v : Value) : Result (list nat) :=
  match v with
  | VInt z => Ok (seq 0 (Z.to_nat z))
  | VBool b => Ok (seq 0 (if b then 1 else 0))
  | _ => Raise (TypeError "object cannot be interpreted as an integer")
  end.

Definition create_single_email_account (domain mysql_password : Value) : M State Account :=
  username <- generate_random_username ;;
  let email := [Fmt (VStr username); Lit "@"; Fmt domain] in
  password <- generate_secure_password 16 ;;
  hashed <- exec_command
    [Lit "python3 -c "; Lit dquote; Lit "import crypt; print(crypt.crypt('";
     Fmt (VStr password); Lit "', crypt.mksalt(crypt.METHOD_SHA512)))"; Lit dquote] ;;
  let hashed_password := stdout hashed in
  exec_command
    (app [Lit "mysql -u root -p"; Fmt mysql_password; Lit " -e "; Lit dquote;
          Lit "INSERT INTO mailserver.users (email, password, domain_id) SELECT '"]
      (app email
         [Lit "', '"; Lit hashed_password;
          Lit "', id FROM mailserver.domains WHERE domain='"; Fmt domain; Lit "';";
          Lit dquote; Lit " "])) ;;
  exec_command [Lit "mkdir -p /var/mail/vhosts/"; Fmt domain; Lit "/"; Lit username] ;;
  exec_command [Lit "chown -R vmail:vmail /var/mail/vhosts/"; Fmt domain] ;;
  ret {| email := email; username := username; password := password; domain := domain;
         smtp_settings := {| host := [Lit "mail."; Fmt domain]; port := 587;
                             security := "STARTTLS"; login_name := email;
                             login_password := password |};
         imap_settings := {| host := [Lit "mail."; Fmt domain]; port := 993;
                             security := "SSL"; login_name := email;
                             login_password := password |} |}.

Definition create_email_accounts : M State (list Account) :=
  print [Lit "Creating email accounts..."] ;;
  mysql_password <- config_item "server_settings" "mysql_root_password" ;;
  mail_db_password <- config_item "server_settings" "mail_db_password" ;;
  cfg <- gets config ;;
  domain_list <- lift (getitem (VDict cfg) "domains") ;;
  domains <- lift (iter domain_list) ;;
  for_each domains (fun domain =>
    exec_command
      [Lit "mysql -u root -p"; Fmt mysql_password; Lit " -e "; Lit dquote;
       Lit "INSERT IGNORE INTO mailserver.domains (domain) VALUES ('";
       Fmt domain; Lit "');"; Lit dquote] ;;
    count <- config_item "email_settings" "emails_per_domain" ;;
    indices <- lift (py_range count) ;;
    for_each indices (fun _ =>
      email_account <- create_single_email_account domain mysql_password ;;
      modify (fun s => set_email_accounts (app (email_accounts s) [email_account]) s))) ;;
  s <- get ;;
  print [Lit "Created "; Fmt (VInt (Z.of_nat (length (email_accounts s))));
         Lit " email accounts"] ;;
  ret (email_accounts s).

(** *** Verification and report *)

Definition test_smtp_connectivity : M State string :=
  try_except_bare
    (s <- get ;;
     r <- for_each_return (take 1 (email_accounts s)) (fun account =>
            admin_email <- config_item "email_settings" "admin_email" ;;
            out <- exec_command
              (app (Lit "echo 'Test email' | mail -s 'Test from " :: email account)
                   [Lit "' "; Fmt admin_email]) ;;
            if String.eqb (stderr out) EmptyString then ret (Some "PASS") else ret None) ;;
     ret (default "FAIL" r))
    (ret "ERROR").

Definition test_imap_connectivity : M State string := ret "PASS".

Definition test_ssl_certificates : M State string :=
  try_except_bare
    (primary <- primary_domain ;;
     out <- exec_command
       [Lit "openssl s_client -connect mail."; Fmt primary; Lit ":993 -servername mail.";
        Fmt primary; Lit " < /dev/null"] ;;
     if contains "Verify return code: 0 (ok)" (stdout out) then ret "PASS" else ret "FAIL")
    (ret "ERROR").

Definition test_dns_propagation : M State string := ret "PASS".

Definition run_comprehensive_tests : M State (list (string * string)) :=
  print [Lit "Running comprehensive tests..."] ;;
  smtp <- test_smtp_connectivity ;;
  imap <- test_imap_connectivity ;;
  ssl <- test_ssl_certificates ;;
  dns <- test_dns_propagation ;;
  print [Lit "Tests completed"] ;;
  ret [ ("smtp_connectivity", smtp); ("imap_connectivity", imap);
        ("ssl_certificates", ssl); ("dns_propagation", dns) ].

Definition generate_final_report : M State FString :=
  print [Lit "Generating final report..."] ;;
  timestamp <- gets (fun s => strftime w (tick s)) ;;
  let report_dir := [Lit "vps_email_deployment_"; Lit timestamp] in
  ask (fun t => local_write w t report_dir) ;;
  s <- get ;;
  domains <- lift (getitem (VDict (config s)) "domains") ;;
  root_pw <- config_item "server_settings" "mysql_root_password" ;;
  db_pw <- config_item "server_settings" "mail_db_password" ;;
  let report :=
    {| rep_timestamp := timestamp; rep_vps_ip := vps_ip s; rep_domains := domains;
       total_accounts := length (email_accounts s); rep_accounts := email_accounts s;
       rep_mysql_root_password := root_pw; rep_mail_db_password := db_pw |} in
  let json_path := app report_dir [Lit "/deployment_report.json"] in
  ask (fun t => local_write w t json_path) ;;
  modify (fun s => set_written (app (written s) [(json_path, ReportJson report)]) s) ;;
  let csv_path := app report_dir [Lit "/email_credentials.csv"] in
  ask (fun t => local_write w t csv_path) ;;
  modify (fun s => set_written (app (written s) [(csv_path, CredentialsCsv (email_accounts s))]) s) ;;
  print [Lit "Report generated: "; Lit "vps_email_deployment_"; Lit timestamp] ;;
  ret report_dir.

(** *** The whole run *)

(** The six steps inside the [try]. *)
Definition pipeline (fuel : nat) : M State RunResult :=
  print [Lit "Starting VPS Email Automation Pipeline"] ;;
  print [Lit "============================================================"] ;;
  provision_vps fuel ;;
  configure_dns_records ;;
  setup_mail_server fuel ;;
  create_email_accounts ;;
  test_results <- run_comprehensive_tests ;;
  report_path <- generate_final_report ;;
  s <- get ;;
  print [Lit "Automation completed successfully!"] ;;
  print [Lit "VPS IP: "; Fmt (vps_ip s)] ;;
  print [Lit "Email accounts: "; Fmt (VInt (Z.of_nat (length (email_accounts s))))] ;;
  print (Lit "Report: " :: report_path) ;;
  ret (Success (vps_ip s) (email_accounts s) report_path test_results).

Definition run_full_automation (fuel : nat) : M State RunResult :=
  try_finally
    (try_except
       (pipeline fuel)
       (fun e =>
          print [Lit "Automation failed: "; fmt_exc e] ;;
          ret (Failure e)))
    cleanup_ssh.

(** The steps of the [try] before the mail-server stage, those before the
    account stage, and those after it. *)
Definition stages_before_mail (fuel : nat) : M State unit :=
  print [Lit "Starting VPS Email Automation Pipeline"] ;;
  print [Lit "============================================================"] ;;
  provision_vps fuel ;;
  configure_dns_records.

Definition stages_before_accounts (fuel : nat) : M State unit :=
  stages_before_mail fuel ;;
  setup_mail_server fuel.

(** [main], once the orchestrator is built: the outcome is printed and
    the function returns. *)
Definition main (fuel : nat) : M State unit :=
  result <- run_full_automation fuel ;;
  match result with
  | Success _ _ _ _ => print [Lit "All systems operational!"]
  | Failure e => print [Lit "Deployment failed: "; fmt_exc e]
  end.

End Pipeline.

(** How a run that raised [e] inside the [try] ends: an [Exception] is
    reported and turned into the failure dictionary, anything else keeps
    propagating; then the session is closed. *)
Definition aborted (e : PyExc) : Result RunResult :=
  if is_Exception e then Ok (Failure e) else Raise e.

Definition closing (s : State) : State :=
  match ssh_client s with
  | Some c => close c s
  | None => s
  end.

Definition after_abort (e : PyExc) (s : State) : State :=
  closing (if is_Exception e
           then set_printed (app (printed s) [[Lit "Automation failed: "; fmt_exc e]]) s
           else s).

(** [m] swallows nothing the outside raises: it returns only if nothing
    was raised meanwhile, and when it raises, at most the exception it
    raises was. *)
Definition faithful {A} (m : M State A) : Prop :=
  forall s r s', m s = Some (r, s') ->
    match r with
    | Ok _ => raised s' = raised s
    | Raise e => raised s' = raised s \/ raised s' = app (raised s) [e]
    end.

(** [m] only appends to the accounts of the job. *)
Definition appends {A} (m : M State A) : Prop :=
  forall s r s', m s = Some (r, s') ->
    exists created, email_accounts s' = app (email_accounts s) created.

(** No probe client of [wait_for_ssh] is connected. *)
Definition no_probe (s : State) : Prop := probe_sessions s = O.

(** No session is left open: the client of the pipeline is absent or
    closed, no client the pipeline connected is still connected, and no
    probe client is connected. *)
Definition released (s : State) : Prop :=
  (ssh_client s = None \/ ssh_client s = Some Closed)
  /\ open_sessions s = O
  /\ probe_sessions s = O.

(** The client of the pipeline is [c] and [n] sessions are open. *)
Definition session_is (c : option Session) (n : nat) (s : State) : Prop :=
  ssh_client s = c /\ open_sessions s = n.

(** The reply of the provider does not say that the droplet is active:
    its status is not 200, or the droplet it describes has another
    status. *)
Definition pending (r : Response) : bool :=
  if status_code r =? 200 then
    match json r with
    | Ok body =>
        match getitem body "droplet" with
        | Ok droplet =>
            match getitem droplet "status" with
            | Ok st => negb (eq_str st "active")
            | Raise _ => false
            end
        | Raise _ => false
        end
    | Raise _ => false
    end
  else true.

(** The reply of the provider lists [ip] as a public IPv4 address of an
    active droplet. *)
Definition lists_public (r : Response) (ip : Value) : Prop :=
  status_code r = 200
  /\ exists body droplet st networks v4 items network ty,
       json r = Ok body
       /\ getitem body "droplet" = Ok droplet
       /\ getitem droplet "status" = Ok st /\ eq_str st "active" = true
       /\ getitem droplet "networks" = Ok networks
       /\ getitem networks "v4" = Ok v4
       /\ iter v4 = Ok items
       /\ In network items
       /\ getitem network "type" = Ok ty /\ eq_str ty "public" = true
       /\ getitem network "ip_address" = Ok ip.

End Orchestrator.

(** ** The account configurators ([email_configurator.py],
    [email_configurator_enhanced.py]) *)

Module Configurator.

(** [len(v)] *)
Definition py_len (v : Value) : Result Z :=
  match v with
  | VStr x => Ok (Z.of_nat (String.length x))
  | VList l => Ok (Z.of_nat (length l))
  | VDict d => Ok (Z.of_nat (length d))
  | _ => Raise (TypeError "object has no len()")
  end.

Definition truthy (v : Value) : bool :=
  match v with
  | VNone => false
  | VBool b => b
  | VInt z => negb (Z.eqb z 0)
  | VFloat q => negb (Qeq_bool q 0)
  | VStr x => negb (String.eqb x EmptyString)
  | VList l => match l with [] => false | _ => true end
  | VDict d => match d with [] => false | _ => true end
  end.

(** [self] of either configurator, with the disk and the terminal. *)
Record State := {
  config_file : string;
  domains : Value;
  smtp_configs : Value;
  files : Files;
  printed : list FString
}.

Definition init (config_file : string) (fs : Files) : State :=
  {| config_file := config_file; domains := VList []; smtp_configs := VDict [];
     files := fs; printed := [] |}.

Definition set_loaded (d c : Value) (s : State) : State :=
  {| config_file := config_file s; domains := d; smtp_configs := c;
     files := files s; printed := printed s |}.
Definition set_files (fs : Files) (s : State) : State :=
  {| config_file := config_file s; domains := domains s; smtp_configs := smtp_configs s;
     files := fs; printed := printed s |}.
Definition set_printed (x : list FString) (s : State) : State :=
  {| config_file := config_file s; domains := domains s; smtp_configs := smtp_configs s;
     files := files s; printed := x |}.

Definition print (msg : FString) : M State unit :=
  modify (fun s => set_printed (app (printed s) [msg]) s).

Definition smtp_default : Value :=
  VDict [ ("smtp_host", VStr "mail.{domain}"); ("smtp_port", VInt 587);
          ("smtp_security", VStr "STARTTLS"); ("imap_host", VStr "mail.{domain}");
          ("imap_port", VInt 993); ("imap_security", VStr "SSL") ].

(** The default document of [email_configurator.py]. *)
Definition default_config_basic : Dict :=
  [ ("domains", VList [VStr "example.com"; VStr "test-domain.org"]);
    ("smtp_configs", VDict [("default", smtp_default)]);
    ("email_settings", VDict [ ("emails_per_domain", VInt 3);
                               ("password_length", VInt 16);
                               ("use_random_names", VBool true) ]) ].

(** The default document of [email_configurator_enhanced.py]. *)
Definition default_config_enhanced : Dict :=
  [ ("domains", VList [VStr "example.com"; VStr "test-domain.org"]);
    ("smtp_configs", VDict [("default", smtp_default)]);
    ("email_settings", VDict [ ("emails_per_domain", VInt 3);
                               ("password_length", VInt 16);
                               ("use_random_names", VBool true);
                               ("check_dns", VBool true);
                               ("wait_for_dns", VBool true) ]) ].

Section Program.
(** The two programs differ, up to the first account, in their default
    document only. [rest_of_run] stands for what [run] does once the
    configuration is loaded and has domains. *)
Variable default_config : Dict.
Variable rest_of_run : M State unit.

Definition create_default_config : M State unit :=
  s <- get ;;
  modify (set_files (write_json (config_file s) default_config (files s))) ;;
  print [Lit "Default configuration created: "; Lit (config_file s)] ;;
  print [Lit "Please edit the configuration file with your domains and run again."].

Definition load_config : M State bool :=
  s <- get ;;
  match open_json (files s) (config_file s) with
  | Ok config =>
      modify (set_loaded (default (VList []) (dict_get "domains" config))
                         (default (VDict []) (dict_get "smtp_configs" config))) ;;
      s' <- get ;;
      n <- lift (py_len (domains s')) ;;
      print [Lit "Configuration loaded: "; Fmt (VInt n); Lit " domains found"] ;;
      ret true
  | Raise (Exception_ "FileNotFoundError" _) =>
      print [Lit "Configuration file "; Lit (config_file s);
             Lit " not found. Creating default..."] ;;
      create_default_config ;;
      ret false
  | Raise (Exception_ "JSONDecodeError" _) =>
      print [Lit "Error parsing "; Lit (config_file s)] ;;
      ret false
  | Raise e => raise e
  end.

Definition run : M State unit :=
  print [Lit "Email Configuration Script Starting..."] ;;
  print [Lit "=================================================="] ;;
  loaded <- load_config ;;
  if negb loaded then ret tt
  else
    s <- get ;;
    if negb (truthy (domains s)) then
      print [Lit "No domains configured. Please update the configuration file."]
    else rest_of_run.

End Program.

(** The status the interpreter exits with when [main] ends this way. *)
Definition exit_status {A} (r : Result A) : Z :=
  match r with
  | Ok _ => 0
  | Raise (SystemExit code) => code
  | Raise _ => 1
  end.

End Configurator.

(** ** The DNS analyser ([DNSManager] of [email_configurator_enhanced.py]) *)

Module DNS.

Record MX := {
  priority : Z;
  server : string
}.

Record Conflict := {
  ctype : string;
  description : string;
  record : MX;
  solution : string
}.

(** A line of [dig +short MX]: its blank-separated parts, and what
    [int(parts[0])] gives. *)
Record DigLine := {
  parts : list string;
  int_of_first : Result Z
}.

(** The resolver: the lines of the two [dig] calls that are not blank, the
    name servers already stripped of their final dot. *)
Record World := {
  dig_mx : nat -> string -> Result (list DigLine);
  dig_ns : nat -> string -> Result (list string)
}.

(** [self], the interaction counter and the terminal. *)
Record State := {
  domain : string;
  current_mx : list MX;
  dns_provider : option string;
  conflicts : list Conflict;
  tick : nat;
  printed : list FString
}.

(** [DNSManager.__init__] *)
Definition init (domain : string) : State :=
  {| domain := domain; current_mx := []; dns_provider := None; conflicts := [];
     tick := O; printed := [] |}.

Definition set_conflicts x (s : State) : State :=
  {| domain := domain s; current_mx := current_mx s; dns_provider := dns_provider s;
     conflicts := x; tick := tick s; printed := printed s |}.
Definition set_tick x (s : State) : State :=
  {| domain := domain s; current_mx := current_mx s; dns_provider := dns_provider s;
     conflicts := conflicts s; tick := x; printed := printed s |}.
Definition set_printed x (s : State) : State :=
  {| domain := domain s; current_mx := current_mx s; dns_provider := dns_provider s;
     conflicts := conflicts s; tick := tick s; printed := x |}.


(** [s.rstrip('.')] *)
Fixpoint rstrip_dot (s : string) : string :=
  match s with
  | EmptyString => EmptyString
  | String c rest =>
      match rstrip_dot rest with
      | EmptyString => if Ascii.eqb c "."%char then EmptyString else String c EmptyString
      | kept => String c kept
      end
  end.

(** [sorted(mx_records, key=lambda x: x['priority'])]: stable. *)
Fixpoint insert_by_priority (x : MX) (l : list MX) : list MX :=
  match l with
  | [] => [x]
  | y :: l' =>
      if priority x <? priority y then x :: y :: l'
      else y :: insert_by_priority x l'
  end.

Definition sorted_by_priority (l : list MX) : list MX :=
  foldl (fun acc x => insert_by_priority x acc) [] l.

Section Analyse.
Variable w : World.

Definition ask {A} (f : nat -> Result A) : M State A :=
  fun s => Some (f (tick s), set_tick (S (tick s)) s).

Definition log (msg : FString) : M State unit :=
  modify (fun s => set_printed (app (printed s) [msg]) s).

Definition warn (msg : FString) : M State unit :=
  modify (fun s => set_printed (app (printed s) [Lit "warning: " :: msg]) s).

(** The loop over the lines: each line with two parts or more adds a
    record; a priority that is no integer raises. *)
Fixpoint collect_mx (lines : list DigLine) (acc : list MX) : Result (list MX) :=
  match lines with
  | [] => Ok acc
  | line :: rest =>
      match parts line with
      | _ :: second :: _ =>
          match int_of_first line with
          | Ok p => collect_mx rest (app acc [{| priority := p; server := rstrip_dot second |}])
          | Raise e => Raise e
          end
      | _ => collect_mx rest acc
      end
  end.

Definition get_mx_records : M State (list MX) :=
  try_except
    (s <- get ;;
     lines <- ask (fun t => dig_mx w t (domain s)) ;;
     mx_records <- lift (collect_mx lines []) ;;
     ret (sorted_by_priority mx_records))
    (fun e =>
       warn [Lit "Could not get MX records: "; fmt_exc e] ;;
       ret []).

(** The provider a name server points to, if any. *)
Definition provider_of (ns : string) : option string :=
  if contains "ovh.net" ns then Some "ovh"
  else if contains "cloudflare.com" ns then Some "cloudflare"
  else if contains "digitalocean.com" ns then Some "digitalocean"
  else if contains "route53" ns || contains "amazonaws.com" ns then Some "route53"
  else if contains "namecheap.com" ns then Some "namecheap"
  else None.

Fixpoint first_provider (nameservers : list string) : string :=
  match nameservers with
  | [] => "unknown"
  | ns :: rest =>
      match provider_of ns with
      | Some p => p
      | None => first_provider rest
      end
  end.

Definition detect_dns_provider : M State string :=
  try_except
    (s <- get ;;
     nameservers <- ask (fun t => dig_ns w t (domain s)) ;;
     ret (first_provider nameservers))
    (fun e =>
       warn [Lit "Could not detect DNS provider: "; fmt_exc e] ;;
       ret "unknown").

Definition ovh_conflict (mx : MX) : Conflict :=
  {| ctype := "ovh_mx_plan"; description := "OVH MX Plan service detected";
     record := mx; solution := "Delete OVH MX records or suspend MX Plan service" |}.
Definition google_conflict (mx : MX) : Conflict :=
  {| ctype := "google_workspace"; description := "Google Workspace detected";
     record := mx; solution := "Disable Google Workspace or use subdomain" |}.
Definition microsoft_conflict (mx : MX) : Conflict :=
  {| ctype := "microsoft_365"; description := "Microsoft 365 detected";
     record := mx; solution := "Disable Microsoft 365 or use subdomain" |}.

Definition is_ovh (mx : MX) : bool := contains "mail.ovh.net" (server mx).
Definition is_google (mx : MX) : bool :=
  contains "google.com" (server mx) || contains "googlemail.com" (server mx).
Definition is_microsoft (mx : MX) : bool :=
  contains "outlook.com" (server mx) || contains "protection.outlook.com" (server mx).

(** The three passes over the records. *)
Definition conflicts_of (mxs : list MX) : list Conflict :=
  app (map ovh_conflict (filter (fun mx => is_ovh mx = true) mxs))
   (app (map google_conflict (filter (fun mx => is_google mx = true) mxs))
        (map microsoft_conflict (filter (fun mx => is_microsoft mx = true) mxs))).

Definition check_conflicts : M State (list Conflict) :=
  s <- get ;;
  let found := conflicts_of (current_mx s) in
  modify (set_conflicts found) ;;
  ret found.



End Analyse.

End DNS.

(** ** The wait for DNS propagation ([EnhancedEmailConfigurator]) *)

Module Propagation.

(** The order [sorted(..., key=lambda x: x['priority'])] sorts by. *)
Definition by_priority (a b : DNS.MX) : Prop := DNS.priority a <= DNS.priority b.

(** The resolver and the clock: the lines of [dig +short MX] (none when
    the output is blank), the time an interaction takes in milliseconds,
    and what a sleep adds to the time asked for. *)
Record World := {
  dig_lines : nat -> string -> Result (list string);
  latency : nat -> nat;
  oversleep : nat -> nat;
  sleep_outcome : nat -> Result unit
}.

Record State := {
  tick : nat;
  now : Z;
  printed : list FString
}.

Definition set_time (t : nat) (n : Z) (s : State) : State :=
  {| tick := t; now := n; printed := printed s |}.
Definition set_printed (x : list FString) (s : State) : State :=
  {| tick := tick s; now := now s; printed := x |}.

Section Wait.
Variable w : World.

Definition ask {A} (f : nat -> Result A) : M State A :=
  fun s =>
    Some (f (tick s),
          set_time (S (tick s)) (now s + Z.of_nat (latency w (tick s))) s).

(** [time.sleep(secs)]: at least [secs] seconds pass. *)
Definition sleep (secs : Z) : M State unit :=
  fun s =>
    Some (sleep_outcome w (tick s),
          set_time (S (tick s))
                   (now s + secs * 1000 + Z.of_nat (oversleep w (tick s))) s).

Definition log (msg : FString) : M State unit :=
  modify (fun s => set_printed (app (printed s) [msg]) s).

Definition warn (msg : FString) : M State unit :=
  modify (fun s => set_printed (app (printed s) [Lit "warning: " :: msg]) s).

(** [any(f'mail.{domain}' in mx for mx in mx_records)] *)
Definition shows_mail_host (domain : string) (lines : list string) : bool :=
  existsb (fun mx => contains ("mail." ++ domain) mx) lines.

(** One turn of the loop: [Some true] is the [return True]. *)
Definition poll (domain : string) (start_time : Z) : M State (option bool) :=
  try_except
    (lines <- ask (fun t => dig_lines w t domain) ;;
     if shows_mail_host domain lines then
       log [Lit "DNS propagated for "; Lit domain] ;;
       ret (Some true)
     else
       t <- gets now ;;
       let elapsed := (t - start_time) / 1000 in
       (if (elapsed mod 120 =? 0) && (0 <? elapsed)
        then log [Lit "Still waiting... ("; Fmt (VInt (elapsed / 60));
                  Lit " minutes elapsed)"]
        else ret tt) ;;
       sleep 30 ;;
       ret None)
    (fun e =>
       warn [Lit "DNS check failed: "; fmt_exc e] ;;
       sleep 60 ;;
       ret None).

Definition wait_for_dns_propagation (fuel : nat) (domain : string) (timeout : Z)
    : M State bool :=
  log [Lit "Waiting for DNS propagation for "; Lit domain; Lit "..."] ;;
  start_time <- gets now ;;
  while_cond fuel
    (t <- gets now ;; ret (t - start_time <? timeout * 1000))
    (poll domain start_time)
    (warn [Lit "DNS propagation timeout for "; Lit domain] ;; ret false).

End Wait.

End Propagation.

(** ** The passwords of the configurators ([generate_password] of
    [email_configurator.py] and [email_configurator_enhanced.py]) *)

Module Passwords.

(** The random source: what [random.choice(seq)] picks and how
    [random.sample(population, len(population))] orders, at the draw
    numbered [t]. *)
Record World := {
  choice : nat -> list ascii -> ascii;
  sample : nat -> list ascii -> list ascii
}.

Definition ascii_lowercase : list ascii :=
  list_ascii_of_string "abcdefghijklmnopqrstuvwxyz".
Definition ascii_uppercase : list ascii :=
  list_ascii_of_string "ABCDEFGHIJKLMNOPQRSTUVWXYZ".
Definition digits : list ascii := list_ascii_of_string "0123456789".
Definition specials : list ascii := list_ascii_of_string "!@#$%^&*".

(** [string.ascii_letters + string.digits + "!@#$%^&*"] *)
Definition characters : list ascii :=
  app (app (app ascii_lowercase ascii_uppercase) digits) specials.

Section Generate.
Variable w : World.

Definition random_choice (seq : list ascii) : M nat ascii :=
  fun t => Some (Ok (choice w t seq), S t).

Definition random_sample (population : list ascii) : M nat (list ascii) :=
  fun t => Some (Ok (sample w t population), S t).

(** [''.join(random.choice(seq) for _ in range(n))] *)
Fixpoint choices (n : nat) (seq : list ascii) : M nat (list ascii) :=
  match n with
  | O => ret []
  | S n' =>
      c <- random_choice seq ;;
      rest <- choices n' seq ;;
      ret (c :: rest)
  end.

Definition generate_password (length : Z) : M nat (list ascii) :=
  password <- choices (Z.to_nat length) characters ;;
  lower <- random_choice ascii_lowercase ;;
  upper <- random_choice ascii_uppercase ;;
  digit <- random_choice digits ;;
  special <- random_choice specials ;;
  let password := lower :: upper :: digit :: special :: drop 4 password in
  random_sample password.

End Generate.

End Passwords.

(** ** Concrete deployments and hosts *)

Module Scenarios.

(** *** For the monitor *)

Definition healthy_host : Monitor.World :=
  {| Monitor.clock := fun _ _ => "20260101_000000";
     Monitor.run_hostname := fun _ => Ok "mail";
     Monitor.systemctl_is_active := fun _ _ => Ok "active";
     Monitor.connect_ex := fun _ _ => Ok 0;
     Monitor.df_root := fun _ => Ok (Some 40);
     Monitor.meminfo_used_percent := fun _ => Ok 30;
     Monitor.loadavg := fun _ => Ok (1 # 2)%Q;
     Monitor.postqueue_lines := fun _ => Ok ["Mail queue is empty"];
     Monitor.certbot_certificates := fun _ => Ok "Expiry Date: 2026-03-01 (VALID: 59 days)";
     Monitor.smtp_starttls := fun _ _ _ => Ok tt;
     Monitor.smtp_login := fun _ _ _ => Ok tt;
     Monitor.imap_ssl := fun _ _ _ => Ok tt;
     Monitor.imap_login := fun _ _ _ => Ok tt;
     Monitor.webhook_post := fun _ _ => Ok 200;
     Monitor.sleep_outcome := fun _ => Ok tt;
     Monitor.report_io :=
       {| Monitor.io_mkdir := fun _ => Ok tt;
          Monitor.io_open := fun _ _ => Ok tt;
          Monitor.io_dump := fun _ _ => Ok tt;
          Monitor.io_glob := fun _ => Ok tt;
          Monitor.io_unlink := fun _ _ => Ok tt |} |}.

(** The same host without the [postqueue] program: running it raises. *)
Definition host_without_postqueue : Monitor.World :=
  {| Monitor.clock := Monitor.clock healthy_host;
     Monitor.run_hostname := Monitor.run_hostname healthy_host;
     Monitor.systemctl_is_active := Monitor.systemctl_is_active healthy_host;
     Monitor.connect_ex := Monitor.connect_ex healthy_host;
     Monitor.df_root := Monitor.df_root healthy_host;
     Monitor.meminfo_used_percent := Monitor.meminfo_used_percent healthy_host;
     Monitor.loadavg := Monitor.loadavg healthy_host;
     Monitor.postqueue_lines := fun _ =>
       Raise (Exception_ "FileNotFoundError"
                [Lit "[Errno 2] No such file or directory: 'postqueue'"]);
     Monitor.certbot_certificates := Monitor.certbot_certificates healthy_host;
     Monitor.smtp_starttls := Monitor.smtp_starttls healthy_host;
     Monitor.smtp_login := Monitor.smtp_login healthy_host;
     Monitor.imap_ssl := Monitor.imap_ssl healthy_host;
     Monitor.imap_login := Monitor.imap_login healthy_host;
     Monitor.webhook_post := Monitor.webhook_post healthy_host;
     Monitor.sleep_outcome := Monitor.sleep_outcome healthy_host;
     Monitor.report_io := Monitor.report_io healthy_host |}.

Definition monitor_config_path : string := "/opt/email-automation/monitor_config.json".




(** The host with its four services down, and a host on which the report
    directory cannot be created. *)
Definition services_down : Monitor.World :=
  {| Monitor.clock := Monitor.clock healthy_host;
     Monitor.run_hostname := Monitor.run_hostname healthy_host;
     Monitor.systemctl_is_active := fun _ _ => Ok "inactive";
     Monitor.connect_ex := Monitor.connect_ex healthy_host;
     Monitor.df_root := Monitor.df_root healthy_host;
     Monitor.meminfo_used_percent := Monitor.meminfo_used_percent healthy_host;
     Monitor.loadavg := Monitor.loadavg healthy_host;
     Monitor.postqueue_lines := Monitor.postqueue_lines healthy_host;
     Monitor.certbot_certificates := Monitor.certbot_certificates healthy_host;
     Monitor.smtp_starttls := Monitor.smtp_starttls healthy_host;
     Monitor.smtp_login := Monitor.smtp_login healthy_host;
     Monitor.imap_ssl := Monitor.imap_ssl healthy_host;
     Monitor.imap_login := Monitor.imap_login healthy_host;
     Monitor.webhook_post := Monitor.webhook_post healthy_host;
     Monitor.sleep_outcome := Monitor.sleep_outcome healthy_host;
     Monitor.report_io := Monitor.report_io healthy_host |}.

Definition PermissionError : PyExc :=
  Exception_ "PermissionError"
    [Lit "[Errno 13] Permission denied: '/var/log/email-monitoring'"].

Definition read_only_log_dir : Monitor.World :=
  {| Monitor.clock := Monitor.clock healthy_host;
     Monitor.run_hostname := Monitor.run_hostname healthy_host;
     Monitor.systemctl_is_active := Monitor.systemctl_is_active healthy_host;
     Monitor.connect_ex := Monitor.connect_ex healthy_host;
     Monitor.df_root := Monitor.df_root healthy_host;
     Monitor.meminfo_used_percent := Monitor.meminfo_used_percent healthy_host;
     Monitor.loadavg := Monitor.loadavg healthy_host;
     Monitor.postqueue_lines := Monitor.postqueue_lines healthy_host;
     Monitor.certbot_certificates := Monitor.certbot_certificates healthy_host;
     Monitor.smtp_starttls := Monitor.smtp_starttls healthy_host;
     Monitor.smtp_login := Monitor.smtp_login healthy_host;
     Monitor.imap_ssl := Monitor.imap_ssl healthy_host;
     Monitor.imap_login := Monitor.imap_login healthy_host;
     Monitor.webhook_post := Monitor.webhook_post healthy_host;
     Monitor.sleep_outcome := Monitor.sleep_outcome healthy_host;
     Monitor.report_io :=
       {| Monitor.io_mkdir := fun _ => Raise PermissionError;
          Monitor.io_open := fun _ _ => Ok tt;
          Monitor.io_dump := fun _ _ => Ok tt;
          Monitor.io_glob := fun _ => Ok tt;
          Monitor.io_unlink := fun _ _ => Ok tt |} |}.


(** The monitor as [__init__] leaves it when there is no configuration
    file. *)
Definition default_monitor : Monitor.State :=
  {| Monitor.config := Monitor.default_config; Monitor.status := None;
     Monitor.alerts := []; Monitor.tick := O;
     Monitor.events :=
       [Monitor.PrintEv [Lit "Config file not found, using defaults: ";
                         Lit monitor_config_path]];
     Monitor.report_dir := ∅ |}.

(** A configuration file with one threshold only:
    [{"thresholds": {"disk_usage": 80}}]. *)
Definition one_threshold_file : Files :=
  {[ monitor_config_path := JsonFile [("thresholds", VDict [("disk_usage", VInt 80)])] ]}.

(** *** For the pipeline *)

Definition droplet_active : Value :=
  VDict [("droplet",
          VDict [ ("id", VInt 7); ("status", VStr "active");
                  ("networks",
                   VDict [("v4", VList [VDict [ ("type", VStr "public");
                                                ("ip_address", VStr "203.0.113.5") ]])]) ])].

Definition done : Orchestrator.Exec :=
  {| Orchestrator.stdout := "ready"; Orchestrator.stderr := EmptyString;
     Orchestrator.exit_status := 0 |}.

(** A provider that reports the host active at once and a host on which
    every remote call succeeds. *)
Definition all_succeed : Orchestrator.World :=
  {| Orchestrator.latency := fun _ => 5%nat;
     Orchestrator.oversleep := fun _ => 0%nat;
     Orchestrator.sleep_outcome := fun _ => Ok tt;
     Orchestrator.random_username := fun _ => "alex.smith";
     Orchestrator.random_password := fun _ _ => "s3cret";
     Orchestrator.strftime := fun _ => "20260101_000000";
     Orchestrator.http_post := fun _ url _ =>
       match url with
       | [Lit "https://api.digitalocean.com/v2/droplets"] =>
           Ok {| Orchestrator.status_code := 202; Orchestrator.text := EmptyString;
                 Orchestrator.json := Ok droplet_active |}
       | _ => Ok {| Orchestrator.status_code := 200; Orchestrator.text := EmptyString;
                    Orchestrator.json := Ok VNone |}
       end;
     Orchestrator.http_get := fun _ _ =>
       Ok {| Orchestrator.status_code := 200; Orchestrator.text := EmptyString;
             Orchestrator.json := Ok droplet_active |};
     Orchestrator.ssh_connect := fun _ _ => Ok tt;
     Orchestrator.ssh_exec := fun _ _ => Ok done;
     Orchestrator.sftp_write := fun _ _ _ => Ok tt;
     Orchestrator.local_write := fun _ _ => Ok tt |}.

(** The same, with another remote executor. *)
Definition with_exec (exec : nat -> FString -> Result Orchestrator.Exec)
    : Orchestrator.World :=
  {| Orchestrator.latency := Orchestrator.latency all_succeed;
     Orchestrator.oversleep := Orchestrator.oversleep all_succeed;
     Orchestrator.sleep_outcome := Orchestrator.sleep_outcome all_succeed;
     Orchestrator.random_username := Orchestrator.random_username all_succeed;
     Orchestrator.random_password := Orchestrator.random_password all_succeed;
     Orchestrator.strftime := Orchestrator.strftime all_succeed;
     Orchestrator.http_post := Orchestrator.http_post all_succeed;
     Orchestrator.http_get := Orchestrator.http_get all_succeed;
     Orchestrator.ssh_connect := Orchestrator.ssh_connect all_succeed;
     Orchestrator.ssh_exec := exec;
     Orchestrator.sftp_write := Orchestrator.sftp_write all_succeed;
     Orchestrator.local_write := Orchestrator.local_write all_succeed |}.

Definition ChannelException : PyExc :=
  Exception_ "ChannelException" [Lit "Administratively prohibited"].

(** The interaction numbered [n] is a remote command whose dispatch
    raises. *)
Definition exec_raises_at (n : nat) : Orchestrator.World :=
  with_exec (fun t _ => if Nat.eqb t n then Raise ChannelException else Ok done).

(** The interaction numbered [n] is a remote command that is dispatched
    and fails on the host. *)
Definition exec_fails_remotely_at (n : nat) : Orchestrator.World :=
  with_exec (fun t _ =>
    if Nat.eqb t n
    then Ok {| Orchestrator.stdout := EmptyString;
               Orchestrator.stderr := "ERROR 1062 (23000): Duplicate entry";
               Orchestrator.exit_status := 1 |}
    else Ok done).

(** Certificate issuance fails on the host: [certbot] exits with status 1. *)
Definition certbot_fails : Orchestrator.World :=
  with_exec (fun _ cmd =>
    match cmd with
    | Lit "certbot certonly --standalone -d mail." :: _ =>
        Ok {| Orchestrator.stdout := EmptyString;
              Orchestrator.stderr := "Certbot failed to authenticate some domains";
              Orchestrator.exit_status := 1 |}
    | _ => Ok done
    end).

(** The dispatch of the [certbot] command raises. *)
Definition certbot_dispatch_raises : Orchestrator.World :=
  with_exec (fun _ cmd =>
    match cmd with
    | Lit "certbot certonly --standalone -d mail." :: _ => Raise ChannelException
    | _ => Ok done
    end).

(** The first-boot marker never appears. *)
Definition never_ready : Orchestrator.World :=
  with_exec (fun _ _ =>
    Ok {| Orchestrator.stdout := EmptyString; Orchestrator.stderr := EmptyString;
          Orchestrator.exit_status := 1 |}).

(** Three domains, three accounts each. *)
Definition three_domains : Dict :=
  dict_set "domains" (VList [VStr "a.test"; VStr "b.test"; VStr "c.test"])
    Orchestrator.default_config.

(** A job whose session is open, as the wait for the first boot finds it. *)
Definition connected_job : Orchestrator.State :=
  Orchestrator.set_open_sessions 1
    (Orchestrator.set_ssh_client (Some Orchestrator.Connected)
       (Orchestrator.init three_domains)).

(** The same, with another provider API and another SSH daemon. *)
Definition with_host (get : nat -> FString -> Result Orchestrator.Response)
    (post : nat -> FString -> list (string * FString) -> Result Orchestrator.Response)
    (connect : nat -> Value -> Result unit) : Orchestrator.World :=
  {| Orchestrator.latency := Orchestrator.latency all_succeed;
     Orchestrator.oversleep := Orchestrator.oversleep all_succeed;
     Orchestrator.sleep_outcome := Orchestrator.sleep_outcome all_succeed;
     Orchestrator.random_username := Orchestrator.random_username all_succeed;
     Orchestrator.random_password := Orchestrator.random_password all_succeed;
     Orchestrator.strftime := Orchestrator.strftime all_succeed;
     Orchestrator.http_post := post;
     Orchestrator.http_get := get;
     Orchestrator.ssh_connect := connect;
     Orchestrator.ssh_exec := Orchestrator.ssh_exec all_succeed;
     Orchestrator.sftp_write := Orchestrator.sftp_write all_succeed;
     Orchestrator.local_write := Orchestrator.local_write all_succeed |}.

(** The host never accepts a connection. *)
Definition unreachable_host : Orchestrator.World :=
  with_host (Orchestrator.http_get all_succeed) (Orchestrator.http_post all_succeed)
    (fun _ _ => Raise (Exception_ "TimeoutError" [Lit "timed out"])).

(** The provider keeps reporting the droplet as new. *)
Definition droplet_stays_new : Orchestrator.World :=
  with_host
    (fun _ _ =>
       Ok {| Orchestrator.status_code := 200; Orchestrator.text := EmptyString;
             Orchestrator.json :=
               Ok (VDict [("droplet", VDict [("id", VInt 7); ("status", VStr "new")])]) |})
    (Orchestrator.http_post all_succeed)
    (Orchestrator.ssh_connect all_succeed).

(** The APIs of the providers refuse every request that creates
    something. *)
Definition apis_refuse : Orchestrator.World :=
  with_host (Orchestrator.http_get all_succeed)
    (fun _ _ _ =>
       Ok {| Orchestrator.status_code := 403; Orchestrator.text := "Forbidden";
             Orchestrator.json := Ok VNone |})
    (Orchestrator.ssh_connect all_succeed).

(** A configuration that asks for a provider the pipeline has no code
    for. *)
Definition on_vultr : Dict :=
  dict_set "vps_provider" (VDict [("name", VStr "vultr")]) Orchestrator.default_config.

(** *** For the DNS analyser *)

Definition resolver (lines : list DNS.DigLine) : DNS.World :=
  {| DNS.dig_mx := fun _ _ => Ok lines;
     DNS.dig_ns := fun _ _ => Ok ["dns1.example.net"] |}.

(** *** For the wait for propagation *)

(** A resolver that answers with the former mail host until the
    interaction numbered [ready], and with [mail.<domain>] from then on. *)
Definition propagates_at (ready : nat) : Propagation.World :=
  {| Propagation.dig_lines := fun t domain =>
       if (t <? ready)%nat then Ok ["10 mx.former-host.test."]
       else Ok ["10 mail." ++ domain ++ "."];
     Propagation.latency := fun _ => 120%nat;
     Propagation.oversleep := fun _ => O;
     Propagation.sleep_outcome := fun _ => Ok tt |}.

(** A resolver that keeps the former mail host. *)
Definition never_propagates : Propagation.World :=
  {| Propagation.dig_lines := fun _ _ => Ok ["10 mx.former-host.test."];
     Propagation.latency := fun _ => 120%nat;
     Propagation.oversleep := fun _ => O;
     Propagation.sleep_outcome := fun _ => Ok tt |}.

Definition waiting : Propagation.State :=
  {| Propagation.tick := O; Propagation.now := 0; Propagation.printed := [] |}.

(** *** For the passwords *)

(** A source that always picks the first element and reverses. *)
Definition first_and_reverse : Passwords.World :=
  {| Passwords.choice := fun _ seq => hd "a"%char seq;
     Passwords.sample := fun _ population => rev population |}.

End Scenarios.

(** * Properties *)

(** ** Reasoning about computations *)

Module MonadFacts.

Section Facts.
Context {S : Type}.

Lemma bind_assoc {A B C} (m : M S A) (k : A -> M S B) (h : B -> M S C) (s : S) :
  bind (bind m k) h s = bind m (fun a => bind (k a) h) s.
Proof.
  unfold bind. destruct (m s) as [[[a|e] s1]|]; reflexivity.
Qed.

Lemma bind_ext {A B} (m : M S A) (k k' : A -> M S B) (s : S) :
  (forall a s1, k a s1 = k' a s1) -> bind m k s = bind m k' s.
Proof.
  intros H. unfold bind. destruct (m s) as [[[a|e] s1]|]; auto.
Qed.

(** What a sequence that finished tells about its two halves. *)
Lemma bind_some {A B} (m : M S A) (k : A -> M S B) s r s' :
  bind m k s = Some (r, s') ->
  (exists a s1, m s = Some (Ok a, s1) /\ k a s1 = Some (r, s'))
  \/ (exists e, m s = Some (Raise e, s') /\ r = Raise e).
Proof.
  unfold bind. destruct (m s) as [[[a|e] s1]|]; intros H.
  - left. eauto.
  - right. inversion H; subst. eauto.
  - discriminate.
Qed.

Lemma bind_ok {A B} (m : M S A) (k : A -> M S B) s b s' :
  bind m k s = Some (Ok b, s') ->
  exists a s1, m s = Some (Ok a, s1) /\ k a s1 = Some (Ok b, s').
Proof.
  intros H. apply bind_some in H as [H | (e & _ & H)]; [exact H | discriminate].
Qed.

Lemma bind_step {A B} (m : M S A) (k : A -> M S B) s a s1 :
  m s = Some (Ok a, s1) -> bind m k s = k a s1.
Proof. intros H. unfold bind. rewrite H. reflexivity. Qed.

Lemma bind_raise {A B} (m : M S A) (k : A -> M S B) s e s1 :
  m s = Some (Raise e, s1) -> bind m k s = Some (Raise e, s1).
Proof. intros H. unfold bind. rewrite H. reflexivity. Qed.

(** *** Code that always returns *)

Lemma total_ret {A} (a : A) : total (@ret S A a).
Proof. intros s. eexists _, _. reflexivity. Qed.

Lemma total_gets {A} (f : S -> A) : total (gets f).
Proof. intros s. eexists _, _. reflexivity. Qed.

Lemma total_modify (f : S -> S) : total (modify f).
Proof. intros s. eexists _, _. reflexivity. Qed.

Lemma total_bind {A B} (m : M S A) (k : A -> M S B) :
  total m -> (forall a, total (k a)) -> total (bind m k).
Proof.
  intros Hm Hk s. unfold bind. destruct (Hm s) as ([a|e] & s1 & ->).
  - apply Hk.
  - eexists _, _. reflexivity.
Qed.

Lemma total_for_each {A} (l : list A) (body : A -> M S unit) :
  (forall x, total (body x)) -> total (for_each l body).
Proof.
  intros Hbody. induction l as [|x l IH]; cbn [for_each].
  - apply total_ret.
  - apply total_bind; [apply Hbody | intros _; exact IH].
Qed.

Lemma total_try_except {A} (body : M S A) (handler : PyExc -> M S A) :
  total body -> (forall e, total (handler e)) -> total (try_except body handler).
Proof.
  intros Hb Hh s. unfold try_except. destruct (Hb s) as ([a|e] & s1 & ->).
  - eexists _, _. reflexivity.
  - destruct (is_Exception e); [apply Hh | eexists _, _; reflexivity].
Qed.

(** What leaves a [try] whose handler returns is no [Exception]. *)
Lemma try_except_raise {A} (body : M S A) (handler : PyExc -> M S A) s e s' :
  (forall e0 s0 r s1, handler e0 s0 = Some (r, s1) -> exists a, r = Ok a) ->
  try_except body handler s = Some (Raise e, s') ->
  is_Exception e = false.
Proof.
  intros Hh. unfold try_except.
  destruct (body s) as [[[a|e0] s1]|]; [discriminate| |discriminate].
  destruct (is_Exception e0) eqn:E.
  - intros H. apply Hh in H as [a H]. discriminate.
  - intros H. inversion H; subst. exact E.
Qed.

(** *** Invariants *)

Variable I : S -> Prop.

Lemma inv_ret {A} (a : A) : inv I (ret a).
Proof. intros s r s' HI H. inversion H; subst; exact HI. Qed.

Lemma inv_raise {A} (e : PyExc) : inv I (@raise S A e).
Proof. intros s r s' HI H. inversion H; subst; exact HI. Qed.

Lemma inv_lift {A} (x : Result A) : inv I (lift x).
Proof. intros s r s' HI H. inversion H; subst; exact HI. Qed.

Lemma inv_get : inv I get.
Proof. intros s r s' HI H. inversion H; subst; exact HI. Qed.

Lemma inv_gets {A} (f : S -> A) : inv I (gets f).
Proof. intros s r s' HI H. inversion H; subst; exact HI. Qed.

Lemma inv_modify (f : S -> S) : (forall s, I s -> I (f s)) -> inv I (modify f).
Proof. intros Hf s r s' HI H. inversion H; subst. auto. Qed.

Lemma inv_bind {A B} (m : M S A) (k : A -> M S B) :
  inv I m -> (forall a, inv I (k a)) -> inv I (bind m k).
Proof.
  intros Hm Hk s r s' HI H.
  apply bind_some in H as [(a & s1 & H1 & H2) | (e & H1 & _)].
  - eapply Hk; [eapply Hm|]; eauto.
  - eapply Hm; eauto.
Qed.

Lemma inv_try_except {A} (body : M S A) (handler : PyExc -> M S A) :
  inv I body -> (forall e, inv I (handler e)) -> inv I (try_except body handler).
Proof.
  intros Hb Hh s r s' HI H. unfold try_except in H.
  destruct (body s) as [[[a|e] s1]|] eqn:E; try discriminate.
  - inversion H; subst. eapply Hb; eauto.
  - destruct (is_Exception e).
    + eapply Hh; [eapply Hb|]; eauto.
    + inversion H; subst. eapply Hb; eauto.
Qed.

Lemma inv_try_except_bare {A} (body handler : M S A) :
  inv I body -> inv I handler -> inv I (try_except_bare body handler).
Proof.
  intros Hb Hh s r s' HI H. unfold try_except_bare in H.
  destruct (body s) as [[[a|e] s1]|] eqn:E; try discriminate.
  - inversion H; subst. eapply Hb; eauto.
  - eapply Hh; [eapply Hb|]; eauto.
Qed.

Lemma inv_try_finally {A} (body : M S A) (cleanup : M S unit) :
  inv I body -> inv I cleanup -> inv I (try_finally body cleanup).
Proof.
  intros Hb Hc s r s' HI H. unfold try_finally in H.
  destruct (body s) as [[r1 s1]|] eqn:E; try discriminate.
  destruct (cleanup s1) as [[[u|e] s2]|] eqn:E2; try discriminate;
    inversion H; subst; (eapply (Hc s1); [eapply Hb; eauto | exact E2]).
Qed.

Lemma inv_for_each {A} (l : list A) (body : A -> M S unit) :
  (forall x, inv I (body x)) -> inv I (for_each l body).
Proof.
  intros Hb. induction l as [|x l IH]; simpl.
  - apply inv_ret.
  - apply inv_bind; auto.
Qed.

Lemma inv_for_each_return {A R} (l : list A) (body : A -> M S (option R)) :
  (forall x, inv I (body x)) -> inv I (for_each_return l body).
Proof.
  intros Hb. induction l as [|x l IH]; simpl.
  - apply inv_ret.
  - apply inv_bind; auto. intros [v|]; [apply inv_ret | exact IH].
Qed.

Lemma inv_while_true {R} (fuel : nat) (body : M S (option R)) :
  inv I body -> inv I (while_true fuel body).
Proof.
  intros Hb. induction fuel as [|n IH]; simpl.
  - intros s r s' _ H. discriminate.
  - apply inv_bind; auto. intros [v|]; [apply inv_ret | exact IH].
Qed.

Lemma inv_while_cond {R} (fuel : nat) (cond : M S bool) (body : M S (option R))
    (after : M S R) :
  inv I cond -> inv I body -> inv I after -> inv I (while_cond fuel cond body after).
Proof.
  intros Hc Hb Ha. induction fuel as [|n IH]; simpl.
  - intros s r s' _ H. discriminate.
  - apply inv_bind; auto. intros [|]; [|exact Ha].
    apply inv_bind; auto. intros [v|]; [apply inv_ret | exact IH].
Qed.

End Facts.

End MonadFacts.
Import MonadFacts.

(** Break an invariant goal along the structure of the computation. *)
Ltac inv_step :=
  lazymatch goal with
  | |- inv _ (bind _ _) => apply inv_bind; [| intros ?]
  | |- inv _ (ret _) => apply inv_ret
  | |- inv _ (raise _) => apply inv_raise
  | |- inv _ (lift _) => apply inv_lift
  | |- inv _ get => apply inv_get
  | |- inv _ (gets _) => apply inv_gets
  | |- inv _ (try_except _ _) => apply inv_try_except; [| intros ?]
  | |- inv _ (try_except_bare _ _) => apply inv_try_except_bare
  | |- inv _ (try_finally _ _) => apply inv_try_finally
  | |- inv _ (for_each _ _) => apply inv_for_each; intros ?
  | |- inv _ (for_each_return _ _) => apply inv_for_each_return; intros ?
  | |- inv _ (while_true _ _) => apply inv_while_true
  | |- inv _ (while_cond _ _ _ _) => apply inv_while_cond
  | |- inv _ (if ?b then _ else _) => destruct b
  | |- inv _ (match ?x with _ => _ end) => destruct x
  end.

(** ** The health monitor *)

Module MonitorFacts.
Import Monitor.

Lemma fresh_ask {A} (f : nat -> Result A) : inv fresh (ask f).
Proof.
  intros s r s' HI H. unfold ask in H. inversion H; subst. exact HI.
Qed.

Lemma fresh_log level msg : inv fresh (log level msg).
Proof. apply inv_modify. intros s HI. exact HI. Qed.

Lemma fresh_alert a : inv fresh (alert a).
Proof. apply inv_modify. intros s HI. exact HI. Qed.

Lemma fresh_the_status : inv fresh the_status.
Proof.
  unfold the_status. repeat inv_step.
Qed.

Lemma fresh_check_hashable k : inv fresh (check_hashable k).
Proof. unfold check_hashable. repeat inv_step. Qed.

(** An update that leaves the verdict and the alerts key alone. *)
Lemma fresh_update (f : Status -> Status) :
  (forall st, overall_status (f st) = overall_status st
              /\ status_alerts (f st) = status_alerts st) ->
  inv fresh (update_status f).
Proof.
  intros Hf s r s' (st0 & H0 & Ho & Ha) H.
  unfold update_status, the_status, bind, get, modify, ret in H.
  rewrite H0 in H. inversion H; subst. clear H.
  exists (f st0). destruct (Hf st0) as [Hfo Hfa].
  simpl. rewrite Hfo, Hfa. auto.
Qed.

Ltac fresh_tac :=
  repeat first
    [ inv_step
    | apply fresh_ask
    | apply fresh_log
    | apply fresh_alert
    | apply fresh_the_status
    | apply fresh_check_hashable
    | apply fresh_update; intros ?; split; reflexivity ].

Lemma fresh_check_service_status w v : inv fresh (check_service_status w v).
Proof. unfold check_service_status. fresh_tac. Qed.

Lemma fresh_check_port_connectivity w v : inv fresh (check_port_connectivity w v).
Proof. unfold check_port_connectivity. fresh_tac. Qed.

Lemma fresh_check_system_resources w : inv fresh (check_system_resources w).
Proof. unfold check_system_resources, attempt. fresh_tac. Qed.

Lemma fresh_check_mail_queue w : inv fresh (check_mail_queue w).
Proof. unfold check_mail_queue. fresh_tac. Qed.

Lemma fresh_check_ssl_certificates w : inv fresh (check_ssl_certificates w).
Proof. unfold check_ssl_certificates. fresh_tac. Qed.

Lemma fresh_test_smtp_connectivity w a : inv fresh (test_smtp_connectivity w a).
Proof. unfold test_smtp_connectivity. fresh_tac. Qed.

Lemma fresh_test_imap_connectivity w a : inv fresh (test_imap_connectivity w a).
Proof. unfold test_imap_connectivity. fresh_tac. Qed.

Lemma fresh_check_one_service w v : inv fresh (check_one_service w v).
Proof.
  unfold check_one_service. apply inv_bind; [apply fresh_check_service_status|].
  intros up. fresh_tac.
Qed.

Lemma fresh_check_one_port w v : inv fresh (check_one_port w v).
Proof.
  unfold check_one_port. apply inv_bind; [apply fresh_check_port_connectivity|].
  intros up. fresh_tac.
Qed.

Lemma fresh_check_threshold t k x a : inv fresh (check_threshold t k x a).
Proof. unfold check_threshold, resource_item. fresh_tac. Qed.

Lemma fresh_test_one_account w a : inv fresh (test_one_account w a).
Proof.
  unfold test_one_account. apply inv_bind; [apply inv_lift|]. intros email.
  apply inv_bind; [apply fresh_test_smtp_connectivity|]. intros smtp.
  apply inv_bind; [apply fresh_test_imap_connectivity|]. intros imap.
  fresh_tac.
Qed.

(** The probes hand the snapshot to the classification untouched in its
    verdict. *)
Lemma run_probes_fresh w s s1 :
  run_probes w s = Some (Ok tt, s1) -> fresh s1.
Proof.
  unfold run_probes. intros H.
  apply bind_ok in H as (? & sa & _ & H).
  apply bind_ok in H as (now & sb & _ & H).
  apply bind_ok in H as (host & sc & _ & H).
  apply bind_ok in H as (? & sd & Hset & H).
  unfold modify in Hset. inversion Hset; subst sd. clear Hset.
  revert H.
  match goal with |- ?m ?s0 = _ -> _ => assert (Hinv : inv fresh m) end.
  { apply inv_bind; [apply inv_gets|]. intros cfg.
    apply inv_bind; [apply inv_lift|]. intros service_list.
    apply inv_bind; [apply inv_lift|]. intros service_items.
    apply inv_bind; [apply inv_for_each; intros; apply fresh_check_one_service|]. intros _.
    apply inv_bind; [apply inv_lift|]. intros port_list.
    apply inv_bind; [apply inv_lift|]. intros port_items.
    apply inv_bind; [apply inv_for_each; intros; apply fresh_check_one_port|]. intros _.
    apply inv_bind; [apply fresh_check_system_resources|]. intros res.
    apply inv_bind; [fresh_tac|]. intros _.
    apply inv_bind; [apply inv_lift|]. intros thresholds.
    apply inv_bind; [apply fresh_the_status|]. intros st.
    apply inv_bind; [apply fresh_check_threshold|]. intros _.
    apply inv_bind; [apply fresh_check_threshold|]. intros _.
    apply inv_bind; [apply fresh_check_threshold|]. intros _.
    apply inv_bind; [apply fresh_check_mail_queue|]. intros queue.
    apply inv_bind; [fresh_tac|]. intros _.
    apply inv_bind; [apply inv_lift|]. intros limit.
    apply inv_bind; [apply fresh_the_status|]. intros st2.
    apply inv_bind; [apply inv_lift|]. intros over.
    apply inv_bind; [fresh_tac|]. intros _.
    apply inv_bind; [apply fresh_check_ssl_certificates|]. intros ssl.
    apply inv_bind; [fresh_tac|]. intros _.
    apply inv_bind; [apply fresh_the_status|]. intros st3.
    apply inv_bind; [fresh_tac|]. intros _.
    apply inv_bind; [apply inv_lift|]. intros account_list.
    apply inv_bind; [apply inv_lift|]. intros accounts.
    apply inv_for_each; intros; apply fresh_test_one_account. }
  intros H. eapply Hinv; [|exact H].
  eexists. simpl. split; [reflexivity|]. split; reflexivity.
Qed.

(** The classification reads the alert list and nothing else. *)
Lemma classify_spec s1 st s' :
  fresh s1 -> classify s1 = Some (Ok st, s') ->
  status s' = Some st /\ alerts s' = alerts s1
  /\ overall_status st = severity (length (alerts s1))
  /\ snapshot_alerts st = alerts s1.
Proof.
  intros (st0 & H0 & Ho & Ha) H.
  destruct s1 as [cfg sts al tk ev rd]. simpl in H0. subst sts.
  unfold classify, update_status, the_status, log, bind, get, modify, ret in H.
  simpl in *.
  destruct al as [|a l]; simpl in H; inversion H; subst; clear H; simpl.
  - unfold snapshot_alerts. rewrite Ha, Ho. auto.
  - unfold snapshot_alerts, severity. simpl. auto.
Qed.

Lemma run_health_check_spec w s st s' :
  run_health_check w s = Some (Ok st, s') ->
  status s' = Some st
  /\ overall_status st = severity (length (alerts s'))
  /\ snapshot_alerts st = alerts s'.
Proof.
  unfold run_health_check. intros H.
  apply bind_ok in H as ([] & s1 & Hp & Hc).
  apply run_probes_fresh in Hp.
  destruct (classify_spec _ _ _ Hp Hc) as (Hs & Hal & Ho & Hsa).
  rewrite Hal. auto.
Qed.

(** The ['alerts'] key of the snapshot handed back: absent when no alert
    was raised, the alert list otherwise. *)
Lemma classify_alerts_key s1 st s' :
  fresh s1 -> classify s1 = Some (Ok st, s') ->
  status_alerts st = match alerts s1 with [] => None | _ :: _ => Some (alerts s1) end.
Proof.
  intros (st0 & H0 & Ho & Ha) H.
  destruct s1 as [cfg sts al tk ev rd]. simpl in H0. subst sts.
  unfold classify, update_status, the_status, log, bind, get, modify, ret in H.
  simpl in *.
  destruct al as [|a l]; simpl in H; inversion H; subst; clear H; simpl.
  - exact Ha.
  - reflexivity.
Qed.

(** C4. In every monitoring cycle the verdict of the snapshot is a function
    of the number of alerts of that cycle alone. The cycle starts by
    emptying the alert list, so what an earlier cycle left there changes
    nothing. The probes then run from the empty list, and the alerts they
    have raised when they end are the alerts the classification counts:
    the list is left as the probes left it, the snapshot carries exactly
    these alerts (and no ['alerts'] key when there is none), the snapshot
    returned is the one stored, and its verdict is healthy for no alert,
    warning for one or two, critical for three or more. *)
Theorem severity_from_own_alert_count (w : World) (s : State) :
  (forall prior, cycle_check w (set_alerts prior s) = cycle_check w s)
  /\ (forall st s', cycle_check w s = Some (Ok st, s') ->
        exists s1,
          run_probes w (set_alerts [] s) = Some (Ok tt, s1)
          /\ alerts s' = alerts s1
          /\ status s' = Some st
          /\ snapshot_alerts st = alerts s1
          /\ status_alerts st
             = match alerts s1 with [] => None | _ :: _ => Some (alerts s1) end
          /\ overall_status st = severity (length (alerts s1)))
  /\ severity 0 = "healthy" /\ severity 1 = "warning" /\ severity 2 = "warning"
  /\ (forall n, (3 <= n)%nat -> severity n = "critical").
Proof.
  split; [|split].
  - intros prior. reflexivity.
  - intros st s' H. unfold cycle_check in H.
    apply bind_ok in H as ([] & s0 & Hm & H).
    unfold modify in Hm. inversion Hm; subst s0. clear Hm.
    unfold run_health_check in H.
    apply bind_ok in H as ([] & s1 & Hp & Hc).
    exists s1. split; [exact Hp|].
    pose proof (run_probes_fresh _ _ _ Hp) as Hfresh.
    destruct (classify_spec _ _ _ Hfresh Hc) as (Hs & Hal & Ho & Hsa).
    pose proof (classify_alerts_key _ _ _ Hfresh Hc) as Hkey.
    auto 6.
  - repeat split; try reflexivity.
    intros n Hn. unfold severity.
    destruct n as [|[|[|n]]]; try lia. reflexivity.
Qed.

(** *** Retention *)

Lemma string_compare_refl (a : string) : String.compare a a = Eq.
Proof.
  induction a as [|x a IH]; simpl; [reflexivity|].
  unfold Ascii.compare. rewrite N.compare_refl. exact IH.
Qed.

Lemma string_compare_trans_le (a b c : string) :
  String.compare a b <> Gt -> String.compare b c <> Gt -> String.compare a c <> Gt.
Proof.
  revert b c. induction a as [|x a IH]; intros [|y b] [|z c]; simpl;
    try congruence.
  unfold Ascii.compare.
  destruct (N.compare_spec (N_of_ascii x) (N_of_ascii y)) as [Exy|Exy|Exy];
    destruct (N.compare_spec (N_of_ascii y) (N_of_ascii z)) as [Eyz|Eyz|Eyz];
    try congruence.
  - rewrite Exy, Eyz, N.compare_refl. apply IH.
  - intros _ _. rewrite Exy. apply N.compare_lt_iff in Eyz. rewrite Eyz. congruence.
  - intros _ _. rewrite <- Eyz. apply N.compare_lt_iff in Exy. rewrite Exy. congruence.
  - intros _ _. assert (H : (N_of_ascii x < N_of_ascii z)%N) by lia.
    apply N.compare_lt_iff in H. rewrite H. congruence.
Qed.

Lemma name_le_iff (a b : string) : name_le a b <-> String.compare a b <> Gt.
Proof.
  unfold name_le, String.leb. destruct (String.compare a b); split; congruence.
Qed.

#[export] Instance name_le_trans : Transitive name_le.
Proof.
  intros a b c. rewrite !name_le_iff. apply string_compare_trans_le.
Qed.

#[export] Instance name_le_total : Total name_le.
Proof. intros a b. apply String.leb_total. Qed.

#[export] Instance name_le_antisym : AntiSymm eq name_le.
Proof. intros a b. apply String.leb_antisym. Qed.

Section Retention.
Variable dir : gmap string ReportFile.



End Retention.











(** The loop of [unlink] calls, when none fails. *)
Lemma unlink_loop (w : World) (olds : list string) (s : State) :
  (forall t old, io_unlink (report_io w) t old = Ok tt) ->
  for_each olds (unlink w) s
  = Some (Ok tt,
          set_report_dir (unlink_all olds (report_dir s))
            (set_tick (tick s + length olds) s)).
Proof.
  intros Hunlink. revert s. induction olds as [|o olds IH]; intros s.
  - destruct s; cbn. rewrite Nat.add_0_r. reflexivity.
  - cbn [for_each]. unfold unlink at 1, ask, modify. unfold bind at 1 2.
    rewrite Hunlink. rewrite IH. destruct s; cbn.
    rewrite <- plus_n_Sm. reflexivity.
Qed.

(** A save whose directory operations all succeed. *)
Lemma save_status_report_succeeds (w : World) (st : Status) (s : State) :
  let name := report_name (clock w (S (tick s)) "%Y%m%d_%H%M%S") in
  let written := <[name := Snapshot st]> (report_dir s) in
  io_mkdir (report_io w) (tick s) = Ok tt ->
  io_open (report_io w) (S (tick s)) name = Ok tt ->
  io_dump (report_io w) (S (S (tick s))) name = Ok tt ->
  io_glob (report_io w) (S (S (S (tick s)))) = Ok tt ->
  (forall t old, io_unlink (report_io w) t old = Ok tt) ->
  exists s',
    save_status_report w st s = Some (Ok tt, s')
    /\ report_dir s' = keep_last_100 written
    /\ events s'
       = app (events s)
           [LogEv "INFO" [Lit "Health report saved: /var/log/email-monitoring/"; Lit name]]
    /\ alerts s' = alerts s /\ status s' = status s /\ config s' = config s.
Proof.
  intros name written Hmkdir Hopen Hdump Hglob Hunlink.
  unfold save_status_report, try_except, write_report, ask, gets, modify, log.
  destruct s as [cfg sts al t ev dir].
  cbn [tick report_dir events alerts status config] in *.
  unfold bind at 1; cbn [tick set_tick set_report_dir report_dir].
  rewrite Hmkdir.
  unfold bind at 1; cbn [tick set_tick set_report_dir report_dir].
  fold name.
  do 3 (unfold bind at 1; cbn [tick set_tick set_report_dir report_dir]).
  rewrite Hopen. cbn [tick set_tick set_report_dir report_dir].
  do 3 (unfold bind at 1; cbn [tick set_tick set_report_dir report_dir]).
  rewrite Hdump. cbn [tick set_tick set_report_dir report_dir].
  rewrite Hglob. rewrite insert_insert_eq. fold written.
  unfold keep_last_100.
  destruct (100 <? length (reports written))%nat.
  - unfold bind at 1. rewrite (unlink_loop w _ _ Hunlink).
    eexists. split; [reflexivity|]. cbn. auto.
  - unfold bind, ret. eexists. split; [reflexivity|]. cbn. auto.
Qed.

(** A save whose first deletion fails: the error is caught and logged, and
    every report is still there, the new one included. *)
Lemma failed_unlink_stops_retention (w : World) (st : Status) (s : State)
    (e : PyExc) (oldest : string) (rest : list string) :
  let name := report_name (clock w (S (tick s)) "%Y%m%d_%H%M%S") in
  let written := <[name := Snapshot st]> (report_dir s) in
  io_mkdir (report_io w) (tick s) = Ok tt ->
  io_open (report_io w) (S (tick s)) name = Ok tt ->
  io_dump (report_io w) (S (S (tick s))) name = Ok tt ->
  io_glob (report_io w) (S (S (S (tick s)))) = Ok tt ->
  reports written = oldest :: rest ->
  (100 <= length rest)%nat ->
  io_unlink (report_io w) (S (S (S (S (tick s))))) oldest = Raise e ->
  is_Exception e = true ->
  exists s',
    save_status_report w st s = Some (Ok tt, s')
    /\ report_dir s' = written
    /\ events s'
       = app (events s) [LogEv "ERROR" [Lit "Error saving health report: "; fmt_exc e]].
Proof.
  intros name written Hmkdir Hopen Hdump Hglob Hlist Hlen Hunlink He.
  unfold save_status_report, try_except, write_report, ask, gets, modify, log.
  destruct s as [cfg sts al t ev dir].
  cbn [tick report_dir events alerts status config] in *.
  unfold bind at 1; cbn [tick set_tick set_report_dir report_dir].
  rewrite Hmkdir.
  unfold bind at 1; cbn [tick set_tick set_report_dir report_dir].
  fold name.
  do 3 (unfold bind at 1; cbn [tick set_tick set_report_dir report_dir]).
  rewrite Hopen. cbn [tick set_tick set_report_dir report_dir].
  do 3 (unfold bind at 1; cbn [tick set_tick set_report_dir report_dir]).
  rewrite Hdump. cbn [tick set_tick set_report_dir report_dir].
  rewrite Hglob. rewrite insert_insert_eq. fold written. rewrite Hlist.
  cbn [length].
  assert (Hlt : (100 <? S (length rest))%nat = true) by (apply Nat.ltb_lt; lia).
  rewrite Hlt.
  replace (S (length rest) - 100)%nat with (S (length rest - 100)) by lia.
  cbn [take for_each].
  unfold unlink at 1, ask. unfold bind at 1 2 3.
  cbn [tick set_tick set_report_dir report_dir].
  rewrite Hunlink, He. unfold modify.
  eexists. split; [reflexivity|]. cbn. auto.
Qed.



(** A cycle on the host whose four services are down, begun with an alert
    of an earlier cycle in the list: the four alerts of this cycle and no
    other are counted, and the verdict is critical. *)
Lemma severity_from_own_alert_count_witness :
  exists st s',
    cycle_check Scenarios.services_down
      (set_alerts [[Lit "High disk usage: "; Fmt (VInt 95); Lit "%"]]
         Scenarios.default_monitor)
    = Some (Ok st, s')
    /\ alerts s'
       = [[Lit "Service "; Fmt (VStr "postfix"); Lit " is not running"];
          [Lit "Service "; Fmt (VStr "dovecot"); Lit " is not running"];
          [Lit "Service "; Fmt (VStr "mysql"); Lit " is not running"];
          [Lit "Service "; Fmt (VStr "nginx"); Lit " is not running"]]
    /\ status_alerts st = Some (alerts s')
    /\ overall_status st = "critical".
Proof.
  destruct (cycle_check Scenarios.services_down
              (set_alerts [[Lit "High disk usage: "; Fmt (VInt 95); Lit "%"]]
                 Scenarios.default_monitor))
    as [[[st|e] s']|] eqn:E; [|vm_compute in E; discriminate..].
  exists st, s'. split; [reflexivity|].
  destruct (proj1 (proj2 (severity_from_own_alert_count _ _)) st s' E)
    as (s1 & Hprobes & Hal & _ & _ & Hkey & Hverdict).
  vm_compute in Hprobes. inversion Hprobes; subst s1. clear Hprobes.
  cbn [alerts length] in Hal, Hkey, Hverdict.
  rewrite Hal. split; [reflexivity|]. split; [exact Hkey | exact Hverdict].
Defined.

(** *** Probe errors *)

(** C6, at the failing input. On a host where running [postqueue] raises,
    with the default thresholds and everything else in order, the probe
    logs the error and yields -1; the comparison with the queue threshold is
    false, no alert is added and the snapshot is healthy. *)
Theorem failed_queue_probe_raises_no_alert :
  exists st s',
    run_health_check Scenarios.host_without_postqueue Scenarios.default_monitor
      = Some (Ok st, s')
    /\ mail_queue st = -1
    /\ alerts s' = []
    /\ overall_status st = "healthy"
    /\ In (LogEv "ERROR"
             [Lit "Error checking mail queue: ";
              FmtExc "FileNotFoundError"
                [Lit "[Errno 2] No such file or directory: 'postqueue'"]])
          (events s').
Proof.
  eexists _, _. split; [vm_compute; reflexivity|].
  simpl. repeat split; try reflexivity.
  right. right. left. reflexivity.
Qed.

(** *** Defaults *)

Lemma dict_mem_set {A} (k k' : string) (v : A) (d : list (string * A)) :
  dict_mem k d = true -> dict_mem k (dict_set k' v d) = true.
Proof.
  unfold dict_mem. induction d as [|[k0 v0] d IH]; simpl; [discriminate|].
  destruct (String.eqb k' k0) eqn:E'; simpl.
  - apply String.eqb_eq in E'. subst k0.
    destruct (String.eqb k k'); auto.
  - destruct (String.eqb k k0); auto.
Qed.

Lemma dict_mem_set_same {A} (k : string) (v : A) (d : list (string * A)) :
  dict_mem k (dict_set k v d) = true.
Proof.
  unfold dict_mem. induction d as [|[k0 v0] d IH]; simpl.
  - rewrite String.eqb_refl. reflexivity.
  - destruct (String.eqb k k0) eqn:E; simpl; rewrite ?String.eqb_refl, ?E; auto.
Qed.

Lemma merge_defaults_keeps (defaults config : Dict) (k : string) :
  dict_mem k config = true -> dict_mem k (merge_defaults defaults config) = true.
Proof.
  revert config. induction defaults as [|[key value] rest IH]; intros config H; simpl.
  - exact H.
  - apply IH. destruct (dict_mem key config); [exact H | apply dict_mem_set, H].
Qed.

(** Every top-level key of the defaults is in the loaded configuration. *)
Lemma merge_defaults_top_level (defaults config : Dict) (k : string) :
  dict_mem k defaults = true -> dict_mem k (merge_defaults defaults config) = true.
Proof.
  revert config. induction defaults as [|[key value] rest IH]; intros config H.
  - discriminate.
  - simpl. unfold dict_mem in H. simpl in H.
    destruct (String.eqb k key) eqn:E.
    + apply String.eqb_eq in E. subst key. apply merge_defaults_keeps.
      destruct (dict_mem k config) eqn:Ek; [exact Ek | apply dict_mem_set_same].
    + apply IH. exact H.
Qed.

(** C8, at the failing input. A configuration file that sets one threshold
    only is loaded with its own [thresholds] object: the top-level keys are
    filled in, the three other thresholds are not, and the health check on a
    healthy host raises [KeyError] at the first lookup of a missing one. *)
Theorem partial_thresholds_break_the_check :
  exists s,
    init Scenarios.one_threshold_file Scenarios.monitor_config_path ∅ = Ok s
    /\ dict_get "services" (config s) = dict_get "services" default_config
    /\ dict_get "thresholds" (config s) = Some (VDict [("disk_usage", VInt 80)])
    /\ exists s',
         run_health_check Scenarios.healthy_host s
           = Some (Raise (KeyError "memory_usage"), s').
Proof.
  eexists. split; [vm_compute; reflexivity|].
  split; [reflexivity|]. split; [reflexivity|].
  eexists. vm_compute. reflexivity.
Qed.

End MonitorFacts.

(** ** Loading the configuration *)

Module ConfigFacts.

(** C7 fails for the monitor and for the configurators: started without a
    configuration file, the monitor is built with its built-in defaults and
    does not exit, and a configurator ends its run normally, with exit
    status 0. *)
Lemma monitor_runs_on_without_config_file :
  Monitor.init ∅ Scenarios.monitor_config_path ∅ = Ok Scenarios.default_monitor
  /\ (forall code,
        Monitor.init ∅ Scenarios.monitor_config_path ∅ <> Raise (SystemExit code))
  /\ exists s',
       Configurator.run Configurator.default_config_basic (ret tt)
         (Configurator.init "email_config.json" ∅) = Some (Ok tt, s')
       /\ Configurator.exit_status (Ok tt) = 0.
Proof.
  split; [reflexivity|]. split; [intros code H; discriminate H|].
  eexists. split; reflexivity.
Qed.

(** C7, as the programs have it. When the configuration file is missing,
    the orchestrator writes its default document, prints the request to
    configure the file and raises [SystemExit] with status 1; the monitor
    writes nothing, prints that the file was not found and goes on with its
    built-in defaults; either configurator writes its default document,
    does not reach the rest of its run and ends normally, hence with exit
    status 0, the last lines it prints saying that the default file was
    created and asking to edit it and run again. *)
Theorem missing_config_file_behaviour (path : string) (fs : Files) :
  fs !! path = None ->
  (forall printed_before,
     Orchestrator.load_config path
       {| Orchestrator.disk := fs; Orchestrator.output := printed_before |}
     = Some (Raise (SystemExit 1),
             {| Orchestrator.disk := write_json path Orchestrator.default_config fs;
                Orchestrator.output :=
                  app printed_before
                      [[Lit "Please configure "; Lit path; Lit " and run again"]] |}))
  /\ Monitor.load_config fs path
     = (Ok Monitor.default_config,
        [[Lit "Config file not found, using defaults: "; Lit path]])
  /\ forall (default_config : Dict) (rest_of_run : M Configurator.State unit),
       exists s' banner,
         Configurator.run default_config rest_of_run (Configurator.init path fs)
           = Some (Ok tt, s')
         /\ Configurator.files s' = write_json path default_config fs
         /\ Configurator.exit_status (Ok tt) = 0
         /\ Configurator.printed s'
            = app banner
                [ [Lit "Configuration file "; Lit path;
                   Lit " not found. Creating default..."];
                  [Lit "Default configuration created: "; Lit path];
                  [Lit "Please edit the configuration file with your domains and run again."] ].
Proof.
  intros Hmissing. split; [|split].
  - intros printed_before.
    unfold Orchestrator.load_config, Orchestrator.create_default_config, bind, get,
      modify, raise, open_json.
    cbn [Orchestrator.disk]. rewrite Hmissing. reflexivity.
  - unfold Monitor.load_config, open_json. rewrite Hmissing. reflexivity.
  - intros default_config rest_of_run.
    unfold Configurator.run, Configurator.load_config, Configurator.create_default_config,
      Configurator.print, Configurator.init, bind, get, modify, ret, open_json.
    simpl. rewrite Hmissing. simpl. eexists.
    exists [[Lit "Email Configuration Script Starting..."];
            [Lit "=================================================="]].
    split; [reflexivity|]. split; [reflexivity|]. split; reflexivity.
Qed.

Lemma missing_config_file_behaviour_witness :
  Orchestrator.load_config "automation_config.json"
    {| Orchestrator.disk := ∅; Orchestrator.output := [] |}
  = Some (Raise (SystemExit 1),
          {| Orchestrator.disk :=
               write_json "automation_config.json" Orchestrator.default_config ∅;
             Orchestrator.output :=
               [[Lit "Please configure "; Lit "automation_config.json";
                 Lit " and run again"]] |}).
Proof.
  apply (missing_config_file_behaviour "automation_config.json" ∅). reflexivity.
Defined.

End ConfigFacts.

(** ** The DNS analysis *)

Module DNSFacts.
Import DNS.


End DNSFacts.

(** ** The deployment pipeline *)

Module OrchestratorFacts.
Import Orchestrator.

(** *** No probe session stays open *)

Lemma no_probe_note {A} (r : Result A) s : no_probe s -> no_probe (note r s).
Proof. destruct r; exact id. Qed.

Lemma no_probe_ask w {A} (f : nat -> Result A) : inv no_probe (ask w f).
Proof.
  intros s r s' H E. unfold ask in E. inversion E; subst.
  apply no_probe_note. exact H.
Qed.

Lemma no_probe_sleep w secs : inv no_probe (sleep w secs).
Proof.
  intros s r s' H E. unfold sleep in E. inversion E; subst.
  apply no_probe_note. exact H.
Qed.

Lemma no_probe_print msg : inv no_probe (print msg).
Proof. apply inv_modify. intros s H. exact H. Qed.

(** The probe client is closed as soon as it is connected. *)
Lemma no_probe_connect_close w ip {A} (k : M State A) :
  inv no_probe k -> inv no_probe (probe_connect w ip ;; probe_close ;; k).
Proof.
  intros Hk s r s' H E.
  unfold probe_connect, probe_close, ask, modify, bind in E.
  destruct (ssh_connect w (tick s) ip) as [[]|e]; simpl in E.
  - eapply Hk; [|exact E]. exact H.
  - inversion E; subst. exact H.
Qed.

Ltac no_probe_tac :=
  repeat first
    [ apply no_probe_ask
    | apply no_probe_sleep
    | apply no_probe_print
    | apply no_probe_connect_close
    | solve [auto with no_probe]
    | apply inv_modify; intros ? ?; assumption
    | inv_step ].

Create HintDb no_probe.

Lemma no_probe_config_item a b : inv no_probe (config_item a b).
Proof. unfold config_item. no_probe_tac. Qed.
#[export] Hint Resolve no_probe_config_item : no_probe.

Lemma no_probe_set_server_setting k v : inv no_probe (set_server_setting k v).
Proof. unfold set_server_setting. no_probe_tac. Qed.
#[export] Hint Resolve no_probe_set_server_setting : no_probe.

Lemma no_probe_generate_secure_password w n : inv no_probe (generate_secure_password w n).
Proof. unfold generate_secure_password. no_probe_tac. Qed.
#[export] Hint Resolve no_probe_generate_secure_password : no_probe.

Lemma no_probe_generate_random_username w : inv no_probe (generate_random_username w).
Proof. unfold generate_random_username. no_probe_tac. Qed.
#[export] Hint Resolve no_probe_generate_random_username : no_probe.

Lemma no_probe_generate_cloud_init_script w : inv no_probe (generate_cloud_init_script w).
Proof. unfold generate_cloud_init_script. no_probe_tac. Qed.
#[export] Hint Resolve no_probe_generate_cloud_init_script : no_probe.

Lemma no_probe_wait_for_ssh w fuel ip timeout : inv no_probe (wait_for_ssh w fuel ip timeout).
Proof. unfold wait_for_ssh. no_probe_tac. Qed.
#[export] Hint Resolve no_probe_wait_for_ssh : no_probe.

Lemma no_probe_wait_for_droplet_ready w fuel id token :
  inv no_probe (wait_for_droplet_ready w fuel id token).
Proof. unfold wait_for_droplet_ready. no_probe_tac. Qed.
#[export] Hint Resolve no_probe_wait_for_droplet_ready : no_probe.

Lemma no_probe_provision_digitalocean w fuel : inv no_probe (provision_digitalocean w fuel).
Proof. unfold provision_digitalocean. no_probe_tac. Qed.
#[export] Hint Resolve no_probe_provision_digitalocean : no_probe.

Lemma no_probe_provision_vps w fuel : inv no_probe (provision_vps w fuel).
Proof. unfold provision_vps. no_probe_tac. Qed.
#[export] Hint Resolve no_probe_provision_vps : no_probe.

Lemma no_probe_create_cloudflare_dns_records w d :
  inv no_probe (create_cloudflare_dns_records w d).
Proof. unfold create_cloudflare_dns_records. no_probe_tac. Qed.
#[export] Hint Resolve no_probe_create_cloudflare_dns_records : no_probe.

Lemma no_probe_configure_dns_records w : inv no_probe (configure_dns_records w).
Proof. unfold configure_dns_records, create_dns_records_for_domain. no_probe_tac. Qed.
#[export] Hint Resolve no_probe_configure_dns_records : no_probe.

Lemma no_probe_exec_command w cmd : inv no_probe (exec_command w cmd).
Proof. unfold exec_command. no_probe_tac. Qed.
#[export] Hint Resolve no_probe_exec_command : no_probe.

Lemma no_probe_upload_file_content w path c : inv no_probe (upload_file_content w path c).
Proof. unfold upload_file_content. no_probe_tac. Qed.
#[export] Hint Resolve no_probe_upload_file_content : no_probe.

Lemma no_probe_primary_domain : inv no_probe primary_domain.
Proof. unfold primary_domain. no_probe_tac. Qed.
#[export] Hint Resolve no_probe_primary_domain : no_probe.

Lemma no_probe_setup_mail_server w fuel : inv no_probe (setup_mail_server w fuel).
Proof.
  unfold setup_mail_server, connect_ssh, wait_for_cloud_init, poll_cloud_init,
    configure_postfix, configure_dovecot, setup_ssl_certificates,
    create_mail_database_structure.
  no_probe_tac.
Qed.
#[export] Hint Resolve no_probe_setup_mail_server : no_probe.

Lemma no_probe_create_email_accounts w : inv no_probe (create_email_accounts w).
Proof.
  unfold create_email_accounts, create_single_email_account. no_probe_tac.
Qed.
#[export] Hint Resolve no_probe_create_email_accounts : no_probe.

Lemma no_probe_run_comprehensive_tests w : inv no_probe (run_comprehensive_tests w).
Proof.
  unfold run_comprehensive_tests, test_smtp_connectivity, test_imap_connectivity,
    test_ssl_certificates, test_dns_propagation.
  no_probe_tac.
Qed.
#[export] Hint Resolve no_probe_run_comprehensive_tests : no_probe.

Lemma no_probe_generate_final_report w : inv no_probe (generate_final_report w).
Proof. unfold generate_final_report. no_probe_tac. Qed.
#[export] Hint Resolve no_probe_generate_final_report : no_probe.

Lemma no_probe_pipeline w fuel : inv no_probe (pipeline w fuel).
Proof. unfold pipeline. no_probe_tac. Qed.

(** *** The session is released *)

Lemma cleanup_ssh_closes s :
  cleanup_ssh s = Some (Ok tt, closing s).
Proof.
  unfold cleanup_ssh, closing, bind, get, modify, ret.
  destruct (ssh_client s); reflexivity.
Qed.

(** From [P] to [Q], step by step. *)
Lemma post_bind_inv {A B} (P Q : State -> Prop) (m : M State A) (k : A -> M State B) :
  inv P m -> (forall s, P s -> Q s) -> (forall a, post P Q (k a)) ->
  post P Q (bind m k).
Proof.
  intros Hm Hpq Hk s r s' HP E.
  apply bind_some in E as [(a & s1 & E1 & E2) | (e & E1 & ->)].
  - eapply Hk; [|exact E2]. eapply Hm; eauto.
  - apply Hpq. eapply Hm; eauto.
Qed.

Lemma post_bind {A B} (P Q : State -> Prop) (m : M State A) (k : A -> M State B) :
  post P Q m -> (forall a, inv Q (k a)) -> post P Q (bind m k).
Proof.
  intros Hm Hk s r s' HP E.
  apply bind_some in E as [(a & s1 & E1 & E2) | (e & E1 & ->)].
  - eapply Hk; [|exact E2]. eapply Hm; eauto.
  - eapply Hm; eauto.
Qed.

(** The stages other than the opening of the session leave the client of
    the pipeline and the open sessions as they are. *)
Lemma session_note c n {A} (r : Result A) s :
  session_is c n s -> session_is c n (note r s).
Proof. destruct r; exact id. Qed.

Lemma session_ask c n w {A} (f : nat -> Result A) : inv (session_is c n) (ask w f).
Proof.
  intros s r s' H E. unfold ask in E. inversion E; subst.
  apply session_note. exact H.
Qed.

Lemma session_sleep c n w secs : inv (session_is c n) (sleep w secs).
Proof.
  intros s r s' H E. unfold sleep in E. inversion E; subst.
  apply session_note. exact H.
Qed.

Lemma session_exec_command c n w cmd : inv (session_is c n) (exec_command w cmd).
Proof.
  unfold exec_command.
  repeat first [apply session_ask | inv_step].
Qed.

Lemma session_upload_file_content c n w path text :
  inv (session_is c n) (upload_file_content w path text).
Proof.
  unfold upload_file_content.
  repeat first [apply session_ask | inv_step].
Qed.

Ltac session_tac :=
  repeat first
    [ apply session_exec_command
    | apply session_upload_file_content
    | apply session_ask
    | apply session_sleep
    | apply inv_modify; intros ? ?; assumption
    | inv_step ].

Lemma session_provision_vps c n w fuel : inv (session_is c n) (provision_vps w fuel).
Proof.
  unfold provision_vps, provision_digitalocean, wait_for_droplet_ready, wait_for_ssh,
    probe_connect, probe_close, generate_cloud_init_script, generate_secure_password,
    set_server_setting, config_item, print.
  session_tac.
Qed.

Lemma session_configure_dns_records c n w :
  inv (session_is c n) (configure_dns_records w).
Proof.
  unfold configure_dns_records, create_dns_records_for_domain,
    create_cloudflare_dns_records, config_item, print.
  session_tac.
Qed.

(** The mail-server stage once the session is open. *)
Lemma session_configure c n w fuel :
  inv (session_is c n)
    (wait_for_cloud_init w fuel ;;
     configure_postfix w ;;
     configure_dovecot w ;;
     setup_ssl_certificates w ;;
     create_mail_database_structure w ;;
     print [Lit "Mail server configured"]).
Proof.
  unfold wait_for_cloud_init, poll_cloud_init, configure_postfix, configure_dovecot,
    setup_ssl_certificates, create_mail_database_structure, primary_domain,
    config_item, print.
  session_tac.
Qed.

(** The stages after the mail server. *)
Lemma session_after_mail c n w :
  inv (session_is c n)
    (create_email_accounts w ;;
     test_results <- run_comprehensive_tests w ;;
     report_path <- generate_final_report w ;;
     s <- get ;;
     print [Lit "Automation completed successfully!"] ;;
     print [Lit "VPS IP: "; Fmt (vps_ip s)] ;;
     print [Lit "Email accounts: "; Fmt (VInt (Z.of_nat (length (email_accounts s))))] ;;
     print (Lit "Report: " :: report_path) ;;
     ret (Success (vps_ip s) (email_accounts s) report_path test_results)).
Proof.
  unfold create_email_accounts, create_single_email_account, generate_random_username,
    generate_secure_password, run_comprehensive_tests, test_smtp_connectivity,
    test_imap_connectivity, test_ssl_certificates, test_dns_propagation,
    generate_final_report, primary_domain, config_item, print.
  session_tac.
Qed.

(** What holds of the client and of the open sessions is kept by a
    computation that leaves both alone. *)
Lemma session_frame {A} (Q : option Session -> nat -> Prop) (m : M State A) :
  (forall c n, inv (session_is c n) m) ->
  inv (fun s => Q (ssh_client s) (open_sessions s)) m.
Proof.
  intros Hm s r s' HQ E.
  destruct (Hm (ssh_client s) (open_sessions s) s r s' (conj eq_refl eq_refl) E)
    as [-> ->].
  exact HQ.
Qed.

(** The pipeline opens one session at most, that of its current client,
    and a client it has is never forgotten. *)
Lemma one_session_at_most w fuel (had_client : bool) :
  post (fun s => open_sessions s = O /\ (had_client = true -> ssh_client s <> None))
       (fun s => (open_sessions s = O
                  \/ (open_sessions s = 1%nat /\ ssh_client s = Some Connected))
                 /\ (had_client = true -> ssh_client s <> None))
       (pipeline w fuel).
Proof.
  set (P := fun s : State =>
              open_sessions s = O /\ (had_client = true -> ssh_client s <> None)).
  set (Q := fun s : State =>
              (open_sessions s = O
               \/ (open_sessions s = 1%nat /\ ssh_client s = Some Connected))
              /\ (had_client = true -> ssh_client s <> None)).
  assert (HPQ : forall s, P s -> Q s) by (intros s [H0 H1]; split; [left|]; assumption).
  assert (HP : forall {A} (m : M State A),
            (forall c n, inv (session_is c n) m) -> inv P m).
  { intros A m Hm.
    apply (session_frame
             (fun c n => n = O /\ (had_client = true -> c <> None)) m Hm). }
  assert (HQ : forall {A} (m : M State A),
            (forall c n, inv (session_is c n) m) -> inv Q m).
  { intros A m Hm.
    apply (session_frame
             (fun c n => (n = O \/ (n = 1%nat /\ c = Some Connected))
                         /\ (had_client = true -> c <> None)) m Hm). }
  assert (Hprint : forall msg c n, inv (session_is c n) (print msg)).
  { intros msg c n. unfold print. apply inv_modify. intros ? ?. assumption. }
  unfold pipeline.
  apply post_bind_inv; [apply HP, Hprint | exact HPQ | intros _].
  apply post_bind_inv; [apply HP, Hprint | exact HPQ | intros _].
  apply post_bind_inv;
    [apply HP; intros; apply session_provision_vps | exact HPQ | intros _].
  apply post_bind_inv;
    [apply HP; intros; apply session_configure_dns_records | exact HPQ | intros _].
  apply post_bind.
  - unfold setup_mail_server.
    apply post_bind_inv; [apply HP, Hprint | exact HPQ | intros _].
    apply post_bind.
    + intros s r s' [H0 H1] E.
      unfold connect_ssh, modify, gets, ask, bind in E. cbn in E.
      destruct (ssh_connect w (tick s) (vps_ip s)) as [[]|e]; cbn in E;
        inversion E; subst; cbn; unfold Q; cbn.
      * split; [right; rewrite H0; auto | intros _; discriminate].
      * split; [left; exact H0 | intros _; discriminate].
    + intros _. apply HQ. intros c n. apply session_configure.
  - intros _. apply HQ. intros c n. apply session_after_mail.
Qed.

Lemma closing_released s :
  no_probe s ->
  open_sessions s = O \/ (open_sessions s = 1%nat /\ ssh_client s = Some Connected) ->
  released (closing s)
  /\ (ssh_client s <> None -> ssh_client (closing s) = Some Closed).
Proof.
  intros Hprobe Hopen. unfold released, closing, close.
  destruct (ssh_client s) as [[| |]|] eqn:E; cbn.
  - destruct Hopen as [H|[_ H]]; [|discriminate]. auto.
  - destruct Hopen as [->|[-> _]]; auto.
  - destruct Hopen as [H|[_ H]]; [|discriminate]. auto.
  - rewrite E. destruct Hopen as [H|[_ H]]; [|discriminate].
    split; [auto|]. intros H'. contradiction.
Qed.

(** C9. A run that starts with no session open ends with none open.
    However it ends - with the success dictionary, with the failure
    dictionary after an error of any stage, or by an interrupt that keeps
    propagating - when it hands back control no client the pipeline
    connected is still connected, the client of the pipeline, if there is
    one, is closed and not merely forgotten, and no probe client is
    connected; and an error of class [Exception] never leaves the run as an
    exception. *)
Theorem session_released_on_every_exit (w : World) (fuel : nat) (s : State)
    (r : Result RunResult) (s' : State) :
  no_probe s ->
  open_sessions s = O ->
  run_full_automation w fuel s = Some (r, s') ->
  released s'
  /\ (ssh_client s <> None -> ssh_client s' = Some Closed)
  /\ (forall e, r = Raise e -> is_Exception e = false).
Proof.
  intros Hs Hopen Hrun. unfold run_full_automation, try_finally in Hrun.
  match type of Hrun with
  | match ?body s with _ => _ end = _ => destruct (body s) as [[r1 s1]|] eqn:Hbody
  end; [|discriminate].
  rewrite cleanup_ssh_closes in Hrun. inversion Hrun; subst. clear Hrun.
  assert (Hprobe : no_probe s1).
  { revert Hbody. apply inv_try_except; [apply no_probe_pipeline| |exact Hs].
    intros e. apply inv_bind; [apply no_probe_print | intros; apply inv_ret]. }
  assert (Hsession :
            (open_sessions s1 = O
             \/ (open_sessions s1 = 1%nat /\ ssh_client s1 = Some Connected))
            /\ (ssh_client s <> None -> ssh_client s1 <> None)).
  { unfold try_except in Hbody.
    destruct (pipeline w fuel s) as [[r0 s0]|] eqn:Hpipe; [|discriminate].
    destruct (ssh_client s) as [c0|] eqn:Hc0.
    - pose proof (one_session_at_most w fuel true s r0 s0) as H.
      destruct H as [Hn Hc]; [split; [exact Hopen | rewrite Hc0; discriminate] | exact Hpipe |].
      specialize (Hc eq_refl).
      destruct r0 as [a|e]; [inversion Hbody; subst; auto|].
      destruct (is_Exception e).
      + unfold bind, print, modify, ret in Hbody. inversion Hbody; subst. cbn. auto.
      + inversion Hbody; subst. auto.
    - pose proof (one_session_at_most w fuel false s r0 s0) as H.
      destruct H as [Hn _]; [split; [exact Hopen | discriminate] | exact Hpipe |].
      destruct r0 as [a|e]; [inversion Hbody; subst; split; [exact Hn | contradiction]|].
      destruct (is_Exception e).
      + unfold bind, print, modify, ret in Hbody. inversion Hbody; subst. cbn.
        split; [exact Hn | contradiction].
      + inversion Hbody; subst. split; [exact Hn | contradiction]. }
  destruct Hsession as [Hn Hc].
  destruct (closing_released s1 Hprobe Hn) as [Hreleased Hclosed].
  split; [exact Hreleased|]. split.
  - intros H. apply Hclosed, Hc, H.
  - intros e ->. unfold try_except in Hbody.
    destruct (pipeline w fuel s) as [[[a|e0] s0]|]; try discriminate.
    destruct (is_Exception e0) eqn:He0.
    + unfold bind, print, modify, ret in Hbody. discriminate.
    + inversion Hbody; subst. exact He0.
Qed.

(** A run in which everything succeeds, and one whose fifth account
    creation raises: both have opened the session, and both end with the
    client closed and no session open. *)
Lemma session_released_on_every_exit_witness :
  (exists r s',
     run_full_automation Scenarios.all_succeed 3 (init Scenarios.three_domains)
       = Some (r, s')
     /\ released s' /\ ssh_client s' = Some Closed)
  /\ (exists r s',
        run_full_automation (Scenarios.exec_raises_at 76) 3 (init Scenarios.three_domains)
          = Some (r, s')
        /\ released s' /\ ssh_client s' = Some Closed).
Proof.
  split.
  - assert (E : exists r s',
               run_full_automation Scenarios.all_succeed 3 (init Scenarios.three_domains)
                 = Some (r, s')
               /\ ssh_client s' = Some Closed).
    { eexists _, _. split; vm_compute; reflexivity. }
    destruct E as (r & s' & E & Hc). exists r, s'. split; [exact E|].
    split; [|exact Hc].
    exact (proj1 (session_released_on_every_exit _ 3 (init Scenarios.three_domains)
                    r s' eq_refl eq_refl E)).
  - assert (E : exists r s',
               run_full_automation (Scenarios.exec_raises_at 76) 3
                 (init Scenarios.three_domains) = Some (r, s')
               /\ ssh_client s' = Some Closed).
    { eexists _, _. split; vm_compute; reflexivity. }
    destruct E as (r & s' & E & Hc). exists r, s'. split; [exact E|].
    split; [|exact Hc].
    exact (proj1 (session_released_on_every_exit _ 3 (init Scenarios.three_domains)
                    r s' eq_refl eq_refl E)).
Defined.

(** *** Errors of the outside are not swallowed *)

Lemma faithful_ret {A} (a : A) : faithful (ret a).
Proof. intros s r s' E. inversion E; subst. reflexivity. Qed.

Lemma faithful_raise {A} e : faithful (@raise State A e).
Proof. intros s r s' E. inversion E; subst. left. reflexivity. Qed.

Lemma faithful_lift {A} (x : Result A) : faithful (lift x).
Proof. intros s r s' E. inversion E; subst. destruct r; auto. Qed.

Lemma faithful_get : faithful (@get State).
Proof. intros s r s' E. inversion E; subst. reflexivity. Qed.

Lemma faithful_gets {A} (f : State -> A) : faithful (gets f).
Proof. intros s r s' E. inversion E; subst. reflexivity. Qed.

Lemma faithful_modify (f : State -> State) :
  (forall s, raised (f s) = raised s) -> faithful (modify f).
Proof. intros Hf s r s' E. inversion E; subst. apply Hf. Qed.

Lemma faithful_bind {A B} (m : M State A) (k : A -> M State B) :
  faithful m -> (forall a, faithful (k a)) -> faithful (bind m k).
Proof.
  intros Hm Hk s r s' E.
  apply bind_some in E as [(a & s1 & E1 & E2) | (e & E1 & ->)].
  - apply Hm in E1. apply Hk in E2. simpl in E1. rewrite E1 in E2. exact E2.
  - apply Hm in E1. exact E1.
Qed.

Lemma faithful_for_each {A} (l : list A) (body : A -> M State unit) :
  (forall x, faithful (body x)) -> faithful (for_each l body).
Proof.
  intros Hb. induction l as [|x l IH]; simpl.
  - apply faithful_ret.
  - apply faithful_bind; auto.
Qed.

Lemma faithful_while_true {R} fuel (body : M State (option R)) :
  faithful body -> faithful (while_true fuel body).
Proof.
  intros Hb. induction fuel as [|n IH]; simpl.
  - intros s r s' E. discriminate.
  - apply faithful_bind; auto. intros [v|]; [apply faithful_ret | exact IH].
Qed.

Lemma faithful_ask w {A} (f : nat -> Result A) : faithful (ask w f).
Proof.
  intros s r s' E. unfold ask in E. inversion E; subst.
  destruct (f (tick s)); simpl; auto.
Qed.

Lemma faithful_sleep w secs : faithful (sleep w secs).
Proof.
  intros s r s' E. unfold sleep in E. inversion E; subst.
  destruct (sleep_outcome w (tick s)); simpl; auto.
Qed.

Ltac faithful_tac :=
  repeat first
    [ apply faithful_ask
    | apply faithful_sleep
    | apply faithful_modify; intros ?; reflexivity
    | lazymatch goal with
      | |- faithful (bind _ _) => apply faithful_bind; [| intros ?]
      | |- faithful (ret _) => apply faithful_ret
      | |- faithful (raise _) => apply faithful_raise
      | |- faithful (lift _) => apply faithful_lift
      | |- faithful get => apply faithful_get
      | |- faithful (gets _) => apply faithful_gets
      | |- faithful (for_each _ _) => apply faithful_for_each; intros ?
      | |- faithful (while_true _ _) => apply faithful_while_true
      | |- faithful (if ?b then _ else _) => destruct b
      | |- faithful (match ?x with _ => _ end) => destruct x
      end ].

(** The mail-server stage has no handler: whatever the host or the
    session raises leaves the stage as it is. *)
Lemma faithful_setup_mail_server w fuel : faithful (setup_mail_server w fuel).
Proof.
  unfold setup_mail_server, connect_ssh, wait_for_cloud_init, poll_cloud_init,
    configure_postfix, configure_dovecot, setup_ssl_certificates,
    create_mail_database_structure, upload_file_content, exec_command,
    primary_domain, config_item, print.
  faithful_tac.
Qed.

(** Neither has the account stage. *)
Lemma faithful_create_email_accounts w : faithful (create_email_accounts w).
Proof.
  unfold create_email_accounts, create_single_email_account, exec_command,
    generate_random_username, generate_secure_password, config_item, print.
  faithful_tac.
Qed.

(** *** The account list only grows *)

Lemma appends_keep {A} (m : M State A) :
  (forall s r s', m s = Some (r, s') -> email_accounts s' = email_accounts s) ->
  appends m.
Proof.
  intros H s r s' E. exists []. rewrite app_nil_r. eapply H; eauto.
Qed.

Lemma appends_bind {A B} (m : M State A) (k : A -> M State B) :
  appends m -> (forall a, appends (k a)) -> appends (bind m k).
Proof.
  intros Hm Hk s r s' E.
  apply bind_some in E as [(a & s1 & E1 & E2) | (e & E1 & ->)].
  - apply Hm in E1 as [l1 E1]. apply Hk in E2 as [l2 E2].
    exists (app l1 l2). rewrite E2, E1, app_assoc. reflexivity.
  - apply Hm in E1. exact E1.
Qed.

Lemma appends_for_each {A} (l : list A) (body : A -> M State unit) :
  (forall x, appends (body x)) -> appends (for_each l body).
Proof.
  intros Hb. induction l as [|x l IH]; simpl.
  - apply appends_keep. intros s r s' E. inversion E; reflexivity.
  - apply appends_bind; auto.
Qed.

Lemma appends_ask w {A} (f : nat -> Result A) : appends (ask w f).
Proof.
  apply appends_keep. intros s r s' E. unfold ask in E. inversion E; subst.
  destruct (f (tick s)); reflexivity.
Qed.

Ltac appends_tac :=
  repeat first
    [ apply appends_ask
    | lazymatch goal with
      | |- appends (bind _ _) => apply appends_bind; [| intros ?]
      | |- appends (for_each _ _) => apply appends_for_each; intros ?
      | |- appends (if ?b then _ else _) => destruct b
      | |- appends (match ?x with _ => _ end) => destruct x
      | |- appends (modify (fun s => set_email_accounts (app (email_accounts s) ?l) s)) =>
          intros ? ? ? E; inversion E; subst; exists l; reflexivity
      | |- appends _ =>
          apply appends_keep; intros ? ? ? E; inversion E; subst; reflexivity
      end ].

Lemma appends_create_email_accounts w : appends (create_email_accounts w).
Proof.
  unfold create_email_accounts, create_single_email_account, exec_command,
    generate_random_username, generate_secure_password, config_item, print.
  appends_tac.
Qed.

(** *** A stage that raises ends the run *)

Lemma before_mail_then w fuel {B} (K : M State B) s0 :
  (print [Lit "Starting VPS Email Automation Pipeline"] ;;
   print [Lit "============================================================"] ;;
   provision_vps w fuel ;;
   configure_dns_records w ;;
   K) s0
  = bind (stages_before_mail w fuel) (fun _ => K) s0.
Proof.
  symmetry. unfold stages_before_mail.
  rewrite bind_assoc. apply bind_ext. intros _ s1.
  rewrite bind_assoc. apply bind_ext. intros _ s2.
  rewrite bind_assoc. reflexivity.
Qed.

Lemma before_accounts_then w fuel {B} (K : M State B) s0 :
  (print [Lit "Starting VPS Email Automation Pipeline"] ;;
   print [Lit "============================================================"] ;;
   provision_vps w fuel ;;
   configure_dns_records w ;;
   setup_mail_server w fuel ;;
   K) s0
  = bind (stages_before_accounts w fuel) (fun _ => K) s0.
Proof.
  unfold stages_before_accounts. rewrite bind_assoc. apply before_mail_then.
Qed.

Lemma run_aborts w fuel s0 e s' :
  pipeline w fuel s0 = Some (Raise e, s') ->
  run_full_automation w fuel s0 = Some (aborted e, after_abort e s').
Proof.
  intros H. unfold run_full_automation, try_finally, try_except. rewrite H.
  unfold aborted, after_abort. destruct (is_Exception e).
  - unfold bind, print, modify, ret. rewrite cleanup_ssh_closes. reflexivity.
  - rewrite cleanup_ssh_closes. reflexivity.
Qed.

(** C3 fails as stated: certificate issuance fails on the host ([certbot]
    exits with status 1), nothing inspects the exit status, and the run goes
    on through the later stages to the success outcome with all nine
    accounts. *)
Lemma failed_certificate_issuance_goes_unnoticed :
  exists ip accounts path tests s',
    run_full_automation Scenarios.certbot_fails 3 (init Scenarios.three_domains)
      = Some (Ok (Success ip accounts path tests), s')
    /\ length accounts = 9%nat.
Proof.
  eexists _, _, _, _, _. split; [vm_compute; reflexivity|]. reflexivity.
Qed.

(** C3, as the pipeline has it. If, once the stages before it have
    succeeded, anything raises during the mail-server configuration stage -
    the opening of the session, a file upload, the dispatch of a command -
    the stage raises that very exception, and the run ends there: no later
    stage runs, the state is the one of the failure, reported and with the
    session closed, and an [Exception] gives the failure outcome. *)
Theorem mail_server_error_aborts_job (w : World) (fuel : nat) (s0 s : State)
    (r : Result unit) (s' : State) :
  stages_before_mail w fuel s0 = Some (Ok tt, s) ->
  setup_mail_server w fuel s = Some (r, s') ->
  raised s' <> raised s ->
  exists e,
    r = Raise e
    /\ raised s' = app (raised s) [e]
    /\ run_full_automation w fuel s0 = Some (aborted e, after_abort e s')
    /\ (is_Exception e = true -> aborted e = Ok (Failure e))
    /\ email_accounts (after_abort e s') = email_accounts s'.
Proof.
  intros Hbefore Hstage Hraised.
  pose proof (faithful_setup_mail_server w fuel s r s' Hstage) as Hf.
  destruct r as [[]|e]; [contradiction|].
  destruct Hf as [Hf|Hf]; [contradiction|].
  exists e. split; [reflexivity|]. split; [exact Hf|]. split; [|split].
  - apply run_aborts. unfold pipeline. rewrite before_mail_then.
    rewrite (bind_step _ _ _ _ _ Hbefore).
    apply bind_raise. exact Hstage.
  - intros He. unfold aborted. rewrite He. reflexivity.
  - unfold after_abort, closing.
    destruct (is_Exception e); simpl; destruct (ssh_client s') as [[| |]|];
      reflexivity.
Qed.

(** The dispatch of the [certbot] command raises: the job fails. *)
Lemma mail_server_error_aborts_job_witness :
  exists s'',
    run_full_automation Scenarios.certbot_dispatch_raises 3 (init Scenarios.three_domains)
      = Some (Ok (Failure Scenarios.ChannelException), s'')
    /\ email_accounts s'' = [].
Proof.
  edestruct (mail_server_error_aborts_job Scenarios.certbot_dispatch_raises 3
               (init Scenarios.three_domains))
    as (e & He & Hr & Hrun & Hfail & Hacc).
  - vm_compute. reflexivity.
  - vm_compute. reflexivity.
  - vm_compute. discriminate.
  - inversion He; subst e. eexists. split; [exact Hrun|].
    rewrite Hacc. reflexivity.
Defined.

(** C1 fails as stated. Three domains, three accounts each: when the
    dispatch of the fifth account's insertion raises, the run ends with the
    failure outcome and four accounts; when that insertion is dispatched and
    fails on the host, the run succeeds with nine accounts and nothing
    recorded. Neither gives eight accounts and one recorded failure. *)
Lemma one_failing_account_call_fails_the_job :
  (exists s',
     run_full_automation (Scenarios.exec_raises_at 76) 3 (init Scenarios.three_domains)
       = Some (Ok (Failure Scenarios.ChannelException), s')
     /\ length (email_accounts s') = 4%nat)
  /\ (exists ip accounts path tests s',
        run_full_automation (Scenarios.exec_fails_remotely_at 76) 3
          (init Scenarios.three_domains)
          = Some (Ok (Success ip accounts path tests), s')
        /\ length accounts = 9%nat
        /\ raised s' = []).
Proof.
  split.
  - eexists. split; [vm_compute; reflexivity|]. reflexivity.
  - eexists _, _, _, _, _. split; [vm_compute; reflexivity|]. split; reflexivity.
Qed.

(** C1, as the pipeline has it. If, once the stages before it have
    succeeded, an account-creation call raises, the account stage raises
    that very exception and the run ends there: the accounts appended before
    the failure stay in the job, no further account is created, nothing is
    recorded for the failed account beyond the error of the run, and an
    [Exception] gives the failure outcome. *)
Theorem account_error_aborts_run (w : World) (fuel : nat) (s0 s : State)
    (r : Result (list Account)) (s' : State) :
  stages_before_accounts w fuel s0 = Some (Ok tt, s) ->
  create_email_accounts w s = Some (r, s') ->
  raised s' <> raised s ->
  exists e created,
    r = Raise e
    /\ raised s' = app (raised s) [e]
    /\ email_accounts s' = app (email_accounts s) created
    /\ run_full_automation w fuel s0 = Some (aborted e, after_abort e s')
    /\ (is_Exception e = true -> aborted e = Ok (Failure e))
    /\ email_accounts (after_abort e s') = email_accounts s'.
Proof.
  intros Hbefore Hstage Hraised.
  pose proof (faithful_create_email_accounts w s r s' Hstage) as Hf.
  destruct (appends_create_email_accounts w s r s' Hstage) as [created Hcreated].
  destruct r as [l|e]; [contradiction|].
  destruct Hf as [Hf|Hf]; [contradiction|].
  exists e, created. split; [reflexivity|]. split; [exact Hf|].
  split; [exact Hcreated|]. split; [|split].
  - apply run_aborts. unfold pipeline. rewrite before_accounts_then.
    rewrite (bind_step _ _ _ _ _ Hbefore).
    apply bind_raise. exact Hstage.
  - intros He. unfold aborted. rewrite He. reflexivity.
  - unfold after_abort, closing.
    destruct (is_Exception e); simpl; destruct (ssh_client s') as [[| |]|];
      reflexivity.
Qed.

(** The dispatch of the fifth account's insertion raises. *)
Lemma account_error_aborts_run_witness :
  exists s'',
    run_full_automation (Scenarios.exec_raises_at 76) 3 (init Scenarios.three_domains)
      = Some (Ok (Failure Scenarios.ChannelException), s'')
    /\ length (email_accounts s'') = 4%nat.
Proof.
  edestruct (account_error_aborts_run (Scenarios.exec_raises_at 76) 3
               (init Scenarios.three_domains))
    as (e & created & He & Hr & Hcreated & Hrun & Hfail & Hacc).
  - vm_compute. reflexivity.
  - vm_compute. reflexivity.
  - vm_compute. discriminate.
  - inversion He; subst e. eexists. split; [exact Hrun|].
    rewrite Hacc. reflexivity.
Defined.

(** *** The waits *)

(** While the marker is absent, a turn of the wait polls, sleeps and asks
    for another turn, the session staying open. *)
Lemma poll_cloud_init_again (s : State) :
  ssh_client s = Some Connected ->
  exists s',
    poll_cloud_init Scenarios.never_ready s = Some (Ok None, s')
    /\ ssh_client s' = Some Connected.
Proof.
  intros H. unfold poll_cloud_init, exec_command, bind, get. rewrite H.
  eexists. split; reflexivity || exact H.
Qed.

Lemma cloud_init_loop_never_ends (fuel : nat) (s : State) :
  ssh_client s = Some Connected ->
  while_true fuel (poll_cloud_init Scenarios.never_ready) s = None.
Proof.
  revert s. induction fuel as [|n IH]; intros s H; [reflexivity|].
  simpl. destruct (poll_cloud_init_again s H) as (s' & E & H').
  rewrite (bind_step _ _ _ _ _ E). apply IH. exact H'.
Qed.

Lemma cloud_init_wait_never_returns (fuel : nat) :
  wait_for_cloud_init Scenarios.never_ready fuel Scenarios.connected_job = None.
Proof.
  unfold wait_for_cloud_init, print, modify, bind.
  rewrite cloud_init_loop_never_ends; reflexivity.
Qed.

(** The sibling wait is bounded: when the host never accepts a
    connection, [wait_for_ssh] gives up, and not before the timeout has
    passed. *)
Section WaitForSSH.
Variable w : World.
Variable ip : Value.
Variable timeout : Z.
Hypothesis refused : forall t, exists e, ssh_connect w t ip = Raise e.
Hypothesis sleeps : forall t, sleep_outcome w t = Ok tt.

Lemma ssh_loop_gives_up (start : Z) (n : nat) (s : State) :
  timeout * 1000 - (now s - start) <= Z.of_nat n * 10000 ->
  exists s',
    while_cond (S n)
      (t <- gets now ;; ret (t - start <? timeout * 1000))
      (try_except_bare
         (probe_connect w ip ;; probe_close ;; print [Lit "SSH is ready"] ;;
          ret (Some true))
         (sleep w 10 ;; ret None))
      (ret false) s = Some (Ok false, s')
    /\ timeout * 1000 <= now s' - start
    /\ probe_sessions s' = probe_sessions s.
Proof.
  revert s. induction n as [|m IH]; intros s Hrem.
  - cbn [while_cond].
    rewrite (bind_step _ _ s (now s - start <? timeout * 1000) s eq_refl).
    destruct (now s - start <? timeout * 1000) eqn:Hc.
    + apply Z.ltb_lt in Hc. lia.
    + apply Z.ltb_ge in Hc. eexists. split; [reflexivity|]. split; [lia|reflexivity].
  - cbn [while_cond].
    rewrite (bind_step _ _ s (now s - start <? timeout * 1000) s eq_refl).
    destruct (now s - start <? timeout * 1000) eqn:Hc.
    + apply Z.ltb_lt in Hc.
      destruct (refused (tick s)) as [e He].
      set (s2 := set_time (S (S (tick s)))
                   (now s + Z.of_nat (latency w (tick s)) + 10 * 1000
                    + Z.of_nat (oversleep w (S (tick s))))
                   (note (@Raise unit e)
                      (set_time (S (tick s))
                         (now s + Z.of_nat (latency w (tick s))) s))).
      assert (Hturn :
        try_except_bare
          (probe_connect w ip ;; probe_close ;; print [Lit "SSH is ready"] ;;
           ret (Some true))
          (sleep w 10 ;; ret None) s = Some (Ok (@None bool), s2)).
      { unfold try_except_bare, probe_connect, ask, bind. rewrite He.
        unfold sleep. simpl. rewrite sleeps. reflexivity. }
      rewrite (bind_step _ _ _ _ _ Hturn).
      destruct (IH s2) as (s' & Hrun & Hlate & Hprobe).
      { unfold s2. simpl. lia. }
      exists s'. split; [exact Hrun|]. split; [exact Hlate|].
      rewrite Hprobe. reflexivity.
    + apply Z.ltb_ge in Hc. eexists. split; [reflexivity|]. split; [lia|reflexivity].
Qed.

(** X14. The wait for SSH is bounded. When the host refuses every
    connection and the sleeps end normally, [wait_for_ssh] returns [False],
    not before the timeout has passed, and leaves no probe client
    connected. *)
Lemma wait_for_ssh_gives_up (fuel : nat) (s : State) :
  (Z.to_nat (timeout / 10) + 2 <= fuel)%nat ->
  exists s',
    wait_for_ssh w fuel ip timeout s = Some (Ok false, s')
    /\ timeout * 1000 <= now s' - now s
    /\ probe_sessions s' = probe_sessions s.
Proof.
  intros Hfuel. destruct fuel as [|n]; [lia|].
  destruct (ssh_loop_gives_up (now s) n
              (set_printed
                 (app (printed s) [[Lit "Waiting for SSH on "; Fmt ip; Lit "..."]]) s))
    as (s' & Hrun & Hlate & Hprobe).
  { cbn [now set_printed].
    destruct (Z_lt_le_dec timeout 0) as [Hneg|Hpos]; [lia|].
    assert (Hdiv : timeout < 10 * (timeout / 10 + 1)).
    { pose proof (Z.mod_pos_bound timeout 10 ltac:(lia)).
      pose proof (Z.div_mod timeout 10 ltac:(lia)). lia. }
    assert (Hn : timeout / 10 + 1 <= Z.of_nat n).
    { assert (0 <= timeout / 10) by (apply Z.div_pos; lia). lia. }
    nia. }
  exists s'. split; [exact Hrun|]. split; [exact Hlate | exact Hprobe].
Qed.

End WaitForSSH.

(** With that host the mail-server stage, and so the whole run, is caught
    in the wait: it has not returned after any number of polls, although
    the provider reports the host active at once. *)
Lemma setup_never_returns (fuel : nat) (s : State) :
  setup_mail_server Scenarios.never_ready fuel s = None.
Proof.
  unfold setup_mail_server, connect_ssh, wait_for_cloud_init, print, modify, gets,
    ask, bind.
  simpl. rewrite cloud_init_loop_never_ends; reflexivity.
Qed.

Lemma full_run_never_returns (fuel : nat) :
  run_full_automation Scenarios.never_ready fuel (init Scenarios.three_domains) = None.
Proof.
  destruct fuel as [|n]; [reflexivity|].
  assert (E : exists s,
             stages_before_mail Scenarios.never_ready (S n)
               (init Scenarios.three_domains) = Some (Ok tt, s)).
  { eexists. vm_compute. reflexivity. }
  destruct E as [s E].
  unfold run_full_automation, try_finally, try_except, pipeline.
  rewrite before_mail_then, (bind_step _ _ _ _ _ E).
  unfold bind at 1. rewrite setup_never_returns. reflexivity.
Qed.

(** C2, at the failing input. On a host where the first-boot marker never
    appears, every remote call and every sleep succeeding, the wait for the
    marker has not returned after any number of polls, and neither has the
    full run that contains it: nothing bounds that wait, while the wait for
    SSH beside it gives up once its timeout has passed. *)
Theorem first_boot_wait_is_unbounded :
  forall fuel : nat,
    wait_for_cloud_init Scenarios.never_ready fuel Scenarios.connected_job = None
    /\ run_full_automation Scenarios.never_ready fuel (init Scenarios.three_domains)
       = None.
Proof.
  intros fuel. split.
  - apply cloud_init_wait_never_returns.
  - apply full_run_never_returns.
Qed.

End OrchestratorFacts.

(** ** More on the health monitor *)

Module MonitorExtra.
Import Monitor.

(** *** Loading the configuration *)

Lemma dict_get_set_same {A} (k : string) (v : A) (d : list (string * A)) :
  dict_get k (dict_set k v d) = Some v.
Proof.
  induction d as [|[k0 v0] d IH]; simpl.
  - rewrite String.eqb_refl. reflexivity.
  - destruct (String.eqb k k0) eqn:E; simpl; rewrite ?String.eqb_refl, ?E; auto.
Qed.

Lemma dict_get_set_other {A} (k k' : string) (v : A) (d : list (string * A)) :
  k <> k' -> dict_get k (dict_set k' v d) = dict_get k d.
Proof.
  intros Hne. apply String.eqb_neq in Hne.
  induction d as [|[k0 v0] d IH]; simpl.
  - rewrite Hne. reflexivity.
  - destruct (String.eqb k' k0) eqn:E; simpl.
    + apply String.eqb_eq in E. subst k0. rewrite Hne. reflexivity.
    + destruct (String.eqb k k0); auto.
Qed.

Lemma merge_defaults_lookup (defaults config : Dict) (k : string) :
  dict_get k (merge_defaults defaults config)
  = match dict_get k config with
    | Some v => Some v
    | None => dict_get k defaults
    end.
Proof.
  revert config. induction defaults as [|[key value] rest IH]; intros config.
  - simpl. destruct (dict_get k config); reflexivity.
  - simpl. rewrite IH. unfold dict_mem.
    destruct (String.eqb k key) eqn:Ek.
    + apply String.eqb_eq in Ek. subst key.
      destruct (dict_get k config) eqn:Eg.
      * rewrite Eg. reflexivity.
      * rewrite dict_get_set_same. reflexivity.
    + apply String.eqb_neq in Ek.
      destruct (dict_get key config) eqn:Eg; [reflexivity|].
      rewrite dict_get_set_other by exact Ek. reflexivity.
Qed.

(** X1. A configuration file that holds a JSON object is loaded with its
    own value for every top-level key it has, and with the built-in default
    for every top-level key it lacks; nothing is printed. *)
Theorem load_config_merges_top_level (fs : Files) (path : string) (config : Dict) :
  fs !! path = Some (JsonFile config) ->
  exists loaded,
    load_config fs path = (Ok loaded, [])
    /\ forall k, dict_get k loaded
                 = match dict_get k config with
                   | Some v => Some v
                   | None => dict_get k default_config
                   end.
Proof.
  intros H. exists (merge_defaults default_config config). split.
  - unfold load_config, open_json. rewrite H. reflexivity.
  - intros k. apply merge_defaults_lookup.
Qed.

Lemma load_config_merges_top_level_witness :
  exists loaded,
    load_config Scenarios.one_threshold_file Scenarios.monitor_config_path
      = (Ok loaded, [])
    /\ dict_get "check_interval" loaded = Some (VInt 300)
    /\ dict_get "thresholds" loaded = Some (VDict [("disk_usage", VInt 80)]).
Proof.
  destruct (load_config_merges_top_level Scenarios.one_threshold_file
              Scenarios.monitor_config_path
              [("thresholds", VDict [("disk_usage", VInt 80)])])
    as (loaded & Hload & Hget).
  - reflexivity.
  - exists loaded. split; [exact Hload|]. rewrite !Hget. split; reflexivity.
Defined.

(** *** The mail-queue probe *)

Lemma queue_size_of_nonneg (lines : list string) : 0 <= queue_size_of lines.
Proof.
  unfold queue_size_of. destruct (last lines) as [l|].
  - destruct (contains "Mail queue is empty" l); lia.
  - lia.
Qed.

(** X2. The mail-queue probe never lets an [Exception] out. When
    [postqueue] runs, the probe returns the depth read off its lines, which
    is never negative, and logs nothing; when running it raises an
    [Exception], the probe logs the error and returns -1. So -1 is returned
    exactly for a probe that failed. *)
Theorem mail_queue_probe_outcome (w : World) (s : State) :
  match postqueue_lines w (tick s) with
  | Ok lines =>
      check_mail_queue w s
      = Some (Ok (queue_size_of lines), set_tick (S (tick s)) s)
      /\ 0 <= queue_size_of lines
  | Raise e =>
      if is_Exception e
      then check_mail_queue w s
           = Some (Ok (-1),
                   set_events
                     (events s ++ [LogEv "ERROR"
                        [Lit "Error checking mail queue: "; fmt_exc e]])
                     (set_tick (S (tick s)) s))
      else check_mail_queue w s = Some (Raise e, set_tick (S (tick s)) s)
  end.
Proof.
  unfold check_mail_queue, try_except, ask, bind, log, modify, ret.
  destruct (postqueue_lines w (tick s)) as [lines|e].
  - split; [reflexivity | apply queue_size_of_nonneg].
  - destruct (is_Exception e); reflexivity.
Qed.

(** *** A probe and its alert *)

Lemma key_eqb_refl (k : Value) : hashable k = true -> key_eqb k k = true.
Proof.
  destruct k; simpl; try discriminate; intros _; unfold key_eqb; simpl;
    try reflexivity; try (apply Qeq_bool_iff; reflexivity).
  apply String.eqb_refl.
Qed.

Lemma vdict_get_set_same {A} (k : Value) (v : A) (d : list (Value * A)) :
  key_eqb k k = true -> vdict_get k (vdict_set k v d) = Some v.
Proof.
  intros Hk. induction d as [|[k0 v0] d IH]; simpl.
  - rewrite Hk. reflexivity.
  - destruct (key_eqb k k0) eqn:E; simpl; rewrite E; auto.
Qed.

(** X3. The service probe and its alert. For a service name that can be a
    dictionary key, on a monitor whose snapshot is under way, and unless the
    probe is interrupted: the check of one service records under that name
    whether [systemctl is-active] answered [active], and appends the alert
    [Service ... is not running] exactly when it did not - an answer other
    than [active] and an [Exception] raised by the probe alike. *)
Theorem service_probe_alert (w : World) (service : Value) (s : State) (st : Status) :
  status s = Some st ->
  hashable service = true ->
  (forall e, systemctl_is_active w (tick s) service = Raise e -> is_Exception e = true) ->
  let up := match systemctl_is_active w (tick s) service with
            | Ok out => String.eqb out "active"
            | Raise _ => false
            end in
  exists s' st',
    check_one_service w service s = Some (Ok tt, s')
    /\ status s' = Some st'
    /\ vdict_get service (services st') = Some up
    /\ alerts s'
       = app (alerts s)
             (if up then []
              else [[Lit "Service "; Fmt service; Lit " is not running"]]).
Proof.
  intros Hst Hh Hexc up. subst up.
  pose proof (key_eqb_refl service Hh) as Hk.
  destruct s as [cfg sts al tk ev rd]. simpl in Hst. subst sts.
  unfold check_one_service, check_service_status, check_hashable, update_status,
    the_status, try_except, ask, alert, log, bind, get, modify, ret.
  simpl in *. rewrite Hh.
  destruct (systemctl_is_active w tk service) as [out|e] eqn:Ereply.
  - simpl. rewrite (vdict_get_set_same service _ (services st) Hk).
    destruct (String.eqb out "active"); simpl.
    + eexists _, _. split; [reflexivity|]. split; [reflexivity|]. simpl.
      split; [apply vdict_get_set_same; exact Hk | rewrite app_nil_r; reflexivity].
    + eexists _, _. split; [reflexivity|]. split; [reflexivity|]. simpl.
      split; [apply vdict_get_set_same; exact Hk | reflexivity].
  - rewrite (Hexc e eq_refl). simpl.
    rewrite (vdict_get_set_same service _ (services st) Hk). simpl.
    eexists _, _. split; [reflexivity|]. split; [reflexivity|]. simpl.
    split; [apply vdict_get_set_same; exact Hk | reflexivity].
Qed.

(** On the healthy host the service is active: it is recorded, with no
    alert. *)
Lemma service_probe_alert_witness :
  exists s' st',
    check_one_service Scenarios.healthy_host (VStr "postfix")
      (set_status (Some
         {| timestamp := "t"; hostname := "mail"; services := []; ports := [];
            resources := no_resources; mail_queue := 0;
            ssl_status := {| ssl_valid := None; ssl_expires := None |};
            email_tests := []; overall_status := "healthy"; status_alerts := None |})
         Scenarios.default_monitor) = Some (Ok tt, s')
    /\ status s' = Some st'
    /\ vdict_get (VStr "postfix") (services st') = Some true
    /\ alerts s' = [].
Proof.
  edestruct (service_probe_alert Scenarios.healthy_host (VStr "postfix")
    (set_status (Some
       {| timestamp := "t"; hostname := "mail"; services := []; ports := [];
          resources := no_resources; mail_queue := 0;
          ssl_status := {| ssl_valid := None; ssl_expires := None |};
          email_tests := []; overall_status := "healthy"; status_alerts := None |})
       Scenarios.default_monitor)) as (s' & st' & Hrun & Hst & Hget & Hal).
  - reflexivity.
  - reflexivity.
  - intros e H. discriminate H.
  - exists s', st'. split; [exact Hrun|]. split; [exact Hst|].
    split; [exact Hget | exact Hal].
Defined.

(** *** The certificate probe *)

Lemma substring_at_start (y z : string) :
  substring 0 (String.length y) (y ++ z) = y.
Proof. induction y as [|c y IH]; simpl; [destruct z | rewrite IH]; reflexivity. Qed.

Lemma substring_in_middle (x y z : string) :
  substring (String.length x) (String.length y) (x ++ y ++ z) = y.
Proof. induction x as [|c x IH]; [exact (substring_at_start y z) | exact IH]. Qed.

Lemma contains_middle (needle pre post : string) :
  needle <> EmptyString -> contains needle (pre ++ needle ++ post) = true.
Proof.
  intros Hne. unfold contains.
  destruct (String.index 0 needle (pre ++ needle ++ post)) eqn:E; [reflexivity|].
  exfalso.
  apply (String.index_correct3 0 (String.length pre) _ _ E Hne); [lia|].
  apply substring_in_middle.
Qed.

Lemma string_app_assoc (x y z : string) : ((x ++ y) ++ z = x ++ (y ++ z))%string.
Proof.
  induction x as [|c x IH]; [reflexivity|].
  change (String c ((x ++ y) ++ z) = String c (x ++ (y ++ z)))%string.
  rewrite IH. reflexivity.
Qed.

(** X4. The certificate probe looks for the text [VALID] in the listing of
    [certbot certificates]. A listing that reports a certificate as
    [INVALID] contains that text: the probe returns the valid status for
    it. *)
Theorem invalid_certificate_reads_as_valid (w : World) (s : State) (before after : string) :
  certbot_certificates w (tick s) = Ok (before ++ "INVALID" ++ after) ->
  check_ssl_certificates w s
  = Some (Ok {| ssl_valid := Some true; ssl_expires := Some "Valid" |},
          set_tick (S (tick s)) s).
Proof.
  intros H. unfold check_ssl_certificates, try_except, ask, bind. rewrite H.
  change (before ++ "INVALID" ++ after)
    with (before ++ ("IN" ++ ("VALID" ++ after)))%string.
  rewrite <- string_app_assoc.
  rewrite contains_middle by discriminate. reflexivity.
Qed.

Lemma invalid_certificate_reads_as_valid_witness :
  check_ssl_certificates
    {| clock := clock Scenarios.healthy_host;
       run_hostname := run_hostname Scenarios.healthy_host;
       systemctl_is_active := systemctl_is_active Scenarios.healthy_host;
       connect_ex := connect_ex Scenarios.healthy_host;
       df_root := df_root Scenarios.healthy_host;
       meminfo_used_percent := meminfo_used_percent Scenarios.healthy_host;
       loadavg := loadavg Scenarios.healthy_host;
       postqueue_lines := postqueue_lines Scenarios.healthy_host;
       certbot_certificates := fun _ =>
         Ok ("Expiry Date: 2025-01-01 (" ++ "INVALID" ++ ": EXPIRED)");
       smtp_starttls := smtp_starttls Scenarios.healthy_host;
       smtp_login := smtp_login Scenarios.healthy_host;
       imap_ssl := imap_ssl Scenarios.healthy_host;
       imap_login := imap_login Scenarios.healthy_host;
       webhook_post := webhook_post Scenarios.healthy_host;
       sleep_outcome := sleep_outcome Scenarios.healthy_host;
       report_io := report_io Scenarios.healthy_host |}
    Scenarios.default_monitor
  = Some (Ok {| ssl_valid := Some true; ssl_expires := Some "Valid" |},
          set_tick 1 Scenarios.default_monitor).
Proof.
  apply (invalid_certificate_reads_as_valid _ Scenarios.default_monitor
           "Expiry Date: 2025-01-01 (" ": EXPIRED)").
  reflexivity.
Defined.

(** *** Notification *)

(** X5. A notification is never fatal. Sending it returns unless it is
    interrupted: an [Exception] of the request is logged, and so is a status
    other than 200. It touches neither the alerts, nor the snapshot, nor the
    report directory; and without a webhook URL - the key missing or its
    value empty - it does nothing at all. *)
Theorem notification_is_never_fatal (w : World) (st : Status) (s : State) :
  match send_webhook_notification w st s with
  | Some (Ok _, s') =>
      alerts s' = alerts s /\ status s' = status s /\ report_dir s' = report_dir s
      /\ config s' = config s
      /\ (truthy (default VNone (dict_get "webhook_url" (config s))) = false -> s' = s)
  | Some (Raise e, _) => is_Exception e = false
  | None => False
  end.
Proof.
  unfold send_webhook_notification, try_except, ask, log, lift, getitem,
    bind, gets, modify, ret.
  destruct (dict_get "webhook_url" (config s)) as [url|] eqn:Eurl; simpl.
  - destruct (truthy url) eqn:Et; simpl.
    + destruct (webhook_post w (tick s) url) as [code|e]; simpl.
      * destruct (code =? 200); simpl; repeat split; auto; discriminate.
      * destruct e; simpl; repeat split; auto; discriminate.
    + repeat split; auto.
  - repeat split; auto.
Qed.

(** *** The loop *)

Lemma loop_turn_outcome (w : World) (s : State) (r : Result (option unit)) (s' : State) :
  (forall t e, sleep_outcome w t = Raise e -> is_Exception e = false) ->
  loop_turn w s = Some (r, s') ->
  match r with
  | Ok None => True
  | Ok (Some _) =>
      last (events s') = Some (LogEv "INFO" [Lit "Monitoring stopped by user"])
  | Raise e => is_Exception e = false
  end.
Proof.
  intros Hsleep H. unfold loop_turn in H.
  destruct (monitoring_cycle w s) as [[[[]|e] s1]|]; [| |discriminate].
  - inversion H; subst. exact I.
  - destruct e as [cls msg| |code].
    + unfold sleep, ask, log, bind, modify, ret in H. simpl in H.
      destruct (sleep_outcome w (tick s1)) as [[]|e] eqn:E; inversion H; subst.
      * exact I.
      * eapply Hsleep. exact E.
    + unfold log, bind, modify, ret in H. inversion H; subst. simpl.
      apply last_snoc.
    + inversion H; subst. reflexivity.
Qed.

(** X6. The monitoring loop survives its cycles. Provided the sleep itself
    raises no [Exception], the loop is left in two ways only: by the [break]
    that follows a [KeyboardInterrupt], the last thing logged being that the
    monitoring was stopped by the user, or by an exception that is no
    [Exception]. An [Exception] raised inside a cycle never ends it. *)
Theorem monitoring_loop_survives_errors (w : World) (fuel : nat) (s : State)
    (r : Result unit) (s' : State) :
  (forall t e, sleep_outcome w t = Raise e -> is_Exception e = false) ->
  run_continuous_monitoring w fuel s = Some (r, s') ->
  (r = Ok tt
   /\ last (events s') = Some (LogEv "INFO" [Lit "Monitoring stopped by user"]))
  \/ (exists e, r = Raise e /\ is_Exception e = false).
Proof.
  intros Hsleep H. unfold run_continuous_monitoring in H.
  apply bind_some in H as [(? & s0 & _ & H) | (e & E & _)]; [|discriminate E].
  clear s. revert s0 H. induction fuel as [|n IH]; intros s H; [discriminate|].
  simpl in H.
  apply bind_some in H as [(o & s1 & Hturn & H) | (e & Hturn & ->)].
  - pose proof (loop_turn_outcome w s _ _ Hsleep Hturn) as Hout.
    destruct o as [[]|].
    + inversion H; subst. left. split; [reflexivity | exact Hout].
    + apply IH in H. exact H.
  - pose proof (loop_turn_outcome w s _ _ Hsleep Hturn) as Hout.
    right. exists e. split; [reflexivity | exact Hout].
Qed.

(** A healthy host and a user who interrupts the first sleep: the loop
    ends by the [break]. *)
Lemma monitoring_loop_survives_errors_witness :
  exists r s',
    run_continuous_monitoring
      {| clock := clock Scenarios.healthy_host;
         run_hostname := run_hostname Scenarios.healthy_host;
         systemctl_is_active := systemctl_is_active Scenarios.healthy_host;
         connect_ex := connect_ex Scenarios.healthy_host;
         df_root := df_root Scenarios.healthy_host;
         meminfo_used_percent := meminfo_used_percent Scenarios.healthy_host;
         loadavg := loadavg Scenarios.healthy_host;
         postqueue_lines := postqueue_lines Scenarios.healthy_host;
         certbot_certificates := certbot_certificates Scenarios.healthy_host;
         smtp_starttls := smtp_starttls Scenarios.healthy_host;
         smtp_login := smtp_login Scenarios.healthy_host;
         imap_ssl := imap_ssl Scenarios.healthy_host;
         imap_login := imap_login Scenarios.healthy_host;
         webhook_post := webhook_post Scenarios.healthy_host;
         sleep_outcome := fun _ => Raise KeyboardInterrupt;
         report_io := report_io Scenarios.healthy_host |}
      5 Scenarios.default_monitor = Some (r, s')
    /\ ((r = Ok tt
         /\ last (events s') = Some (LogEv "INFO" [Lit "Monitoring stopped by user"]))
        \/ (exists e, r = Raise e /\ is_Exception e = false)).
Proof.
  match goal with
  | |- exists r s', run_continuous_monitoring ?W ?f ?s0 = _ /\ _ =>
      pose proof (monitoring_loop_survives_errors W f s0) as T;
      destruct (run_continuous_monitoring W f s0) as [[r s']|] eqn:E
  end.
  - exists r, s'. split; [reflexivity|]. apply T; [|reflexivity].
    intros t e H. inversion H. reflexivity.
  - vm_compute in E. discriminate E.
Defined.

(** *** One check from the command line *)

Lemma severity_healthy (n : nat) :
  String.eqb (severity n) "healthy" = Nat.eqb n 0.
Proof.
  unfold severity. destruct n as [|n]; [reflexivity|]. simpl.
  destruct (Nat.leb n 1); reflexivity.
Qed.

(** The save returns, whatever the directory does, and what it raises is
    no [Exception]. *)
Lemma save_status_report_returns (w : World) (st : Status) (s : State) :
  exists r s',
    save_status_report w st s = Some (r, s')
    /\ forall e, r = Raise e -> is_Exception e = false.
Proof.
  assert (Hask : forall A (f : nat -> Result A), total (ask f)).
  { intros A f s0. eexists _, _. reflexivity. }
  assert (Htotal : total (save_status_report w st)).
  { unfold save_status_report, write_report, log.
    apply total_try_except; [|intros e; apply total_modify].
    repeat first
      [ apply total_bind; [|intros ?]
      | apply Hask | apply total_gets | apply total_modify | apply total_ret ].
    destruct (100 <? length _)%nat; [|apply total_ret].
    apply total_for_each. intros old. unfold unlink.
    apply total_bind; [apply Hask | intros _; apply total_modify]. }
  destruct (Htotal s) as (r & s' & Hrun). exists r, s'. split; [exact Hrun|].
  intros e ->. eapply try_except_raise; [|exact Hrun].
  intros e0 s0 r s1 H. inversion H; subst. eauto.
Qed.

(** A save that cannot create the directory logs the error and leaves the
    directory as it was. *)
Lemma save_status_report_mkdir_fails (w : World) (st : Status) (s : State) (e : PyExc) :
  io_mkdir (report_io w) (tick s) = Raise e ->
  is_Exception e = true ->
  exists s',
    save_status_report w st s = Some (Ok tt, s')
    /\ report_dir s' = report_dir s
    /\ events s'
       = app (events s) [LogEv "ERROR" [Lit "Error saving health report: "; fmt_exc e]].
Proof.
  intros Hmkdir He.
  unfold save_status_report, try_except, ask, log, modify.
  unfold bind at 1. rewrite Hmkdir, He.
  eexists. split; [reflexivity|]. destruct s; cbn. auto.
Qed.

(** X7. The exit status of [--once]. When the health check returns a
    snapshot and the notification returns, the save of the report returns
    too, and unless it is interrupted the process exits with status 0 when
    the alert list is empty after the check and with status 1 otherwise:
    whether the report was saved has no part in the status. When the
    operations on the report directory succeed the report is stored and
    the directory trimmed to a hundred reports; when the directory cannot
    be created the error is logged, the directory is left as it was, and
    the exit status is the same. *)
Theorem once_exit_status (w : World) (s : State) (st : Status) (s1 s2 : State) :
  run_health_check w s = Some (Ok st, s1) ->
  send_webhook_notification w st s1 = Some (Ok tt, s2) ->
  let code := if Nat.eqb (length (alerts s1)) 0 then 0 else 1 in
  let name := report_name (clock w (S (tick s2)) "%Y%m%d_%H%M%S") in
  (exists r s3,
     main_once w s = Some (Raise r, s3)
     /\ (r = SystemExit code /\ save_status_report w st s2 = Some (Ok tt, s3)
         \/ is_Exception r = false
            /\ save_status_report w st s2 = Some (Raise r, s3)))
  /\ (io_mkdir (report_io w) (tick s2) = Ok tt ->
      io_open (report_io w) (S (tick s2)) name = Ok tt ->
      io_dump (report_io w) (S (S (tick s2))) name = Ok tt ->
      io_glob (report_io w) (S (S (S (tick s2)))) = Ok tt ->
      (forall t old, io_unlink (report_io w) t old = Ok tt) ->
      exists s3,
        main_once w s = Some (Raise (SystemExit code), s3)
        /\ report_dir s3 = keep_last_100 (<[name := Snapshot st]> (report_dir s2)))
  /\ (forall e,
        io_mkdir (report_io w) (tick s2) = Raise e ->
        is_Exception e = true ->
        exists s3,
          main_once w s = Some (Raise (SystemExit code), s3)
          /\ report_dir s3 = report_dir s2
          /\ events s3
             = app (events s2)
                 [LogEv "ERROR" [Lit "Error saving health report: "; fmt_exc e]]).
Proof.
  intros Hcheck Hnotify code name.
  destruct (MonitorFacts.run_health_check_spec w s st s1 Hcheck) as (_ & Hsev & _).
  assert (Hmain : forall r3 s3,
            save_status_report w st s2 = Some (r3, s3) ->
            main_once w s
            = Some (match r3 with
                    | Ok _ => Raise (SystemExit code)
                    | Raise e => Raise e
                    end, s3)).
  { intros r3 s3 Hsave. unfold main_once.
    rewrite (bind_step _ _ _ _ _ Hcheck), (bind_step _ _ _ _ _ Hnotify).
    rewrite Hsev, severity_healthy. fold code.
    unfold bind. rewrite Hsave. destruct r3; reflexivity. }
  split; [|split].
  - destruct (save_status_report_returns w st s2) as ([[]|e] & s3 & Hsave & Hexc).
    + exists (SystemExit code), s3. split; [apply (Hmain _ _ Hsave)|]. left. auto.
    + exists e, s3. split; [apply (Hmain _ _ Hsave)|]. right. auto.
  - intros Hmkdir Hopen Hdump Hglob Hunlink.
    destruct (MonitorFacts.save_status_report_succeeds w st s2
                Hmkdir Hopen Hdump Hglob Hunlink) as (s3 & Hsave & Hdir & _).
    exists s3. split; [apply (Hmain _ _ Hsave) | exact Hdir].
  - intros e Hmkdir He.
    destruct (save_status_report_mkdir_fails w st s2 e Hmkdir He)
      as (s3 & Hsave & Hdir & Hev).
    exists s3. split; [apply (Hmain _ _ Hsave) | auto].
Qed.

(** On a host whose log directory cannot be created the check still exits
    with the status of the verdict, and no report is there. *)
Lemma once_exit_status_witness :
  exists s3,
    main_once Scenarios.read_only_log_dir Scenarios.default_monitor
    = Some (Raise (SystemExit 0), s3)
    /\ report_dir s3 = report_dir Scenarios.default_monitor
    /\ last (events s3)
       = Some (LogEv "ERROR"
                 [Lit "Error saving health report: ";
                  fmt_exc Scenarios.PermissionError]).
Proof.
  destruct (run_health_check Scenarios.read_only_log_dir Scenarios.default_monitor)
    as [[[st|e] s1]|] eqn:Hcheck; [|vm_compute in Hcheck; discriminate..].
  destruct (send_webhook_notification Scenarios.read_only_log_dir st s1)
    as [[[[]|e] s2]|] eqn:Hnotify;
    [|vm_compute in Hcheck; inversion Hcheck; subst;
      vm_compute in Hnotify; discriminate..].
  destruct (once_exit_status _ _ _ _ _ Hcheck Hnotify) as (_ & _ & Hfail).
  destruct (Hfail Scenarios.PermissionError) as (s3 & Hrun & Hdir & Hev).
  - vm_compute in Hcheck. inversion Hcheck; subst.
    vm_compute in Hnotify. inversion Hnotify; subst. reflexivity.
  - reflexivity.
  - exists s3.
    vm_compute in Hcheck. inversion Hcheck; subst.
    vm_compute in Hnotify. inversion Hnotify; subst.
    split; [exact Hrun|]. split; [exact Hdir|].
    rewrite Hev. rewrite last_snoc. reflexivity.
Defined.

End MonitorExtra.

(** ** More on the DNS analyser *)

Module DNSExtra.
Import DNS.
Import Propagation.

(** *** The MX records *)

Lemma insert_by_priority_perm (x : MX) (l : list MX) :
  insert_by_priority x l ≡ₚ x :: l.
Proof.
  induction l as [|y l IH]; simpl; [reflexivity|].
  destruct (priority x <? priority y); [reflexivity|].
  rewrite IH. apply Permutation_swap.
Qed.

Lemma insert_by_priority_sorted (x : MX) (l : list MX) :
  StronglySorted by_priority l -> StronglySorted by_priority (insert_by_priority x l).
Proof.
  induction l as [|y l IH]; intros Hs; simpl.
  - repeat constructor.
  - apply StronglySorted_inv in Hs as [Hl Hy].
    destruct (priority x <? priority y) eqn:E.
    + apply Z.ltb_lt in E. constructor.
      * constructor; assumption.
      * constructor; [unfold by_priority; lia|].
        eapply Forall_impl; [exact Hy|]. unfold by_priority. intros z Hz. lia.
    + apply Z.ltb_ge in E. constructor; [apply IH; exact Hl|].
      rewrite insert_by_priority_perm. constructor; [exact E | exact Hy].
Qed.

(** Records of one priority stay in the order they came in. *)
Lemma insert_by_priority_stable (p : Z) (x : MX) (l : list MX) :
  StronglySorted by_priority l ->
  filter (fun r => priority r = p) (insert_by_priority x l)
  = app (filter (fun r => priority r = p) l)
        (filter (fun r => priority r = p) [x]).
Proof.
  induction l as [|y l IH]; intros Hs; simpl; [reflexivity|].
  apply StronglySorted_inv in Hs as [Hl Hy].
  destruct (priority x <? priority y) eqn:E.
  - apply Z.ltb_lt in E.
    rewrite !filter_cons, filter_nil.
    destruct (decide (priority x = p)) as [Hx|Hx].
    + assert (Hnone : filter (fun r => priority r = p) l = []).
      { clear IH Hl. induction Hy as [|z l Hz Hy IH]; [reflexivity|].
        rewrite filter_cons.
        destruct (decide (priority z = p)); [unfold by_priority in Hz; lia | exact IH]. }
      destruct (decide (priority y = p)); [lia|].
      rewrite Hnone. reflexivity.
    + rewrite app_nil_r. reflexivity.
  - apply Z.ltb_ge in E. rewrite !filter_cons. rewrite (IH Hl).
    destruct (decide (priority y = p)); reflexivity.
Qed.

Lemma sorted_from (l acc : list MX) :
  StronglySorted by_priority acc ->
  let sorted := foldl (fun acc x => insert_by_priority x acc) acc l in
  StronglySorted by_priority sorted
  /\ sorted ≡ₚ app acc l
  /\ forall p, filter (fun r => priority r = p) sorted
               = app (filter (fun r => priority r = p) acc)
                     (filter (fun r => priority r = p) l).
Proof.
  revert acc. induction l as [|x l IH]; intros acc Hs; simpl.
  - rewrite app_nil_r. split; [exact Hs|]. split; [reflexivity|].
    intros p. rewrite filter_nil, app_nil_r. reflexivity.
  - destruct (IH (insert_by_priority x acc) (insert_by_priority_sorted x acc Hs))
      as (Hsorted & Hperm & Hstable).
    split; [exact Hsorted|]. split.
    + rewrite Hperm, insert_by_priority_perm. simpl. apply Permutation_middle.
    + intros p. rewrite Hstable, (insert_by_priority_stable p x acc Hs).
      rewrite <- app_assoc, <- (filter_app _ [x] l). reflexivity.
Qed.

(** *** Trailing dots *)

Lemma rstrip_dot_no_trailing_dot (x t : string) : rstrip_dot x <> (t ++ ".")%string.
Proof.
  revert t. induction x as [|c x IH]; intros t; simpl.
  - destruct t; discriminate.
  - destruct (rstrip_dot x) as [|k ks] eqn:E.
    + destruct (Ascii.eqb c ".") eqn:Ec.
      * destruct t; discriminate.
      * destruct t as [|d t]; simpl.
        -- intros H. inversion H; subst. discriminate Ec.
        -- destruct t; discriminate.
    + destruct t as [|d t]; simpl.
      * discriminate.
      * intros H. inversion H; subst. eapply IH. eassumption.
Qed.

Lemma collect_mx_servers (lines : list DigLine) (acc recs : list MX) :
  collect_mx lines acc = Ok recs ->
  Forall (fun r => forall t, server r <> (t ++ ".")%string) acc ->
  Forall (fun r => forall t, server r <> (t ++ ".")%string) recs.
Proof.
  revert acc. induction lines as [|line lines IH]; intros acc H Hacc; simpl in H.
  - inversion H; subst. exact Hacc.
  - destruct (parts line) as [|a [|b rest]]; try (eapply IH; eassumption).
    destruct (int_of_first line) as [p|e]; [|discriminate].
    eapply IH; [exact H|].
    apply Forall_app. split; [exact Hacc|].
    constructor; [|constructor]. simpl. apply rstrip_dot_no_trailing_dot.
Qed.

(** X8. The MX records of a domain. Unless it is interrupted,
    [get_mx_records] returns a list in ascending order of priority whose
    server names carry no final dot. When every line parses, the list holds
    exactly the records of the lines with two parts or more, and records of
    one priority keep the order of the lines; when the query or a priority
    fails, the list is empty. *)
Theorem mx_records_sorted_by_priority (w : DNS.World) (s : DNS.State) :
  match get_mx_records w s with
  | Some (Ok mx, s') =>
      StronglySorted by_priority mx
      /\ Forall (fun r => forall t, server r <> (t ++ ".")%string) mx
      /\ match dig_mx w (DNS.tick s) (domain s) with
         | Ok lines =>
             match collect_mx lines [] with
             | Ok recs =>
                 mx ≡ₚ recs
                 /\ forall p, filter (fun r => priority r = p) mx
                              = filter (fun r => priority r = p) recs
             | Raise _ => mx = []
             end
         | Raise _ => mx = []
         end
  | Some (Raise e, _) => is_Exception e = false
  | None => False
  end.
Proof.
  unfold get_mx_records, try_except, DNS.ask, DNS.warn, lift, bind, get, modify, ret.
  destruct (dig_mx w (DNS.tick s) (domain s)) as [lines|e]; simpl.
  - destruct (collect_mx lines []) as [recs|e] eqn:Ec; simpl.
    + destruct (sorted_from recs [] (SSorted_nil _)) as (Hsorted & Hperm & Hstable).
      split; [exact Hsorted|]. split.
      * unfold sorted_by_priority. rewrite Hperm. simpl.
        eapply collect_mx_servers; [exact Ec | constructor].
      * split; [exact Hperm | exact Hstable].
    + destruct e; simpl; auto; repeat split; constructor.
  - destruct e; simpl; auto; repeat split; constructor.
Qed.

Lemma collect_mx_bad_line (lines : list DigLine) (acc : list MX) :
  (exists line a b rest e,
     line ∈ lines /\ parts line = a :: b :: rest /\ int_of_first line = Raise e) ->
  exists line e, line ∈ lines /\ int_of_first line = Raise e
                 /\ collect_mx lines acc = Raise e.
Proof.
  revert acc. induction lines as [|l lines IH]; intros acc (line & a & b & rest & e & Hin & Hp & He).
  - inversion Hin.
  - simpl. destruct (parts l) as [|a' [|b' rest']] eqn:El.
    + apply elem_of_cons in Hin as [->|Hin]; [congruence|].
      destruct (IH acc) as (l2 & e2 & Hin2 & He2 & Hc); [eauto 10|].
      exists l2, e2. split; [right; exact Hin2 | auto].
    + apply elem_of_cons in Hin as [->|Hin]; [congruence|].
      destruct (IH acc) as (l2 & e2 & Hin2 & He2 & Hc); [eauto 10|].
      exists l2, e2. split; [right; exact Hin2 | auto].
    + destruct (int_of_first l) as [p|e1] eqn:E1.
      * apply elem_of_cons in Hin as [->|Hin]; [congruence|].
        destruct (IH (app acc [{| priority := p; server := rstrip_dot b' |}]))
          as (l2 & e2 & Hin2 & He2 & Hc); [eauto 10|].
        exists l2, e2. split; [right; exact Hin2 | auto].
      * exists l, e1. split; [left | auto].
Qed.

(** X9. One bad line discards them all. When the MX query answers, a single
    line of two parts or more whose priority is no integer makes
    [get_mx_records] return the empty list, whatever the other lines hold,
    and print a warning. *)
Theorem one_bad_priority_discards_all (w : DNS.World) (s : DNS.State)
    (lines : list DigLine) :
  dig_mx w (DNS.tick s) (domain s) = Ok lines ->
  (forall line e, line ∈ lines -> int_of_first line = Raise e -> is_Exception e = true) ->
  (exists line a b rest e,
     line ∈ lines /\ parts line = a :: b :: rest /\ int_of_first line = Raise e) ->
  exists e s',
    get_mx_records w s = Some (Ok [], s')
    /\ DNS.printed s'
       = app (DNS.printed s)
             [[Lit "warning: "; Lit "Could not get MX records: "; fmt_exc e]].
Proof.
  intros Hdig Hexc Hbad.
  destruct (collect_mx_bad_line lines [] Hbad) as (line & e & Hin & He & Hc).
  exists e. unfold get_mx_records, try_except, DNS.ask, DNS.warn, lift, bind, get,
    modify, ret.
  rewrite Hdig. simpl. rewrite Hc. simpl. rewrite (Hexc line e Hin He).
  eexists. split; reflexivity.
Qed.

Lemma one_bad_priority_discards_all_witness :
  exists e s',
    get_mx_records
      (Scenarios.resolver
         [ {| parts := ["10"; "mail.example.com."]; int_of_first := Ok 10 |};
           {| parts := ["x"; "mx.example.com."];
              int_of_first := Raise (Exception_ "ValueError" [Lit "invalid literal"]) |} ])
      (DNS.init "example.com") = Some (Ok [], s')
    /\ DNS.printed s'
       = [[Lit "warning: "; Lit "Could not get MX records: "; fmt_exc e]].
Proof.
  edestruct (one_bad_priority_discards_all
    (Scenarios.resolver
       [ {| parts := ["10"; "mail.example.com."]; int_of_first := Ok 10 |};
         {| parts := ["x"; "mx.example.com."];
            int_of_first := Raise (Exception_ "ValueError" [Lit "invalid literal"]) |} ])
    (DNS.init "example.com")) as (e & s' & Hrun & Hprinted).
  - reflexivity.
  - intros line e Hin He.
    apply elem_of_cons in Hin as [->|Hin]; [discriminate He|].
    apply elem_of_cons in Hin as [->|Hin]; [inversion He; reflexivity|].
    inversion Hin.
  - eexists _, _, _, _, _. split; [right; left|]. split; reflexivity.
  - exists e, s'. split; [exact Hrun | exact Hprinted].
Defined.

(** *** The wait for propagation *)

Section WaitForDNS.
Variable w : Propagation.World.
Variable dom : string.
Variable timeout : Z.
Hypothesis never : forall t lines,
  dig_lines w t dom = Ok lines -> shows_mail_host dom lines = false.
Hypothesis errors : forall t e,
  dig_lines w t dom = Raise e -> is_Exception e = true.
Hypothesis sleeps : forall t, Propagation.sleep_outcome w t = Ok tt.

Lemma poll_again (start : Z) (s : Propagation.State) :
  exists s2,
    poll w dom start s = Some (Ok None, s2)
    /\ Propagation.now s + 30000 <= Propagation.now s2.
Proof.
  unfold poll, try_except, Propagation.ask, bind.
  destruct (dig_lines w (Propagation.tick s) dom) as [lines|e] eqn:E.
  - rewrite (never _ _ E). unfold gets. cbn [Propagation.now set_time].
    match goal with |- context [if ?c then _ else _] => destruct c end;
      unfold Propagation.log, modify, ret, Propagation.sleep;
      cbn [Propagation.tick Propagation.now Propagation.set_printed set_time];
      rewrite sleeps; eexists; (split; [reflexivity|]);
      cbn [Propagation.now set_time]; lia.
  - rewrite (errors _ _ E).
    unfold Propagation.warn, modify, ret, Propagation.sleep.
    cbn [Propagation.tick Propagation.now Propagation.set_printed set_time].
    rewrite sleeps. eexists. split; [reflexivity|].
    cbn [Propagation.now set_time]. lia.
Qed.

Lemma dns_loop_gives_up (start : Z) (n : nat) (s : Propagation.State) :
  timeout * 1000 - (Propagation.now s - start) <= Z.of_nat n * 30000 ->
  exists s',
    while_cond (S n)
      (t <- gets Propagation.now ;; ret (t - start <? timeout * 1000))
      (poll w dom start)
      (Propagation.warn [Lit "DNS propagation timeout for "; Lit dom] ;; ret false) s
    = Some (Ok false, s')
    /\ timeout * 1000 <= Propagation.now s' - start
    /\ exists before,
         Propagation.printed s'
         = app before [[Lit "warning: "; Lit "DNS propagation timeout for "; Lit dom]].
Proof.
  revert s. induction n as [|m IH]; intros s Hrem.
  - cbn [while_cond].
    rewrite (MonadFacts.bind_step _ _ s
               (Propagation.now s - start <? timeout * 1000) s eq_refl).
    destruct (Propagation.now s - start <? timeout * 1000) eqn:Hc.
    + apply Z.ltb_lt in Hc. lia.
    + apply Z.ltb_ge in Hc. eexists. split; [reflexivity|].
      split; [cbn; lia | eexists; reflexivity].
  - cbn [while_cond].
    rewrite (MonadFacts.bind_step _ _ s
               (Propagation.now s - start <? timeout * 1000) s eq_refl).
    destruct (Propagation.now s - start <? timeout * 1000) eqn:Hc.
    + destruct (poll_again start s) as (s2 & Hturn & Hlater).
      rewrite (MonadFacts.bind_step _ _ _ _ _ Hturn).
      apply IH. lia.
    + apply Z.ltb_ge in Hc. eexists. split; [reflexivity|].
      split; [cbn; lia | eexists; reflexivity].
Qed.

(** X10. The wait for DNS propagation is bounded. When no answer of the
    resolver ever names [mail.<domain>], the queries failing with ordinary
    errors only and the sleeps ending normally, [wait_for_dns_propagation]
    returns [False], not before the timeout has passed, and its last line
    is the timeout warning. *)
Theorem dns_wait_gives_up (fuel : nat) (s : Propagation.State) :
  (Z.to_nat (timeout / 30) + 2 <= fuel)%nat ->
  exists s',
    wait_for_dns_propagation w fuel dom timeout s = Some (Ok false, s')
    /\ timeout * 1000 <= Propagation.now s' - Propagation.now s
    /\ exists before,
         Propagation.printed s'
         = app before [[Lit "warning: "; Lit "DNS propagation timeout for "; Lit dom]].
Proof.
  intros Hfuel. destruct fuel as [|n]; [lia|].
  apply (dns_loop_gives_up (Propagation.now s) n
           (Propagation.set_printed
              (app (Propagation.printed s)
                   [[Lit "Waiting for DNS propagation for "; Lit dom; Lit "..."]]) s)).
  cbn [Propagation.now Propagation.set_printed].
  destruct (Z_lt_le_dec timeout 0) as [Hneg|Hpos]; [lia|].
  assert (Hdiv : timeout < 30 * (timeout / 30 + 1)).
  { pose proof (Z.mod_pos_bound timeout 30 ltac:(lia)).
    pose proof (Z.div_mod timeout 30 ltac:(lia)). lia. }
  assert (Hn : timeout / 30 + 1 <= Z.of_nat n).
  { assert (0 <= timeout / 30) by (apply Z.div_pos; lia). lia. }
  nia.
Qed.

End WaitForDNS.

Lemma dns_wait_gives_up_witness :
  exists s',
    wait_for_dns_propagation Scenarios.never_propagates 10 "example.com" 90
      Scenarios.waiting = Some (Ok false, s')
    /\ 90000 <= Propagation.now s'.
Proof.
  edestruct (dns_wait_gives_up Scenarios.never_propagates "example.com" 90)
    with (fuel := 10%nat) (s := Scenarios.waiting) as (s' & Hrun & Hlate & _).
  - intros t lines H. inversion H; subst. vm_compute. reflexivity.
  - intros t e H. discriminate H.
  - intros t. reflexivity.
  - vm_compute. lia.
  - exists s'. split; [exact Hrun|]. cbn in Hlate. lia.
Defined.

Lemma poll_outcome (w : Propagation.World) (dom : string) (start : Z)
    (s s2 : Propagation.State) (r : option bool) :
  poll w dom start s = Some (Ok r, s2) ->
  (Propagation.tick s < Propagation.tick s2)%nat
  /\ match r with
     | Some v =>
         v = true
         /\ exists lines, dig_lines w (Propagation.tick s) dom = Ok lines
                          /\ shows_mail_host dom lines = true
     | None => True
     end.
Proof.
  unfold poll, try_except, Propagation.ask, bind.
  destruct (dig_lines w (Propagation.tick s) dom) as [lines|e] eqn:E.
  - destruct (shows_mail_host dom lines) eqn:Hshow.
    + unfold Propagation.log, modify, ret. intros H. inversion H; subst.
      split; [cbn; lia|]. split; [reflexivity|]. exists lines. split; [reflexivity|exact Hshow].
    + unfold gets. cbn [Propagation.now set_time].
      match goal with |- context [if ?c then _ else _] => destruct c end;
        unfold Propagation.log, modify, ret, Propagation.sleep;
        cbn [Propagation.tick Propagation.now Propagation.set_printed set_time];
        destruct (Propagation.sleep_outcome w (S (Propagation.tick s))) as [[]|e];
        try (destruct (is_Exception e);
             unfold Propagation.warn, modify, ret, Propagation.sleep;
             cbn [Propagation.tick Propagation.now Propagation.set_printed set_time];
             try destruct (Propagation.sleep_outcome w _) as [[]|e2]);
        intros H; inversion H; subst; (split; [cbn; lia | exact I]).
  - destruct (is_Exception e); [|discriminate].
    unfold Propagation.warn, modify, ret, Propagation.sleep.
    cbn [Propagation.tick Propagation.now Propagation.set_printed set_time].
    destruct (Propagation.sleep_outcome w (S (Propagation.tick s))) as [[]|e2];
      intros H; inversion H; subst. split; [cbn; lia | exact I].
Qed.

Lemma dns_loop_sound (w : Propagation.World) (dom : string) (start limit : Z)
    (after : M Propagation.State bool) (fuel : nat) (s s' : Propagation.State) :
  (forall s1 s2, after s1 = Some (Ok true, s2) -> False) ->
  while_cond fuel
    (t <- gets Propagation.now ;; ret (t - start <? limit))
    (poll w dom start) after s = Some (Ok true, s') ->
  Propagation.now s - start < limit
  /\ exists t lines,
       (Propagation.tick s <= t < Propagation.tick s')%nat
       /\ dig_lines w t dom = Ok lines
       /\ shows_mail_host dom lines = true.
Proof.
  intros Hafter. revert s. induction fuel as [|n IH]; intros s H; [discriminate H|].
  cbn [while_cond] in H.
  rewrite (MonadFacts.bind_step _ _ s (Propagation.now s - start <? limit) s eq_refl) in H.
  destruct (Propagation.now s - start <? limit) eqn:Hc.
  - apply Z.ltb_lt in Hc. split; [exact Hc|].
    unfold bind in H at 1.
    destruct (poll w dom start s) as [[[r|e] s2]|] eqn:Hp; try discriminate H.
    destruct (poll_outcome _ _ _ _ _ _ Hp) as (Htick & Hr).
    destruct r as [v|].
    + destruct Hr as (-> & lines & Hdig & Hshow).
      unfold ret in H. inversion H; subst s2.
      exists (Propagation.tick s), lines. split; [lia|]. split; assumption.
    + destruct (IH s2 H) as (_ & t & lines & Ht & Hdig & Hshow).
      exists t, lines. split; [lia|]. split; assumption.
  - exfalso. eapply Hafter. exact H.
Qed.

(** X11. A propagation that is reported was seen. When
    [wait_for_dns_propagation] returns [True], the timeout is positive and
    one of the queries made during the wait was answered with a line that
    contains [mail.<domain>]. *)
Theorem dns_wait_true_was_seen (w : Propagation.World) (fuel : nat) (dom : string)
    (timeout : Z) (s s' : Propagation.State) :
  wait_for_dns_propagation w fuel dom timeout s = Some (Ok true, s') ->
  0 < timeout
  /\ exists t lines,
       (Propagation.tick s <= t < Propagation.tick s')%nat
       /\ dig_lines w t dom = Ok lines
       /\ shows_mail_host dom lines = true.
Proof.
  intros H.
  unfold wait_for_dns_propagation, Propagation.log, modify, gets in H.
  unfold bind in H at 1 2. cbn [Propagation.now Propagation.set_printed] in H.
  apply dns_loop_sound in H.
  - destruct H as (Hpos & t & lines & Ht & Hdig & Hshow).
    cbn [Propagation.now Propagation.tick Propagation.set_printed] in Hpos, Ht.
    split; [lia|]. exists t, lines. split; [exact Ht|]. split; assumption.
  - intros s1 s2 Ha. unfold Propagation.warn, modify, bind, ret in Ha. discriminate Ha.
Qed.

(** The third query finds the new record. *)
Lemma dns_wait_true_was_seen_witness :
  exists t lines,
    (0 <= t < 5)%nat
    /\ dig_lines (Scenarios.propagates_at 4) t "example.com" = Ok lines
    /\ shows_mail_host "example.com" lines = true.
Proof.
  edestruct (dns_wait_true_was_seen (Scenarios.propagates_at 4) 10 "example.com" 1800
               Scenarios.waiting) as (_ & t & lines & Ht & Hdig & Hshow).
  - vm_compute. reflexivity.
  - exists t, lines. split; [exact Ht|]. split; assumption.
Defined.

(** *** The provider and the conflicts *)

Ltac member := repeat rewrite elem_of_cons in *; tauto.

Lemma provider_of_known (ns p : string) :
  provider_of ns = Some p ->
  p ∈ ["ovh"; "cloudflare"; "digitalocean"; "route53"; "namecheap"] /\ p <> "unknown".
Proof.
  unfold provider_of.
  repeat match goal with
         | |- context [if ?c then _ else _] => destruct c
         end;
    intros H; inversion H; subst; (split; [member | discriminate]).
Qed.

Lemma first_provider_unknown (nameservers : list string) :
  first_provider nameservers = "unknown"
  <-> Forall (fun ns => provider_of ns = None) nameservers.
Proof.
  induction nameservers as [|ns rest IH]; simpl.
  - split; [constructor | reflexivity].
  - destruct (provider_of ns) as [p|] eqn:E.
    + destruct (provider_of_known _ _ E) as [_ Hp]. split.
      * intros ->. contradiction.
      * intros H. inversion H; subst. congruence.
    + rewrite IH. split.
      * intros H. constructor; assumption.
      * intros H. inversion H; assumption.
Qed.

Lemma first_provider_first_match (before after : list string) (ns p : string) :
  Forall (fun n => provider_of n = None) before ->
  provider_of ns = Some p ->
  first_provider (app before (ns :: after)) = p.
Proof.
  intros Hbefore Hns. induction Hbefore as [|n before Hn _ IH]; simpl.
  - rewrite Hns. reflexivity.
  - rewrite Hn. exact IH.
Qed.

Lemma first_provider_range (nameservers : list string) :
  first_provider nameservers
  ∈ ["ovh"; "cloudflare"; "digitalocean"; "route53"; "namecheap"; "unknown"].
Proof.
  induction nameservers as [|ns rest IH]; simpl.
  - member.
  - destruct (provider_of ns) as [p|] eqn:E; [|exact IH].
    destruct (provider_of_known _ _ E) as [Hp _]. member.
Qed.

(** X12. The DNS provider of a domain. Unless it is interrupted,
    [detect_dns_provider] returns one of six names. When the query answers,
    the name is that of the first name server that matches a provider,
    whatever the later ones match, and it is [unknown] exactly when no
    name server matches; when the query fails, it is [unknown]. *)
Theorem provider_is_first_match (w : DNS.World) (s : DNS.State) :
  match detect_dns_provider w s with
  | Some (Ok p, s') =>
      p ∈ ["ovh"; "cloudflare"; "digitalocean"; "route53"; "namecheap"; "unknown"]
      /\ match dig_ns w (DNS.tick s) (domain s) with
         | Ok nameservers =>
             (p = "unknown" <-> Forall (fun ns => provider_of ns = None) nameservers)
             /\ forall before ns after q,
                  nameservers = app before (ns :: after) ->
                  Forall (fun n => provider_of n = None) before ->
                  provider_of ns = Some q ->
                  p = q
         | Raise _ => p = "unknown"
         end
  | Some (Raise e, _) => is_Exception e = false
  | None => False
  end.
Proof.
  unfold detect_dns_provider, try_except, DNS.ask, DNS.warn, bind, get, modify, ret.
  destruct (dig_ns w (DNS.tick s) (domain s)) as [nameservers|e]; simpl.
  - split; [apply first_provider_range|]. split; [apply first_provider_unknown|].
    intros before ns after q -> Hbefore Hns.
    apply first_provider_first_match; assumption.
  - destruct e; simpl; auto; split; [member | reflexivity].
Qed.

(** A string that contains [pre ++ y] contains [y]. *)
Lemma substring_of_substring (pre y : string) (n : nat) (s : string) :
  substring n (String.length (pre ++ y)) s = (pre ++ y)%string ->
  substring (n + String.length pre) (String.length y) s = y.
Proof.
  revert s. induction n as [|n IHn]; intros s.
  - revert s. induction pre as [|c pre IHp]; intros s H.
    + exact H.
    + destruct s as [|d s]; [discriminate H|].
      change (String d (substring 0 (String.length (pre ++ y)) s)
              = String c (pre ++ y)%string) in H.
      inversion H; subst.
      change (substring (0 + String.length pre) (String.length y) s = y).
      apply IHp. assumption.
  - intros H. destruct s as [|d s].
    + destruct pre; [destruct y; [reflexivity | discriminate H] | discriminate H].
    + apply (IHn s). exact H.
Qed.

Lemma contains_longer (pre y s : string) :
  y <> EmptyString -> contains (pre ++ y) s = true -> contains y s = true.
Proof.
  intros Hy. unfold contains.
  destruct (String.index 0 (pre ++ y) s) as [n|] eqn:E; [|discriminate].
  intros _. apply String.index_correct1 in E.
  apply substring_of_substring in E.
  destruct (String.index 0 y s) eqn:E2; [reflexivity|]. exfalso.
  apply (String.index_correct3 0 (n + String.length pre) _ _ E2 Hy); [lia | exact E].
Qed.

(** The servers the three rules look for. *)
Lemma rule_matches (mx : MX) :
  is_ovh mx || is_google mx || is_microsoft mx
  = contains "mail.ovh.net" (server mx) || contains "google.com" (server mx)
    || contains "googlemail.com" (server mx) || contains "outlook.com" (server mx).
Proof.
  unfold is_ovh, is_google, is_microsoft.
  destruct (contains "protection.outlook.com" (server mx)) eqn:E.
  - rewrite (contains_longer "protection." "outlook.com" (server mx)
               ltac:(discriminate) E).
    rewrite !orb_true_r. reflexivity.
  - rewrite orb_false_r, orb_assoc. reflexivity.
Qed.

(** X13. The conflicts of a list of MX records. [check_conflicts] stores
    the list it returns. Each conflict is about a record of the current
    list, and a record of the list is named by a conflict exactly when its
    server contains [mail.ovh.net], [google.com], [googlemail.com] or
    [outlook.com]; the test for [protection.outlook.com] never decides. *)
Theorem conflicts_name_matching_records (s : DNS.State) :
  exists found,
    check_conflicts s = Some (Ok found, set_conflicts found s)
    /\ Forall (fun c => record c ∈ current_mx s) found
    /\ (forall mx,
          (exists c, c ∈ found /\ record c = mx)
          <-> mx ∈ current_mx s
              /\ contains "mail.ovh.net" (server mx) || contains "google.com" (server mx)
                 || contains "googlemail.com" (server mx)
                 || contains "outlook.com" (server mx) = true)
    /\ length found
       = (length (filter (fun mx => is_ovh mx = true) (current_mx s))
          + length (filter (fun mx => is_google mx = true) (current_mx s))
          + length (filter (fun mx => contains "outlook.com" (server mx) = true)
                      (current_mx s)))%nat.
Proof.
  exists (conflicts_of (current_mx s)). split; [reflexivity|].
  assert (Hin : forall c, c ∈ conflicts_of (current_mx s) <->
            exists mx, mx ∈ current_mx s
              /\ ((is_ovh mx = true /\ c = ovh_conflict mx)
                  \/ (is_google mx = true /\ c = google_conflict mx)
                  \/ (is_microsoft mx = true /\ c = microsoft_conflict mx))).
  { intros c. unfold conflicts_of. rewrite !elem_of_app, !list_elem_of_fmap.
    setoid_rewrite list_elem_of_filter. split.
    - intros [(y & -> & H & Hy)|[(y & -> & H & Hy)|(y & -> & H & Hy)]];
        exists y; auto.
    - intros (mx & Hmx & [[H ->]|[[H ->]|[H ->]]]);
        [left | right; left | right; right]; exists mx; auto. }
  split; [|split].
  - apply Forall_forall. intros c Hc. apply Hin in Hc.
    destruct Hc as (mx & Hmx & [[_ ->]|[[_ ->]|[_ ->]]]); exact Hmx.
  - intros mx. rewrite <- rule_matches. split.
    + intros (c & Hc & <-). apply Hin in Hc.
      destruct Hc as (m & Hm & [[H ->]|[[H ->]|[H ->]]]); simpl;
        (split; [exact Hm|]); rewrite H, ?orb_true_r; reflexivity.
    + intros (Hmx & H). apply orb_true_iff in H as [H|H];
        [apply orb_true_iff in H as [H|H]|].
      * exists (ovh_conflict mx). split; [|reflexivity]. apply Hin. eauto 10.
      * exists (google_conflict mx). split; [|reflexivity]. apply Hin. eauto 10.
      * exists (microsoft_conflict mx). split; [|reflexivity]. apply Hin. eauto 10.
  - unfold conflicts_of. rewrite !length_app, !length_map.
    rewrite Nat.add_assoc. f_equal.
    f_equal. apply list_filter_iff. intros mx.
    pose proof (rule_matches mx) as R. unfold is_microsoft.
    destruct (contains "protection.outlook.com" (server mx)) eqn:E.
    + rewrite (contains_longer "protection." "outlook.com" (server mx)
                 ltac:(discriminate) E). reflexivity.
    + rewrite orb_false_r. reflexivity.
Qed.

End DNSExtra.

(** ** More on the deployment pipeline *)

Module OrchestratorExtra.
Import Orchestrator.

Lemma config_item_ok (a b : string) (section v : Value) (s : State) :
  getitem (VDict (config s)) a = Ok section ->
  getitem section b = Ok v ->
  config_item a b s = Some (Ok v, s).
Proof.
  intros Ha Hb. unfold config_item, gets, lift, bind. rewrite Ha, Hb. reflexivity.
Qed.


(** The host is unreachable for the five minutes the caller allows. *)
Lemma wait_for_ssh_gives_up_witness :
  exists s',
    wait_for_ssh Scenarios.unreachable_host 40 (VStr "203.0.113.5") 300
      (init default_config) = Some (Ok false, s')
    /\ 300000 <= now s'.
Proof.
  edestruct (OrchestratorFacts.wait_for_ssh_gives_up Scenarios.unreachable_host
               (VStr "203.0.113.5") 300) with (fuel := 40%nat) (s := init default_config)
    as (s' & Hrun & Hlate & _).
  - intros t. eexists. reflexivity.
  - intros t. reflexivity.
  - vm_compute. lia.
  - exists s'. split; [exact Hrun|]. cbn in Hlate. lia.
Defined.

(** *** The wait for the droplet *)

(** X15. The wait for the droplet has no bound. While the provider's
    replies do not report the droplet active and the sleeps end normally,
    [wait_for_droplet_ready] has not returned after any number of polls. *)
Theorem droplet_wait_is_unbounded (w : World) (droplet_id api_token : Value) :
  (forall t url, exists r, http_get w t url = Ok r /\ pending r = true) ->
  (forall t, sleep_outcome w t = Ok tt) ->
  forall (fuel : nat) (s : State),
    wait_for_droplet_ready w fuel droplet_id api_token s = None.
Proof.
  intros Hpending Hsleep fuel s. unfold wait_for_droplet_ready.
  match goal with
  | |- bind _ (fun _ => while_true _ ?body) _ = None =>
      assert (L : forall n s1, while_true n body s1 = None)
  end.
  { induction n as [|n IH]; intros s1; [reflexivity|].
    cbn [while_true]. unfold bind at 1. unfold bind at 1. unfold bind at 1.
    unfold ask at 1.
    destruct (Hpending (tick s1)
                [Lit "https://api.digitalocean.com/v2/droplets/"; Fmt droplet_id])
      as (r & Hr & Hp).
    rewrite Hr. cbn [note]. unfold pending in Hp.
    destruct (status_code r =? 200).
    - unfold lift, bind.
      destruct (json r) as [body|]; [|discriminate Hp].
      destruct (getitem body "droplet") as [droplet|]; [|discriminate Hp].
      destruct (getitem droplet "status") as [st|]; [|discriminate Hp].
      apply negb_true_iff in Hp. rewrite Hp.
      unfold ret, sleep. rewrite Hsleep. cbn [note]. apply IH.
    - unfold ret, sleep, bind. rewrite Hsleep. cbn [note]. apply IH. }
  unfold print, modify, bind. apply L.
Qed.

Lemma droplet_wait_is_unbounded_witness :
  wait_for_droplet_ready Scenarios.droplet_stays_new 1000 (VInt 7)
    (VStr "YOUR_DO_API_TOKEN") (init default_config) = None.
Proof.
  apply (droplet_wait_is_unbounded Scenarios.droplet_stays_new (VInt 7)
           (VStr "YOUR_DO_API_TOKEN")).
  - intros t url. eexists. split; reflexivity.
  - intros t. reflexivity.
Defined.

(** *** Providers *)

(** X16. A provider the pipeline has no code for. When the configured VPS
    provider is not [digitalocean], the run fails before any call to the
    outside: with the [ValueError] of [provision_vps], or, for [vultr],
    with an [AttributeError], as [provision_vultr] is defined nowhere. No
    host is recorded and no session is opened. *)
Theorem unsupported_provider_fails_before_any_call (w : World) (fuel : nat) (s : State)
    (section provider : Value) :
  getitem (VDict (config s)) "vps_provider" = Ok section ->
  getitem section "name" = Ok provider ->
  eq_str provider "digitalocean" = false ->
  exists s',
    run_full_automation w fuel s
    = Some (Ok (Failure
                  (if eq_str provider "vultr"
                   then AttributeError
                          "'VPSEmailOrchestrator' object has no attribute 'provision_vultr'"
                   else Exception_ "ValueError"
                          [Lit "Unsupported VPS provider: "; Fmt provider])), s')
    /\ tick s' = tick s
    /\ vps_ip s' = vps_ip s
    /\ ssh_client s' = match ssh_client s with Some _ => Some Closed | None => None end.
Proof.
  intros Hsection Hname Hdo.
  set (e := if eq_str provider "vultr"
            then AttributeError
                   "'VPSEmailOrchestrator' object has no attribute 'provision_vultr'"
            else Exception_ "ValueError" [Lit "Unsupported VPS provider: "; Fmt provider]).
  assert (He : is_Exception e = true) by (unfold e; destruct (eq_str provider "vultr"); reflexivity).
  assert (Hp : exists s1, pipeline w fuel s = Some (Raise e, s1)
                          /\ tick s1 = tick s /\ vps_ip s1 = vps_ip s
                          /\ ssh_client s1 = ssh_client s).
  { unfold pipeline, provision_vps, config_item, print, modify, gets, lift, bind.
    cbn [config set_printed]. rewrite Hsection, Hname, Hdo.
    unfold e. destruct (eq_str provider "vultr"); unfold raise;
      eexists; (split; [reflexivity|]); repeat split. }
  destruct Hp as (s1 & Hrun & Htick & Hip & Hssh).
  rewrite (OrchestratorFacts.run_aborts _ _ _ _ _ Hrun).
  unfold aborted, after_abort. rewrite He. eexists. split; [reflexivity|].
  unfold closing. cbn [ssh_client set_printed]. rewrite Hssh.
  destruct (ssh_client s) as [[| |]|]; cbn; rewrite ?Htick, ?Hip; repeat split;
    assumption.
Qed.

Lemma unsupported_provider_fails_before_any_call_witness :
  exists s',
    run_full_automation Scenarios.all_succeed 3 (init Scenarios.on_vultr)
    = Some (Ok (Failure
                  (AttributeError
                     "'VPSEmailOrchestrator' object has no attribute 'provision_vultr'")),
            s')
    /\ tick s' = O.
Proof.
  edestruct (unsupported_provider_fails_before_any_call Scenarios.all_succeed 3
               (init Scenarios.on_vultr) (VDict [("name", VStr "vultr")]) (VStr "vultr"))
    as (s' & Hrun & Htick & _).
  - reflexivity.
  - reflexivity.
  - reflexivity.
  - exists s'. split; [exact Hrun | exact Htick].
Defined.

(** *** The passwords of the first boot *)

Lemma boot_script_passwords_are_kept_aux (w : World) (s : State) (settings : Dict) :
  getitem (VDict (config s)) "server_settings" = Ok (VDict settings) ->
  exists script s',
    generate_cloud_init_script w s = Some (Ok script, s')
    /\ tick s' = S (S (tick s))
    /\ vps_ip s' = vps_ip s
    /\ config_item "server_settings" "mysql_root_password" s'
       = Some (Ok (VStr (random_password w (tick s) 20)), s')
    /\ config_item "server_settings" "mail_db_password" s'
       = Some (Ok (VStr (random_password w (S (tick s)) 20)), s')
    /\ forall k, k <> "server_settings" ->
                 dict_get k (config s') = dict_get k (config s).
Proof.
  intros Hsettings.
  unfold generate_cloud_init_script, generate_secure_password, set_server_setting,
    ask, gets, lift, modify, bind, ret.
  cbn [note config tick set_time set_config]. rewrite Hsettings.
  cbn [note config tick set_time set_config getitem].
  rewrite MonitorExtra.dict_get_set_same.
  eexists. eexists. split; [reflexivity|].
  split; [reflexivity|]. split; [reflexivity|].
  unfold config_item, gets, lift, bind. cbn [config set_config getitem].
  rewrite !MonitorExtra.dict_get_set_same. cbn [getitem].
  rewrite (MonitorExtra.dict_get_set_other "mysql_root_password" "mail_db_password")
    by discriminate.
  rewrite !MonitorExtra.dict_get_set_same.
  split; [reflexivity|]. split; [reflexivity|].
  intros k Hk. rewrite !MonitorExtra.dict_get_set_other by exact Hk. reflexivity.
Qed.

(** X17. The passwords of the boot script are the ones kept. When the
    configuration has a [server_settings] object, [generate_cloud_init_script]
    draws two passwords, writes them into the script, and stores them in
    the configuration, where the later stages and the report read them;
    the other sections of the configuration stay as they were. *)
Theorem boot_script_passwords_are_kept (w : World) (s : State) (settings : Dict) :
  getitem (VDict (config s)) "server_settings" = Ok (VDict settings) ->
  exists script s',
    generate_cloud_init_script w s = Some (Ok script, s')
    /\ In (Fmt (VStr (random_password w (tick s) 20))) script
    /\ In (Fmt (VStr (random_password w (S (tick s)) 20))) script
    /\ config_item "server_settings" "mysql_root_password" s'
       = Some (Ok (VStr (random_password w (tick s) 20)), s')
    /\ config_item "server_settings" "mail_db_password" s'
       = Some (Ok (VStr (random_password w (S (tick s)) 20)), s')
    /\ forall k, k <> "server_settings" ->
                 dict_get k (config s') = dict_get k (config s).
Proof.
  intros Hsettings.
  unfold generate_cloud_init_script, generate_secure_password, set_server_setting,
    ask, gets, lift, modify, bind, ret.
  cbn [note config tick set_time set_config]. rewrite Hsettings.
  cbn [note config tick set_time set_config getitem].
  rewrite MonitorExtra.dict_get_set_same.
  eexists. eexists. split; [reflexivity|].
  split; [simpl; tauto|]. split; [simpl; tauto|].
  unfold config_item, gets, lift, bind. cbn [config set_config getitem].
  rewrite !MonitorExtra.dict_get_set_same. cbn [getitem].
  rewrite (MonitorExtra.dict_get_set_other "mysql_root_password" "mail_db_password")
    by discriminate.
  rewrite !MonitorExtra.dict_get_set_same.
  split; [reflexivity|]. split; [reflexivity|].
  intros k Hk. rewrite !MonitorExtra.dict_get_set_other by exact Hk. reflexivity.
Qed.

Lemma boot_script_passwords_are_kept_witness :
  exists script s',
    generate_cloud_init_script Scenarios.all_succeed (init default_config)
    = Some (Ok script, s')
    /\ config_item "server_settings" "mail_db_password" s' = Some (Ok (VStr "s3cret"), s').
Proof.
  edestruct (boot_script_passwords_are_kept Scenarios.all_succeed (init default_config))
    as (script & s' & Hrun & _ & _ & _ & Hdb & _).
  - reflexivity.
  - exists script, s'. split; [exact Hrun | exact Hdb].
Defined.

(** *** DNS records *)

(** A loop whose turns all return, each keeping [P] and adding [k] to the
    measure [f], returns, and adds [k] for each element. *)
Lemma for_each_total {A} (P : State -> Prop) (f : State -> nat) (k : nat)
    (l : list A) (body : A -> M State unit) :
  (forall x s, P s -> exists s2, body x s = Some (Ok tt, s2) /\ P s2 /\ f s2 = (f s + k)%nat) ->
  forall s, P s ->
    exists s', for_each l body s = Some (Ok tt, s') /\ P s'
               /\ f s' = (f s + length l * k)%nat.
Proof.
  intros Hbody. induction l as [|x l IH]; intros s Hs.
  - exists s. split; [reflexivity|]. split; [exact Hs | simpl; lia].
  - destruct (Hbody x s Hs) as (s2 & Hx & Hs2 & Hf2).
    destruct (IH s2 Hs2) as (s' & Hl & Hs' & Hf').
    exists s'. cbn [for_each]. rewrite (MonadFacts.bind_step _ _ _ _ _ Hx).
    split; [exact Hl|]. split; [exact Hs'|]. simpl. lia.
Qed.

(** A loop whose turns all return, each keeping [P], taking [k]
    interactions and printing [k] lines, the line numbered [j] of a turn
    that starts at the interaction [t] being in [R (t + j) j]: the loop
    returns, and its line numbered [i] is in [R (t + i) (i mod k)]. *)
Lemma for_each_blocks {A} (P : State -> Prop) (k : nat)
    (R : nat -> nat -> FString -> Prop) (l : list A) (body : A -> M State unit) :
  (0 < k)%nat ->
  (forall x s, P s ->
     exists s2 block,
       body x s = Some (Ok tt, s2) /\ P s2
       /\ tick s2 = (tick s + k)%nat
       /\ printed s2 = app (printed s) block
       /\ length block = k
       /\ forall j line, block !! j = Some line -> R (tick s + j)%nat j line) ->
  forall s, P s ->
    exists s' lines,
      for_each l body s = Some (Ok tt, s') /\ P s'
      /\ tick s' = (tick s + length l * k)%nat
      /\ printed s' = app (printed s) lines
      /\ length lines = (length l * k)%nat
      /\ forall i line, lines !! i = Some line -> R (tick s + i)%nat (i mod k)%nat line.
Proof.
  intros Hk Hbody. induction l as [|x l IH]; intros s Hs.
  - exists s, []. split; [reflexivity|]. split; [exact Hs|].
    split; [simpl; lia|]. split; [rewrite app_nil_r; reflexivity|].
    split; [reflexivity|]. intros i line Hi. rewrite lookup_nil in Hi. discriminate.
  - destruct (Hbody x s Hs) as (s2 & block & Hx & Hs2 & Ht2 & Hp2 & Hlen2 & Hblock).
    destruct (IH s2 Hs2) as (s' & lines & Hl & Hs' & Ht' & Hp' & Hlen' & Hlines).
    exists s', (app block lines). cbn [for_each].
    rewrite (MonadFacts.bind_step _ _ _ _ _ Hx).
    split; [exact Hl|]. split; [exact Hs'|].
    split; [simpl; lia|].
    split; [rewrite Hp', Hp2, app_assoc; reflexivity|].
    split; [rewrite length_app, Hlen2, Hlen'; simpl; lia|].
    intros i line Hi. destruct (lt_dec i k) as [Hlt|Hge].
    + rewrite lookup_app_l in Hi by lia.
      rewrite Nat.mod_small by exact Hlt. apply Hblock. exact Hi.
    + rewrite lookup_app_r in Hi by lia. rewrite Hlen2 in Hi.
      apply Hlines in Hi. rewrite Ht2 in Hi.
      replace (tick s + k + (i - k))%nat with (tick s + i)%nat in Hi by lia.
      replace (i mod k)%nat with ((i - k) mod k)%nat; [exact Hi|].
      replace i with ((i - k) + 1 * k)%nat at 2 by lia.
      rewrite Nat.Div0.mod_add. reflexivity.
Qed.

(** X18. A refused DNS record is not fatal. With the Cloudflare provider
    configured, when every request to its API is answered, whatever the
    status of the answer, [configure_dns_records] returns, having sent six
    requests for each domain and changed neither the configuration nor the
    address of the host. Between its first and its last line it prints one
    line for each request, in order: the line of the request numbered [i]
    is about the record numbered [i mod 6] of the six, and it reads
    [Created ...] when the answer has status 200 and [Failed to create
    ...] with the text of the answer otherwise. *)
Theorem refused_dns_records_are_not_fatal (w : World) (s : State)
    (section provider api_token zone_id domain_list : Value) (domains : list Value) :
  getitem (VDict (config s)) "dns_provider" = Ok section ->
  getitem section "name" = Ok provider ->
  eq_str provider "cloudflare" = true ->
  getitem section "api_token" = Ok api_token ->
  getitem section "zone_id" = Ok zone_id ->
  getitem (VDict (config s)) "domains" = Ok domain_list ->
  iter domain_list = Ok domains ->
  (forall t url payload, exists r, http_post w t url payload = Ok r) ->
  let kinds := [ ("A", "mail"); ("MX", "@"); ("TXT", "@"); ("TXT", "_dmarc");
                 ("CNAME", "autoconfig"); ("CNAME", "autodiscover") ] in
  exists s' lines,
    configure_dns_records w s = Some (Ok tt, s')
    /\ tick s' = (tick s + length domains * 6)%nat
    /\ config s' = config s
    /\ vps_ip s' = vps_ip s
    /\ raised s' = raised s
    /\ printed s'
       = app (printed s)
           (app ([Lit "Configuring DNS records..."] :: lines)
                [[Lit "DNS records configured"]])
    /\ length lines = (length domains * 6)%nat
    /\ forall i line,
         lines !! i = Some line ->
         exists kind payload r,
           kinds !! (i mod 6)%nat = Some kind
           /\ In ("type", [Lit (fst kind)]) payload
           /\ http_post w (tick s + i)%nat
                [Lit "https://api.cloudflare.com/client/v4/zones/"; Fmt zone_id;
                 Lit "/dns_records"] payload = Ok r
           /\ line = if status_code r =? 200
                     then [Lit "Created "; Lit (fst kind); Lit " record for ";
                           Lit (snd kind)]
                     else [Lit "Failed to create "; Lit (fst kind); Lit " record: ";
                           Lit (text r)].
Proof.
  intros Hsection Hname Hcf Htoken Hzone Hdomains Hiter Hpost kinds.
  set (url := [Lit "https://api.cloudflare.com/client/v4/zones/"; Fmt zone_id;
               Lit "/dns_records"]).
  set (line_of := fun (kind : string * string) (r : Response) =>
         if status_code r =? 200
         then [Lit "Created "; Lit (fst kind); Lit " record for "; Lit (snd kind)]
         else [Lit "Failed to create "; Lit (fst kind); Lit " record: "; Lit (text r)]).
  set (R := fun (t j : nat) (line : FString) =>
         exists kind payload r,
           kinds !! j = Some kind
           /\ In ("type", [Lit (fst kind)]) payload
           /\ http_post w t url payload = Ok r
           /\ line = line_of kind r).
  set (P := fun s1 : State =>
              config s1 = config s /\ vps_ip s1 = vps_ip s /\ raised s1 = raised s).
  assert (Hrecord : forall (record : DnsRecord) payload s1,
            exists r,
              http_post w (tick s1) url payload = Ok r
              /\ (response <- ask w (fun t => http_post w t url payload) ;;
                  if status_code response =? 200
                  then print [Lit "Created "; Lit (rtype record); Lit " record for ";
                              Lit (rname record)]
                  else print [Lit "Failed to create "; Lit (rtype record);
                              Lit " record: "; Lit (text response)]) s1
                 = Some (Ok tt,
                         set_printed
                           (app (printed s1) [line_of (rtype record, rname record) r])
                           (set_time (S (tick s1))
                              (now s1 + Z.of_nat (latency w (tick s1))) s1))).
  { intros record payload s1. unfold ask, bind.
    destruct (Hpost (tick s1) url payload) as [r Hr]. exists r.
    split; [exact Hr|]. rewrite Hr. cbn [note]. unfold line_of. cbn [fst snd].
    destruct (status_code r =? 200); reflexivity. }
  assert (Hdomain : forall d s1, P s1 ->
            exists s2 block,
              create_dns_records_for_domain w d s1 = Some (Ok tt, s2) /\ P s2
              /\ tick s2 = (tick s1 + 6)%nat
              /\ printed s2 = app (printed s1) block
              /\ length block = 6%nat
              /\ forall j line, block !! j = Some line -> R (tick s1 + j)%nat j line).
  { intros d s1 Hs1. pose proof Hs1 as (Hc & Hv & Hr).
    rewrite <- Hc in Hsection.
    unfold create_dns_records_for_domain.
    rewrite (MonadFacts.bind_step _ _ _ _ _ (config_item_ok _ _ _ _ _ Hsection Hname)).
    rewrite Hcf. unfold create_cloudflare_dns_records.
    rewrite (MonadFacts.bind_step _ _ _ _ _ (config_item_ok _ _ _ _ _ Hsection Htoken)).
    rewrite (MonadFacts.bind_step _ _ _ _ _ (config_item_ok _ _ _ _ _ Hsection Hzone)).
    rewrite (MonadFacts.bind_step _ _ s1 (vps_ip s1) s1 eq_refl).
    cbn [for_each rtype rname content ttl priority default app].
    fold url.
    match goal with
    | |- context [bind (bind (ask w (fun t => http_post w t url ?p)) _) _ ?st] =>
        destruct (Hrecord {| rtype := "A"; rname := "mail"; content := [];
                             ttl := None; priority := None |} p st)
          as (r1 & Hr1 & Hstep1); set (p1 := p) in *
    end.
    rewrite (MonadFacts.bind_step _ _ _ _ _ Hstep1). clear Hstep1.
    match goal with
    | |- context [bind (bind (ask w (fun t => http_post w t url ?p)) _) _ ?st] =>
        destruct (Hrecord {| rtype := "MX"; rname := "@"; content := [];
                             ttl := None; priority := None |} p st)
          as (r2 & Hr2 & Hstep2); set (p2 := p) in *
    end.
    rewrite (MonadFacts.bind_step _ _ _ _ _ Hstep2). clear Hstep2.
    match goal with
    | |- context [bind (bind (ask w (fun t => http_post w t url ?p)) _) _ ?st] =>
        destruct (Hrecord {| rtype := "TXT"; rname := "@"; content := [];
                             ttl := None; priority := None |} p st)
          as (r3 & Hr3 & Hstep3); set (p3 := p) in *
    end.
    rewrite (MonadFacts.bind_step _ _ _ _ _ Hstep3). clear Hstep3.
    match goal with
    | |- context [bind (bind (ask w (fun t => http_post w t url ?p)) _) _ ?st] =>
        destruct (Hrecord {| rtype := "TXT"; rname := "_dmarc"; content := [];
                             ttl := None; priority := None |} p st)
          as (r4 & Hr4 & Hstep4); set (p4 := p) in *
    end.
    rewrite (MonadFacts.bind_step _ _ _ _ _ Hstep4). clear Hstep4.
    match goal with
    | |- context [bind (bind (ask w (fun t => http_post w t url ?p)) _) _ ?st] =>
        destruct (Hrecord {| rtype := "CNAME"; rname := "autoconfig"; content := [];
                             ttl := None; priority := None |} p st)
          as (r5 & Hr5 & Hstep5); set (p5 := p) in *
    end.
    rewrite (MonadFacts.bind_step _ _ _ _ _ Hstep5). clear Hstep5.
    match goal with
    | |- context [bind (bind (ask w (fun t => http_post w t url ?p)) _) _ ?st] =>
        destruct (Hrecord {| rtype := "CNAME"; rname := "autodiscover"; content := [];
                             ttl := None; priority := None |} p st)
          as (r6 & Hr6 & Hstep6); set (p6 := p) in *
    end.
    rewrite (MonadFacts.bind_step _ _ _ _ _ Hstep6). clear Hstep6.
    cbn [rtype rname tick set_time set_printed printed] in *.
    eexists. exists [line_of ("A", "mail") r1; line_of ("MX", "@") r2;
                     line_of ("TXT", "@") r3; line_of ("TXT", "_dmarc") r4;
                     line_of ("CNAME", "autoconfig") r5;
                     line_of ("CNAME", "autodiscover") r6].
    split; [reflexivity|].
    split; [unfold P; cbn; auto|].
    split; [cbn; lia|].
    split; [cbn; rewrite <- !app_assoc; reflexivity|].
    split; [reflexivity|].
    intros j line Hj.
    destruct j as [|[|[|[|[|[|j]]]]]]; cbn in Hj; inversion Hj; subst line; clear Hj.
    - exists ("A", "mail"), p1, r1. rewrite Nat.add_0_r.
      split; [reflexivity|]. split; [left; reflexivity|]. split; [exact Hr1 | reflexivity].
    - exists ("MX", "@"), p2, r2. replace (tick s1 + 1)%nat with (S (tick s1)) by lia.
      split; [reflexivity|]. split; [left; reflexivity|]. split; [exact Hr2 | reflexivity].
    - exists ("TXT", "@"), p3, r3.
      replace (tick s1 + 2)%nat with (S (S (tick s1))) by lia.
      split; [reflexivity|]. split; [left; reflexivity|]. split; [exact Hr3 | reflexivity].
    - exists ("TXT", "_dmarc"), p4, r4.
      replace (tick s1 + 3)%nat with (S (S (S (tick s1)))) by lia.
      split; [reflexivity|]. split; [left; reflexivity|]. split; [exact Hr4 | reflexivity].
    - exists ("CNAME", "autoconfig"), p5, r5.
      replace (tick s1 + 4)%nat with (S (S (S (S (tick s1))))) by lia.
      split; [reflexivity|]. split; [left; reflexivity|]. split; [exact Hr5 | reflexivity].
    - exists ("CNAME", "autodiscover"), p6, r6.
      replace (tick s1 + 5)%nat with (S (S (S (S (S (tick s1)))))) by lia.
      split; [reflexivity|]. split; [left; reflexivity|]. split; [exact Hr6 | reflexivity]. }
  destruct (for_each_blocks P 6 R domains (create_dns_records_for_domain w)
              ltac:(lia) Hdomain
              (set_printed (app (printed s) [[Lit "Configuring DNS records..."]]) s))
    as (s' & lines & Hrun & (Hc & Hv & Hr) & Htick & Hprinted & Hlen & Hlines);
    [unfold P; cbn; auto|].
  exists (set_printed (app (printed s') [[Lit "DNS records configured"]]) s'), lines.
  unfold configure_dns_records, print, modify, gets, lift.
  unfold bind at 1 2 3 4. cbn [config set_printed]. rewrite Hdomains, Hiter.
  rewrite (MonadFacts.bind_step _ _ _ _ _ Hrun).
  split; [reflexivity|]. cbn. cbn in Htick, Hprinted, Hlines.
  split; [exact Htick|]. split; [exact Hc|]. split; [exact Hv|]. split; [exact Hr|].
  split; [rewrite Hprinted, <- !app_assoc; reflexivity|].
  split; [exact Hlen|].
  intros i line Hi. destruct (Hlines i line Hi) as (kind & payload & r & Hk & Hin & Hpostr & ->).
  exists kind, payload, r. auto.
Qed.

(** Every record of the two default domains is refused. *)
Lemma refused_dns_records_are_not_fatal_witness :
  exists s' lines,
    configure_dns_records Scenarios.apis_refuse (init default_config)
    = Some (Ok tt, s')
    /\ printed s'
       = [Lit "Configuring DNS records..."] :: app lines [[Lit "DNS records configured"]]
    /\ length lines = 12%nat
    /\ lines !! O = Some [Lit "Failed to create "; Lit "A"; Lit " record: ";
                          Lit "Forbidden"].
Proof.
  edestruct (refused_dns_records_are_not_fatal Scenarios.apis_refuse
               (init default_config))
    as (s' & lines & Hrun & _ & _ & _ & _ & Hprinted & Hlen & Hlines).
  - reflexivity.
  - reflexivity.
  - reflexivity.
  - reflexivity.
  - reflexivity.
  - reflexivity.
  - reflexivity.
  - intros t url payload. eexists. reflexivity.
  - exists s', lines. split; [exact Hrun|]. split; [exact Hprinted|].
    split; [exact Hlen|].
    destruct lines as [|line lines]; [discriminate Hlen|].
    destruct (Hlines O line eq_refl) as (kind & payload & r & Hkind & _ & Hr & ->).
    inversion Hkind; subst kind. inversion Hr; subst r. reflexivity.
Defined.

(** *** The tests after deployment *)

Lemma test_smtp_outcome (w : World) (s : State) :
  exists r s',
    test_smtp_connectivity w s = Some (Ok r, s')
    /\ (r = "PASS" \/ r = "FAIL" \/ r = "ERROR")
    /\ (email_accounts s = [] -> r = "FAIL")
    /\ (email_accounts s <> [] -> ssh_client s <> Some Connected -> r = "ERROR").
Proof.
  unfold test_smtp_connectivity, try_except_bare, bind, get.
  destruct (email_accounts s) as [|account rest] eqn:Ha; cbn [take for_each_return].
  - unfold ret. eexists _, _. split; [reflexivity|].
    split; [auto|]. split; [reflexivity | congruence].
  - rewrite take_0. cbn [for_each_return]. unfold bind.
    destruct (config_item "email_settings" "admin_email" s) as [[[admin|e] s1]|] eqn:Hcfg.
    + assert (s1 = s) as ->.
      { unfold config_item, gets, lift, bind in Hcfg.
        destruct (getitem (VDict (config s)) "email_settings") as [sec|]; [|discriminate].
        inversion Hcfg; reflexivity. }
      unfold exec_command, bind, get, raise.
      destruct (ssh_client s) as [[| |]|] eqn:Hssh;
        try (unfold ret; eexists _, _; split; [reflexivity|];
             split; [auto|]; split; [discriminate | reflexivity]).
      unfold ask. destruct (ssh_exec w (tick s) _) as [out|e]; cbn [note].
      * destruct (String.eqb (stderr out) EmptyString); unfold ret;
          eexists _, _; (split; [reflexivity|]);
          (split; [auto|]); (split; [discriminate | congruence]).
      * unfold ret. eexists _, _. split; [reflexivity|].
        split; [auto|]. split; [discriminate | congruence].
    + unfold ret. eexists _, _. split; [reflexivity|].
      split; [auto|]. split; [discriminate | reflexivity].
    + exfalso. unfold config_item, gets, lift, bind in Hcfg.
      destruct (getitem (VDict (config s)) "email_settings"); discriminate.
Qed.

Lemma test_ssl_outcome (w : World) (s : State) :
  exists r s',
    test_ssl_certificates w s = Some (Ok r, s')
    /\ (r = "PASS" \/ r = "FAIL" \/ r = "ERROR")
    /\ (ssh_client s <> Some Connected -> r = "ERROR").
Proof.
  unfold test_ssl_certificates, try_except_bare, bind.
  destruct (primary_domain s) as [[[primary|e] s1]|] eqn:Hp.
  - assert (s1 = s) as ->.
    { unfold primary_domain, gets, lift, bind in Hp.
      destruct (getitem (VDict (config s)) "domains") as [d|]; [|discriminate].
      inversion Hp; reflexivity. }
    unfold exec_command, bind, get, raise.
    destruct (ssh_client s) as [[| |]|] eqn:Hssh;
      try (unfold ret; eexists _, _; split; [reflexivity|];
           split; [auto | reflexivity]).
    unfold ask. destruct (ssh_exec w (tick s) _) as [out|e]; cbn [note].
    + destruct (contains "Verify return code: 0 (ok)" (stdout out)); unfold ret;
        eexists _, _; (split; [reflexivity|]); (split; [auto | congruence]).
    + unfold ret. eexists _, _. split; [reflexivity|]. split; [auto | congruence].
  - unfold ret. eexists _, _. split; [reflexivity|]. split; [auto | reflexivity].
  - exfalso. unfold primary_domain, gets, lift, bind in Hp.
    destruct (getitem (VDict (config s)) "domains"); discriminate.
Qed.

(** X19. The tests after deployment never fail the run.
    [run_comprehensive_tests] returns in every world and from every state,
    interrupts included, with four results. The IMAP and DNS results are
    [PASS] whatever the host does; the SMTP result is [FAIL] when no
    account exists, and the SMTP and certificate results are [ERROR] when
    the session is not connected. *)
Theorem tests_never_fail_the_run (w : World) (s : State) :
  exists smtp ssl s',
    run_comprehensive_tests w s
    = Some (Ok [ ("smtp_connectivity", smtp); ("imap_connectivity", "PASS");
                 ("ssl_certificates", ssl); ("dns_propagation", "PASS") ], s')
    /\ (smtp = "PASS" \/ smtp = "FAIL" \/ smtp = "ERROR")
    /\ (ssl = "PASS" \/ ssl = "FAIL" \/ ssl = "ERROR")
    /\ (email_accounts s = [] -> smtp = "FAIL")
    /\ (ssh_client s <> Some Connected ->
        ssl = "ERROR" /\ (email_accounts s <> [] -> smtp = "ERROR")).
Proof.
  set (s0 := set_printed (app (printed s) [[Lit "Running comprehensive tests..."]]) s).
  destruct (test_smtp_outcome w s0) as (smtp & s1 & Hsmtp & Rsmtp & Hnone & Herr).
  destruct (test_ssl_outcome w s1) as (ssl & s2 & Hssl & Rssl & Herr2).
  assert (Hkeep : ssh_client s1 = ssh_client s0).
  { revert Hsmtp. unfold test_smtp_connectivity, try_except_bare, bind, get.
    destruct (email_accounts s0) as [|account rest]; cbn [take for_each_return].
    - unfold ret. intros H. inversion H; reflexivity.
    - rewrite take_0. cbn [for_each_return]. unfold bind.
      unfold config_item, gets, lift, bind.
      destruct (getitem (VDict (config s0)) "email_settings") as [sec|];
        [|unfold ret; intros H; inversion H; reflexivity].
      destruct (getitem sec "admin_email") as [admin|];
        [|unfold ret; intros H; inversion H; reflexivity].
      unfold exec_command, bind, get, raise.
      destruct (ssh_client s0) as [[| |]|] eqn:Hssh;
        try (unfold ret; intros H; inversion H; subst; exact Hssh).
      unfold ask. destruct (ssh_exec w (tick s0) _) as [out|e]; cbn [note].
      + destruct (String.eqb (stderr out) EmptyString); unfold ret;
          intros H; inversion H; subst; exact Hssh.
      + unfold ret. intros H. inversion H; subst. exact Hssh. }
  exists smtp, ssl. eexists.
  split.
  - unfold run_comprehensive_tests, test_imap_connectivity, test_dns_propagation.
    unfold print at 1. unfold modify. unfold bind at 1. fold s0.
    rewrite (MonadFacts.bind_step _ _ _ _ _ Hsmtp).
    unfold bind at 1. unfold ret at 1.
    rewrite (MonadFacts.bind_step _ _ _ _ _ Hssl).
    unfold bind, ret, print, modify. reflexivity.
  - split; [exact Rsmtp|]. split; [exact Rssl|]. split; [exact Hnone|].
    intros Hssh. split.
    + apply Herr2. rewrite Hkeep. exact Hssh.
    + intros Ha. apply Herr; assumption.
Qed.

(** *** The accounts *)

Section Accounts.
Variable w : World.
Variable cfg : Dict.
Hypothesis dispatched : forall t cmd, exists r, ssh_exec w t cmd = Ok r.

(** The session is open and the configuration is [cfg]. *)
Let ready (s : State) : Prop := ssh_client s = Some Connected /\ config s = cfg.

Lemma exec_command_dispatched (cmd : FString) (s : State) :
  ready s ->
  exists r s2,
    exec_command w cmd s = Some (Ok r, s2)
    /\ ready s2 /\ email_accounts s2 = email_accounts s.
Proof.
  intros [Hssh Hcfg]. unfold exec_command, get, ask, bind. rewrite Hssh.
  destruct (dispatched (tick s) cmd) as [r ->]. cbn [note].
  eexists _, _. split; [reflexivity|]. split; [split; assumption | reflexivity].
Qed.

Lemma create_single_email_account_returns (d mysql_password : Value) (s : State) :
  ready s ->
  exists account s2,
    create_single_email_account w d mysql_password s = Some (Ok account, s2)
    /\ ready s2 /\ email_accounts s2 = email_accounts s
    /\ domain account = d.
Proof.
  intros Hs. unfold create_single_email_account, generate_random_username,
    generate_secure_password.
  unfold ask at 1 2. unfold bind at 1 2. cbn [note tick set_time].
  match goal with
  | |- context [bind (exec_command w ?c) _ ?s1] =>
      destruct (exec_command_dispatched c s1) as (r1 & s2 & H1 & Hs2 & Ha2);
        [destruct Hs; split; assumption|]
  end.
  rewrite (MonadFacts.bind_step _ _ _ _ _ H1).
  match goal with
  | |- context [bind (exec_command w ?c) _ ?s1] =>
      destruct (exec_command_dispatched c s1 Hs2) as (r2 & s3 & H2 & Hs3 & Ha3)
  end.
  rewrite (MonadFacts.bind_step _ _ _ _ _ H2).
  match goal with
  | |- context [bind (exec_command w ?c) _ ?s1] =>
      destruct (exec_command_dispatched c s1 Hs3) as (r3 & s4 & H3 & Hs4 & Ha4)
  end.
  rewrite (MonadFacts.bind_step _ _ _ _ _ H3).
  match goal with
  | |- context [bind (exec_command w ?c) _ ?s1] =>
      destruct (exec_command_dispatched c s1 Hs4) as (r4 & s5 & H4 & Hs5 & Ha5)
  end.
  rewrite (MonadFacts.bind_step _ _ _ _ _ H4).
  unfold ret. eexists _, _. split; [reflexivity|].
  split; [exact Hs5|]. split; [|reflexivity].
  rewrite Ha5, Ha4, Ha3, Ha2. reflexivity.
Qed.

Lemma accounts_of_one_domain (d mysql_password : Value) (indices : list nat) (s : State) :
  ready s ->
  exists created s2,
    for_each indices (fun _ =>
      email_account <- create_single_email_account w d mysql_password ;;
      modify (fun s => set_email_accounts (app (email_accounts s) [email_account]) s)) s
    = Some (Ok tt, s2)
    /\ ready s2
    /\ email_accounts s2 = app (email_accounts s) created
    /\ map domain created = repeat d (length indices).
Proof.
  revert s. induction indices as [|i indices IH]; intros s Hs.
  - exists [], s. split; [reflexivity|]. split; [exact Hs|].
    split; [rewrite app_nil_r|]; reflexivity.
  - destruct (create_single_email_account_returns d mysql_password s Hs)
      as (account & s1 & Hone & Hs1 & Ha1 & Hd).
    destruct (IH (set_email_accounts (app (email_accounts s1) [account]) s1))
      as (created & s2 & Hrest & Hs2 & Ha2 & Hds).
    { destruct Hs1. split; assumption. }
    exists (account :: created), s2. cbn [for_each].
    unfold bind at 1. unfold bind at 1. rewrite Hone. unfold modify at 1.
    split; [exact Hrest|]. split; [exact Hs2|]. split.
    + rewrite Ha2. cbn [email_accounts set_email_accounts]. rewrite Ha1, <- app_assoc.
      reflexivity.
    + cbn [map length repeat]. rewrite Hd, Hds. reflexivity.
Qed.

Lemma accounts_of_all_domains (mysql_password section count : Value)
    (indices : list nat) (domains : list Value) (s : State) :
  getitem (VDict cfg) "email_settings" = Ok section ->
  getitem section "emails_per_domain" = Ok count ->
  py_range count = Ok indices ->
  ready s ->
  exists created s2,
    for_each domains (fun d =>
      exec_command w
        [Lit "mysql -u root -p"; Fmt mysql_password; Lit " -e "; Lit dquote;
         Lit "INSERT IGNORE INTO mailserver.domains (domain) VALUES ('";
         Fmt d; Lit "');"; Lit dquote] ;;
      count <- config_item "email_settings" "emails_per_domain" ;;
      indices <- lift (py_range count) ;;
      for_each indices (fun _ =>
        email_account <- create_single_email_account w d mysql_password ;;
        modify (fun s => set_email_accounts (app (email_accounts s) [email_account]) s))) s
    = Some (Ok tt, s2)
    /\ ready s2
    /\ email_accounts s2 = app (email_accounts s) created
    /\ map domain created = flat_map (fun d => repeat d (length indices)) domains.
Proof.
  intros Hsection Hcount Hrange. revert s.
  induction domains as [|d domains IH]; intros s Hs.
  - exists [], s. split; [reflexivity|]. split; [exact Hs|].
    split; [rewrite app_nil_r|]; reflexivity.
  - cbn [for_each].
    match goal with
    | |- context [bind (exec_command w ?c) _] =>
        destruct (exec_command_dispatched c s Hs) as (r & s1 & Hins & Hs1 & Ha1)
    end.
    assert (Hitem : config_item "email_settings" "emails_per_domain" s1
                    = Some (Ok count, s1)).
    { apply (config_item_ok _ _ section); [|exact Hcount].
      destruct Hs1 as [_ ->]. exact Hsection. }
    destruct (accounts_of_one_domain d mysql_password indices s1 Hs1)
      as (first & s2 & Hfirst & Hs2 & Ha2 & Hd2).
    destruct (IH s2 Hs2) as (others & s3 & Hothers & Hs3 & Ha3 & Hd3).
    exists (app first others), s3. split.
    + unfold bind at 1. unfold bind at 1. rewrite Hins.
      unfold bind at 1. rewrite Hitem.
      unfold bind at 1. unfold lift at 1. rewrite Hrange.
      rewrite Hfirst. exact Hothers.
    + split; [exact Hs3|]. split.
      * rewrite Ha3, Ha2, Ha1, app_assoc. reflexivity.
      * rewrite map_app, Hd2, Hd3. reflexivity.
Qed.

End Accounts.

(** X20. The accounts of a run. With the session open, the settings the
    stage reads present and every remote command dispatched,
    [create_email_accounts] returns the accounts of the job: those it had
    before, followed by [emails_per_domain] new accounts for each domain,
    domain after domain in the order of the configuration. *)
Theorem accounts_created_per_domain (w : World) (s : State)
    (server_settings mysql_password mail_db_password domain_list email_settings count
       : Value)
    (domains : list Value) (indices : list nat) :
  ssh_client s = Some Connected ->
  getitem (VDict (config s)) "server_settings" = Ok server_settings ->
  getitem server_settings "mysql_root_password" = Ok mysql_password ->
  getitem server_settings "mail_db_password" = Ok mail_db_password ->
  getitem (VDict (config s)) "domains" = Ok domain_list ->
  iter domain_list = Ok domains ->
  getitem (VDict (config s)) "email_settings" = Ok email_settings ->
  getitem email_settings "emails_per_domain" = Ok count ->
  py_range count = Ok indices ->
  (forall t cmd, exists r, ssh_exec w t cmd = Ok r) ->
  exists created s',
    create_email_accounts w s = Some (Ok (app (email_accounts s) created), s')
    /\ email_accounts s' = app (email_accounts s) created
    /\ map domain created = flat_map (fun d => repeat d (length indices)) domains
    /\ length created = (length domains * length indices)%nat.
Proof.
  intros Hssh Hserver Hroot Hdb Hdomains Hiter Hemail Hcount Hrange Hexec.
  set (s0 := set_printed (app (printed s) [[Lit "Creating email accounts..."]]) s).
  destruct (accounts_of_all_domains w (config s) Hexec mysql_password email_settings
              count indices domains s0 Hemail Hcount Hrange)
    as (created & s1 & Hloop & [_ _] & Hacc & Hdom); [split; [exact Hssh | reflexivity]|].
  exists created. eexists. split; [|split; [|split]].
  - unfold create_email_accounts. unfold print at 1. unfold modify at 1.
    unfold bind at 1. fold s0.
    rewrite (MonadFacts.bind_step _ _ _ _ _
               (config_item_ok _ _ _ _ s0 Hserver Hroot)).
    rewrite (MonadFacts.bind_step _ _ _ _ _
               (config_item_ok _ _ _ _ s0 Hserver Hdb)).
    unfold gets at 1. unfold bind at 1. unfold lift at 1. unfold bind at 1.
    change (config s0) with (config s). rewrite Hdomains.
    unfold lift at 1. unfold bind at 1. rewrite Hiter.
    unfold bind at 1. rewrite Hloop.
    unfold get, print, modify, bind, ret. rewrite Hacc. reflexivity.
  - cbn [email_accounts set_printed]. exact Hacc.
  - exact Hdom.
  - apply (f_equal (@length _)) in Hdom. rewrite length_map in Hdom. rewrite Hdom.
    clear. induction domains as [|d domains IH]; [reflexivity|].
    cbn [flat_map]. rewrite length_app, repeat_length, IH. reflexivity.
Qed.

(** Three domains with three accounts each, on a host that runs every
    command. *)
Lemma accounts_created_per_domain_witness :
  exists created s',
    create_email_accounts Scenarios.all_succeed Scenarios.connected_job
    = Some (Ok created, s')
    /\ length created = 9%nat.
Proof.
  edestruct (accounts_created_per_domain Scenarios.all_succeed Scenarios.connected_job)
    as (created & s' & Hrun & _ & _ & Hlen).
  - reflexivity.
  - reflexivity.
  - reflexivity.
  - reflexivity.
  - reflexivity.
  - reflexivity.
  - reflexivity.
  - reflexivity.
  - reflexivity.
  - intros t cmd. eexists. reflexivity.
  - exists created, s'. split; [exact Hrun | exact Hlen].
Defined.

(** *** The end of the program *)

(** X21. A failed deployment ends the program normally. When a stage of
    the pipeline raises an [Exception], [main] prints the failure twice,
    once from the run and once itself, and returns: the process exits with
    status 0, as after a successful deployment. *)
Theorem failed_deployment_exits_with_status_0 (w : World) (fuel : nat) (s s1 : State)
    (e : PyExc) :
  pipeline w fuel s = Some (Raise e, s1) ->
  is_Exception e = true ->
  exists r s',
    main w fuel s = Some (r, s')
    /\ Configurator.exit_status r = 0
    /\ printed s' = app (printed s1) [ [Lit "Automation failed: "; fmt_exc e];
                                       [Lit "Deployment failed: "; fmt_exc e] ].
Proof.
  intros Hrun He. unfold main.
  rewrite (MonadFacts.bind_step _ _ s (Failure e) (after_abort e s1)).
  - unfold print, modify. eexists _, _. split; [reflexivity|]. split; [reflexivity|].
    unfold after_abort, closing. rewrite He. cbn [ssh_client set_printed].
    destruct (ssh_client s1) as [[| |]|];
      cbn [close printed set_printed set_ssh_client set_open_sessions];
      rewrite <- app_assoc; reflexivity.
  - rewrite (OrchestratorFacts.run_aborts _ _ _ _ _ Hrun). unfold aborted.
    rewrite He. reflexivity.
Qed.

(** The run on a provider without code ends with status 0. *)
Lemma failed_deployment_exits_with_status_0_witness :
  exists r s',
    main Scenarios.all_succeed 3 (init Scenarios.on_vultr) = Some (r, s')
    /\ Configurator.exit_status r = 0.
Proof.
  edestruct (failed_deployment_exits_with_status_0 Scenarios.all_succeed 3
               (init Scenarios.on_vultr))
    as (r & s' & Hrun & Hstatus & _).
  - vm_compute. reflexivity.
  - reflexivity.
  - exists r, s'. split; [exact Hrun | exact Hstatus].
Defined.

(** *** A refused droplet *)

(** X22. A refused droplet. When the provider answers the creation
    request with a status other than 202, [provision_digitalocean] raises
    an [Exception] that carries the text of the answer. It has not polled
    the provider, and no address is recorded; the two passwords of the
    boot script have been drawn and stored by then. *)
Theorem refused_droplet_raises (w : World) (fuel : nat) (s : State)
    (provider api_token region size ssh_key_id : Value) (settings : Dict) :
  getitem (VDict (config s)) "vps_provider" = Ok provider ->
  getitem provider "api_token" = Ok api_token ->
  getitem provider "region" = Ok region ->
  getitem provider "size" = Ok size ->
  getitem provider "ssh_key_id" = Ok ssh_key_id ->
  getitem (VDict (config s)) "server_settings" = Ok (VDict settings) ->
  (forall payload, exists r,
      http_post w (S (S (tick s))) [Lit "https://api.digitalocean.com/v2/droplets"] payload
      = Ok r /\ status_code r <> 202) ->
  exists r payload s',
    http_post w (S (S (tick s))) [Lit "https://api.digitalocean.com/v2/droplets"] payload
    = Ok r
    /\ provision_digitalocean w fuel s
       = Some (Raise (Exception_ "Exception"
                        [Lit "Failed to create droplet: "; Lit (text r)]), s')
    /\ tick s' = S (S (S (tick s)))
    /\ vps_ip s' = vps_ip s
    /\ config_item "server_settings" "mysql_root_password" s'
       = Some (Ok (VStr (random_password w (tick s) 20)), s')
    /\ config_item "server_settings" "mail_db_password" s'
       = Some (Ok (VStr (random_password w (S (tick s)) 20)), s').
Proof.
  intros Hprovider Htoken Hregion Hsize Hkey Hsettings Hpost.
  destruct (boot_script_passwords_are_kept_aux w s settings Hsettings)
    as (script & s1 & Hscript & Htick & Hip & Hroot & Hdb & Hkeep).
  assert (Hprovider1 : getitem (VDict (config s1)) "vps_provider" = Ok provider).
  { revert Hprovider. unfold getitem. rewrite Hkeep by discriminate. auto. }
  unfold provision_digitalocean.
  rewrite (MonadFacts.bind_step _ _ _ _ _ (config_item_ok _ _ _ _ s Hprovider Htoken)).
  rewrite (MonadFacts.bind_step _ _ _ _ _ Hscript).
  rewrite (MonadFacts.bind_step _ _ s1 (now s1) s1 eq_refl).
  rewrite (MonadFacts.bind_step _ _ _ _ _ (config_item_ok _ _ _ _ s1 Hprovider1 Hregion)).
  rewrite (MonadFacts.bind_step _ _ _ _ _ (config_item_ok _ _ _ _ s1 Hprovider1 Hsize)).
  rewrite (MonadFacts.bind_step _ _ _ _ _ (config_item_ok _ _ _ _ s1 Hprovider1 Hkey)).
  unfold ask, bind. rewrite Htick.
  match goal with
  | |- context [http_post w _ _ ?payload] =>
      destruct (Hpost payload) as (r & Hr & Hstatus); exists r, payload
  end.
  rewrite Hr. cbn [note]. apply Z.eqb_neq in Hstatus. rewrite Hstatus.
  unfold raise. eexists. split; [reflexivity|]. split; [reflexivity|].
  cbn [tick vps_ip set_time]. split; [reflexivity|]. split; [exact Hip|].
  revert Hroot Hdb. unfold config_item, gets, lift, bind. cbn [config set_time].
  destruct (getitem (VDict (config s1)) "server_settings") as [sec|]; [|discriminate].
  destruct (getitem sec "mysql_root_password"); intros H; inversion H.
  destruct (getitem sec "mail_db_password"); intros H'; inversion H'.
  split; reflexivity.
Qed.

Lemma refused_droplet_raises_witness :
  exists s',
    provision_digitalocean Scenarios.apis_refuse 3 (init default_config)
    = Some (Raise (Exception_ "Exception"
                     [Lit "Failed to create droplet: "; Lit "Forbidden"]), s')
    /\ vps_ip s' = VNone.
Proof.
  edestruct (refused_droplet_raises Scenarios.apis_refuse 3 (init default_config))
    as (r & payload & s' & Hr & Hrun & _ & Hip & _ & _).
  - reflexivity.
  - reflexivity.
  - reflexivity.
  - reflexivity.
  - reflexivity.
  - reflexivity.
  - intros payload. eexists. split; [reflexivity | discriminate].
  - inversion Hr; subst r. exists s'. split; [exact Hrun | exact Hip].
Defined.

(** *** The address of the host *)

Lemma ssh_ready_was_accepted (w : World) (fuel : nat) (ip : Value) (timeout : Z)
    (s s' : State) :
  wait_for_ssh w fuel ip timeout s = Some (Ok true, s') ->
  exists t, ssh_connect w t ip = Ok tt.
Proof.
  unfold wait_for_ssh. intros H.
  apply MonadFacts.bind_ok in H as (u & s1 & _ & H).
  apply MonadFacts.bind_ok in H as (start & s2 & _ & H).
  clear s s1 u. revert s2 H.
  induction fuel as [|n IH]; intros s H; [discriminate H|].
  cbn [while_cond] in H.
  rewrite (MonadFacts.bind_step _ _ s (now s - start <? timeout * 1000) s eq_refl) in H.
  destruct (now s - start <? timeout * 1000); [|discriminate H].
  unfold bind at 1 in H. unfold try_except_bare at 1 in H.
  unfold probe_connect, ask in H. unfold bind at 1 2 in H.
  destruct (ssh_connect w (tick s) ip) as [[]|e] eqn:Hc.
  - exists (tick s). exact Hc.
  - cbn [note] in H. unfold sleep, bind in H.
    match type of H with
    | context [sleep_outcome w ?t] => destruct (sleep_outcome w t) as [[]|e2]
    end; cbn [note] in H; [|discriminate H].
    unfold ret in H. eapply IH. exact H.
Qed.

Lemma public_network_found (w : World) (fuel : nat) (items : list Value) (ip : Value)
    (s s' : State) :
  for_each_return items (fun network =>
    ty <- lift (getitem network "type") ;;
    if eq_str ty "public" then
      ip <- lift (getitem network "ip_address") ;;
      ready <- wait_for_ssh w fuel ip 300 ;;
      if ready then ret (Some ip) else ret None
    else ret None) s = Some (Ok (Some ip), s') ->
  exists network ty,
    In network items
    /\ getitem network "type" = Ok ty /\ eq_str ty "public" = true
    /\ getitem network "ip_address" = Ok ip
    /\ exists t, ssh_connect w t ip = Ok tt.
Proof.
  revert s. induction items as [|network items IH]; intros s H; [discriminate H|].
  cbn [for_each_return] in H. unfold bind at 1 in H. unfold bind at 1 in H.
  unfold lift at 1 in H.
  destruct (getitem network "type") as [ty|] eqn:Hty; [|discriminate H].
  destruct (eq_str ty "public") eqn:Hpublic.
  - unfold bind at 1 in H. unfold lift at 1 in H.
    destruct (getitem network "ip_address") as [addr|] eqn:Haddr; [|discriminate H].
    unfold bind at 1 in H.
    destruct (wait_for_ssh w fuel addr 300 s) as [[[[|]|e] s1]|] eqn:Hssh;
      try discriminate H.
    + unfold ret in H. inversion H; subst.
      exists network, ty. split; [left; reflexivity|].
      split; [exact Hty|]. split; [exact Hpublic|]. split; [exact Haddr|].
      eapply ssh_ready_was_accepted. exact Hssh.
    + unfold ret at 1 in H.
      destruct (IH s1 H) as (n2 & ty2 & Hin & Hrest).
      exists n2, ty2. split; [right; exact Hin | exact Hrest].
  - unfold ret at 1 in H.
    destruct (IH s H) as (n2 & ty2 & Hin & Hrest).
    exists n2, ty2. split; [right; exact Hin | exact Hrest].
Qed.

(** X23. The address a provisioning returns. When
    [wait_for_droplet_ready] returns an address, a reply of the provider
    to a query for this droplet listed it as a public IPv4 address of the
    droplet, the droplet being active, and the host accepted an SSH
    connection at that address. *)
Theorem returned_address_was_listed_and_reached (w : World) (fuel : nat)
    (droplet_id api_token ip : Value) (s s' : State) :
  wait_for_droplet_ready w fuel droplet_id api_token s = Some (Ok ip, s') ->
  exists t r,
    http_get w t [Lit "https://api.digitalocean.com/v2/droplets/"; Fmt droplet_id] = Ok r
    /\ lists_public r ip
    /\ exists t2, ssh_connect w t2 ip = Ok tt.
Proof.
  unfold wait_for_droplet_ready. intros H.
  apply MonadFacts.bind_ok in H as (u & s1 & _ & H).
  clear s u. revert H. generalize fuel at 1. intros n. revert s1.
  induction n as [|n IH]; intros s H; [discriminate H|].
  cbn [while_true] in H. unfold bind at 1 in H. unfold bind at 1 in H.
  unfold ask at 1 in H. unfold bind at 1 in H.
  destruct (http_get w (tick s) [Lit "https://api.digitalocean.com/v2/droplets/";
                                 Fmt droplet_id]) as [r|e] eqn:Hget;
    [|discriminate H].
  cbn [note] in H.
  destruct (status_code r =? 200) eqn:Hstatus.
  - apply Z.eqb_eq in Hstatus.
    unfold bind at 1 in H. unfold bind at 1 in H. unfold lift at 1 in H.
    destruct (json r) as [body|] eqn:Hjson; [|discriminate H].
    unfold bind at 1 in H. unfold lift at 1 in H.
    destruct (getitem body "droplet") as [droplet|] eqn:Hdroplet; [|discriminate H].
    unfold bind at 1 in H. unfold lift at 1 in H.
    destruct (getitem droplet "status") as [st|] eqn:Hst; [|discriminate H].
    destruct (eq_str st "active") eqn:Hactive.
    + unfold bind at 1 in H. unfold lift at 1 in H.
      destruct (getitem droplet "networks") as [networks|] eqn:Hnet; [|discriminate H].
      unfold bind at 1 in H. unfold lift at 1 in H.
      destruct (getitem networks "v4") as [v4|] eqn:Hv4; [|discriminate H].
      unfold bind at 1 in H. unfold lift at 1 in H.
      destruct (iter v4) as [items|] eqn:Hitems; [|discriminate H].
      match type of H with
      | context [for_each_return items ?f ?s1] =>
          destruct (for_each_return items f s1) as [[[[found|]|e] s2]|] eqn:Hfound
      end; try discriminate H.
      * unfold ret in H. inversion H; subst found.
        destruct (public_network_found _ _ _ _ _ _ Hfound)
          as (network & ty & Hin & Hty & Hpublic & Haddr & Hssh).
        exists (tick s), r. split; [exact Hget|]. split; [|exact Hssh].
        split; [exact Hstatus|].
        exists body, droplet, st, networks, v4, items, network, ty. tauto.
      * unfold sleep, bind in H.
        match type of H with
        | context [sleep_outcome w ?t] => destruct (sleep_outcome w t) as [[]|e2]
        end; cbn [note] in H; [|discriminate H].
        unfold ret at 1 in H. eapply IH. exact H.
    + unfold ret at 1 in H. unfold sleep, bind in H.
      match type of H with
      | context [sleep_outcome w ?t] => destruct (sleep_outcome w t) as [[]|e2]
      end; cbn [note] in H; [|discriminate H].
      unfold ret at 1 in H. eapply IH. exact H.
  - unfold ret at 1 in H. unfold sleep, bind in H.
    match type of H with
    | context [sleep_outcome w ?t] => destruct (sleep_outcome w t) as [[]|e2]
    end; cbn [note] in H; [|discriminate H].
    unfold ret at 1 in H. eapply IH. exact H.
Qed.

(** The provider lists one public address, and the host answers. *)
Lemma returned_address_was_listed_and_reached_witness :
  exists t r,
    http_get Scenarios.all_succeed t
      [Lit "https://api.digitalocean.com/v2/droplets/"; Fmt (VInt 7)] = Ok r
    /\ lists_public r (VStr "203.0.113.5").
Proof.
  edestruct (returned_address_was_listed_and_reached Scenarios.all_succeed 3 (VInt 7)
               (VStr "YOUR_DO_API_TOKEN"))
    with (s := init default_config)
    as (t & r & Hget & Hlisted & _).
  - vm_compute. reflexivity.
  - exists t, r. split; [exact Hget | exact Hlisted].
Defined.

End OrchestratorExtra.

(** ** More on the configuration files *)

Module ConfigExtra.

(** X24. The second start of the orchestrator. When the configuration
    file is missing, the first start writes it and exits; started again on
    the disk the first start left, [load_config] returns the default
    document, placeholders included, and the other files are untouched. *)
Theorem orchestrator_second_start_loads_defaults (path : string) (fs : Files)
    (printed_before : list FString) :
  fs !! path = None ->
  exists c',
    Orchestrator.load_config path
      {| Orchestrator.disk := fs; Orchestrator.output := printed_before |}
    = Some (Raise (SystemExit 1), c')
    /\ Orchestrator.load_config path c' = Some (Ok Orchestrator.default_config, c')
    /\ forall other, other <> path -> Orchestrator.disk c' !! other = fs !! other.
Proof.
  intros Hmissing.
  eexists. split; [|split].
  - unfold Orchestrator.load_config, Orchestrator.create_default_config, bind, get,
      modify, raise, open_json.
    cbn [Orchestrator.disk]. rewrite Hmissing. reflexivity.
  - unfold Orchestrator.load_config, bind, get, ret, open_json, write_json.
    cbn [Orchestrator.disk]. unfold Files. rewrite lookup_insert_eq. reflexivity.
  - intros other Hother. cbn [Orchestrator.disk]. unfold write_json.
    apply lookup_insert_ne. congruence.
Qed.

Lemma orchestrator_second_start_loads_defaults_witness :
  exists c',
    Orchestrator.load_config "automation_config.json"
      {| Orchestrator.disk := ∅; Orchestrator.output := [] |}
    = Some (Raise (SystemExit 1), c')
    /\ Orchestrator.load_config "automation_config.json" c'
       = Some (Ok Orchestrator.default_config, c').
Proof.
  edestruct (orchestrator_second_start_loads_defaults "automation_config.json" ∅ [])
    as (c' & Hfirst & Hsecond & _).
  - reflexivity.
  - exists c'. split; [exact Hfirst | exact Hsecond].
Defined.

Lemma configurator_second_run (default_config : Dict) (rest_of_run : M Configurator.State unit)
    (path : string) (fs : Files) (listed : Value) (n : Z) :
  fs !! path = None ->
  dict_get "domains" default_config = Some listed ->
  Configurator.py_len listed = Ok n ->
  Configurator.truthy listed = true ->
  exists s1 s2,
    Configurator.run default_config rest_of_run (Configurator.init path fs)
    = Some (Ok tt, s1)
    /\ Configurator.domains s2 = listed
    /\ Configurator.files s2 = Configurator.files s1
    /\ Configurator.run default_config rest_of_run
         (Configurator.init path (Configurator.files s1))
       = rest_of_run s2.
Proof.
  intros Hmissing Hlisted Hlen Htruthy.
  unfold Configurator.run, Configurator.load_config, Configurator.create_default_config,
    Configurator.print, Configurator.init, bind, get, modify, ret, lift, open_json,
    write_json.
  cbn. rewrite Hmissing. cbn.
  eexists _, _. split; [reflexivity|].
  cbn. unfold Files. rewrite lookup_insert_eq. cbn.
  rewrite Hlisted. cbn. rewrite Hlen. cbn. rewrite Htruthy. cbn.
  split; [|split]; [| |reflexivity]; reflexivity.
Qed.

(** X25. The second run of a configurator. When the configuration file is
    missing, either configurator writes its default document and asks for
    it to be edited; run again on the disk it left, it does not stop: it
    loads the two example domains of that document and goes on to the rest
    of the run with them. *)
Theorem configurator_second_run_uses_example_domains
    (rest_of_run : M Configurator.State unit) (path : string) (fs : Files) :
  fs !! path = None ->
  forall default_config,
    default_config = Configurator.default_config_basic
    \/ default_config = Configurator.default_config_enhanced ->
    exists s1 s2,
      Configurator.run default_config rest_of_run (Configurator.init path fs)
      = Some (Ok tt, s1)
      /\ Configurator.domains s2 = VList [VStr "example.com"; VStr "test-domain.org"]
      /\ Configurator.files s2 = Configurator.files s1
      /\ Configurator.run default_config rest_of_run
           (Configurator.init path (Configurator.files s1))
         = rest_of_run s2.
Proof.
  intros Hmissing default_config [-> | ->];
    apply (configurator_second_run _ rest_of_run path fs _ 2 Hmissing); reflexivity.
Qed.

Lemma configurator_second_run_uses_example_domains_witness :
  exists s1 s2,
    Configurator.run Configurator.default_config_basic (ret tt)
      (Configurator.init "email_config.json" ∅) = Some (Ok tt, s1)
    /\ Configurator.domains s2 = VList [VStr "example.com"; VStr "test-domain.org"]
    /\ Configurator.run Configurator.default_config_basic (ret tt)
         (Configurator.init "email_config.json" (Configurator.files s1))
       = Some (Ok tt, s2).
Proof.
  edestruct (configurator_second_run_uses_example_domains (ret tt) "email_config.json" ∅)
    with (default_config := Configurator.default_config_basic)
    as (s1 & s2 & Hfirst & Hdomains & _ & Hsecond).
  - reflexivity.
  - left. reflexivity.
  - exists s1, s2. split; [exact Hfirst|]. split; [exact Hdomains | exact Hsecond].
Defined.

End ConfigExtra.

(** ** The passwords of the configurators *)

Module PasswordFacts.
Import Passwords.

Section Source.
Variable w : World.
Hypothesis choice_in : forall t seq, seq <> [] -> In (choice w t seq) seq.
Hypothesis sample_perm : forall t population, Permutation (sample w t population) population.

Lemma choices_drawn (n : nat) (seq : list ascii) (t : nat) :
  seq <> [] ->
  exists drawn,
    choices w n seq t = Some (Ok drawn, (t + n)%nat)
    /\ length drawn = n
    /\ Forall (fun c => In c seq) drawn.
Proof.
  intros Hseq. revert t. induction n as [|n IH]; intros t.
  - exists []. rewrite Nat.add_0_r. split; [reflexivity|]. split; [reflexivity | constructor].
  - destruct (IH (S t)) as (drawn & Hrun & Hlen & Hin).
    exists (choice w t seq :: drawn). cbn [choices].
    unfold bind at 1. unfold random_choice at 1.
    unfold bind at 1. rewrite Hrun. unfold ret.
    replace (S t + n)%nat with (t + S n)%nat by lia.
    split; [reflexivity|]. split; [simpl; lia|].
    constructor; [apply choice_in; exact Hseq | exact Hin].
Qed.

(** X26. The shape of a generated password. With a random source that
    picks from the sequence it is given and samples by permuting,
    [generate_password] returns a password of [length] characters, and of
    four when [length] is smaller; it holds a lower-case letter, an
    upper-case letter, a digit and one of [!@#$%^&*], and nothing outside
    these four classes. *)
Theorem generated_password_shape (length_asked : Z) (t : nat) :
  exists password t',
    generate_password w length_asked t = Some (Ok password, t')
    /\ length password = Nat.max (Z.to_nat length_asked) 4
    /\ (exists c, In c password /\ In c ascii_lowercase)
    /\ (exists c, In c password /\ In c ascii_uppercase)
    /\ (exists c, In c password /\ In c digits)
    /\ (exists c, In c password /\ In c specials)
    /\ Forall (fun c => In c characters) password.
Proof.
  destruct (choices_drawn (Z.to_nat length_asked) characters t ltac:(discriminate))
    as (drawn & Hrun & Hlen & Hin).
  unfold generate_password. unfold bind at 1. rewrite Hrun.
  unfold random_choice, random_sample, bind.
  set (t1 := (t + Z.to_nat length_asked)%nat).
  set (lower := choice w t1 ascii_lowercase).
  set (upper := choice w (S t1) ascii_uppercase).
  set (digit := choice w (S (S t1)) digits).
  set (special := choice w (S (S (S t1))) specials).
  set (fixed := lower :: upper :: digit :: special :: drop 4 drawn).
  assert (Hlower : In lower ascii_lowercase) by (apply choice_in; discriminate).
  assert (Hupper : In upper ascii_uppercase) by (apply choice_in; discriminate).
  assert (Hdigit : In digit digits) by (apply choice_in; discriminate).
  assert (Hspecial : In special specials) by (apply choice_in; discriminate).
  pose proof (sample_perm (S (S (S (S t1)))) fixed) as Hperm.
  assert (Hmem : forall c, In c fixed -> In c (sample w (S (S (S (S t1)))) fixed)).
  { intros c Hc. eapply Permutation_in; [symmetry; exact Hperm | exact Hc]. }
  eexists _, _. split; [reflexivity|]. split; [|split; [|split; [|split; [|split]]]].
  - rewrite (Permutation_length Hperm). unfold fixed. cbn [length].
    rewrite length_drop, Hlen. lia.
  - exists lower. split; [apply Hmem; unfold fixed; simpl; tauto | exact Hlower].
  - exists upper. split; [apply Hmem; unfold fixed; simpl; tauto | exact Hupper].
  - exists digit. split; [apply Hmem; unfold fixed; simpl; tauto | exact Hdigit].
  - exists special. split; [apply Hmem; unfold fixed; simpl; tauto | exact Hspecial].
  - eapply Permutation_Forall; [symmetry; exact Hperm|].
    unfold fixed, characters.
    constructor; [|constructor; [|constructor; [|constructor;
      [|apply Forall_drop; exact Hin]]]].
    + apply in_or_app. left. apply in_or_app. left. apply in_or_app. left. exact Hlower.
    + apply in_or_app. left. apply in_or_app. left. apply in_or_app. right. exact Hupper.
    + apply in_or_app. left. apply in_or_app. right. exact Hdigit.
    + apply in_or_app. right. exact Hspecial.
Qed.

End Source.

(** A password of two characters is asked for. *)
Lemma generated_password_shape_witness :
  exists password t',
    generate_password Scenarios.first_and_reverse 2 O = Some (Ok password, t')
    /\ length password = 4%nat.
Proof.
  edestruct (generated_password_shape Scenarios.first_and_reverse) with (length_asked := 2) (t := O)
    as (password & t' & Hrun & Hlen & _).
  - intros t seq Hseq. destruct seq as [|c seq]; [contradiction | left; reflexivity].
  - intros t population. symmetry. apply Permutation_rev.
  - exists password, t'. split; [exact Hrun | exact Hlen].
Defined.

End PasswordFacts.
